(** * DaftScraperMap: the listing acquisition pipeline

    A shallow embedding of the Python back end (Backend/core/utils.py,
    fetcher.py, parser.py, supabase_client.py and daft_scraper.py) and
    the properties its specification states about it.

    Modelling conventions.
    - A Python [str] is a list of Unicode code points ([char := N]).
      [str.lower], [str.strip], the regular-expression classes [\d]
      and [\s] and [str.isdigit] are modelled on the ASCII range; code
      points above 127 are caseless and belong to none of the classes.
    - A Python exception is a value of [exn]; code that can raise
      returns a [result].  A [try]/[except] clause is a match on the
      raised exception, so an exception the clause does not name keeps
      propagating, as in Python.
    - A finite [float] is represented by the rational it denotes.
      Conversions, products and quotients round to the nearest
      binary64, ties to even, and overflow to infinity where IEEE
      binary64 does; the sign of zero is not kept.
    - Logging calls are omitted: they do not change any value. *)

From Stdlib Require Import List ZArith NArith QArith Qabs Lia Lqa Bool Ascii
  String DecimalString.
From stdpp Require Import gmap.
Import ListNotations.

#[local] Open Scope Z_scope.
#[local] Open Scope list_scope.

(** ** Python values, strings, exceptions *)

Definition char := N.
Definition str := list char.

(** An ASCII literal as a list of code points. *)
Definition lit (s : string) : str :=
  List.map N_of_ascii (list_ascii_of_string s).

(** The euro sign, U+20AC. *)
Definition euro : char := 8364%N.

Definition comma : char := 44%N.
Definition hyphen : char := 45%N.
Definition dot : char := 46%N.
Definition slash : char := 47%N.
Definition plus_sign : char := 43%N.

Definition str_eqb (a b : str) : bool :=
  bool_decide (a = b).

Inductive exn :=
| ValueError
| OverflowError
| TypeError
| ModuleNotFoundError
| ScrapingException (url : str) (status_code : option Z)
| RateLimitException (retry_after : Z)
| NetworkException (url : str) (timeout : bool)
| DatabaseException.

Inductive result (A : Type) :=
| Ok (a : A)
| Raise (e : exn).
Arguments Ok {A} a.
Arguments Raise {A} e.

Definition bind {A B} (r : result A) (f : A -> result B) : result B :=
  match r with
  | Ok a => f a
  | Raise e => Raise e
  end.

Declare Scope py_scope.
Delimit Scope py_scope with py.
Notation "'let*' x ':=' c1 'in' c2" := (bind c1 (fun x => c2))
  (at level 10, x name, c1 at level 100, c2 at level 200) : py_scope.
#[local] Open Scope py_scope.

(** [try: body  except ValueError: pass]: the body either returns a
    value ([Some]), falls off its end ([None]) or raises; only a
    [ValueError] is swallowed. *)
Definition except_ValueError_pass {A} (body : result (option A))
  : result (option A) :=
  match body with
  | Raise ValueError => Ok None
  | other => other
  end.

(** Case analysis on the comparisons that define the character
    classes. *)
Ltac char_cases :=
  repeat match goal with
         | H : context [N.leb ?a ?b] |- _ => destruct (N.leb_spec a b)
         | |- context [N.leb ?a ?b] => destruct (N.leb_spec a b)
         | H : context [N.eqb ?a ?b] |- _ => destruct (N.eqb_spec a b)
         | |- context [N.eqb ?a ?b] => destruct (N.eqb_spec a b)
         end;
  cbn in *; try congruence; try lia.

(** ** String operations of the Python runtime *)

Module Str.

Definition is_upper (c : char) : bool := ((65 <=? c) && (c <=? 90))%N.

(** [str.lower], character by character. *)
Definition lower_char (c : char) : char :=
  if is_upper c then (c + 32)%N else c.
Definition lower (s : str) : str := List.map lower_char s.

(** [\d] *)
Definition is_digit (c : char) : bool := ((48 <=? c) && (c <=? 57))%N.

(** [\s] *)
Definition is_space (c : char) : bool :=
  (((9 <=? c) && (c <=? 13)) || ((28 <=? c) && (c <=? 32)))%N.

Fixpoint starts_with (p s : str) : bool :=
  match p, s with
  | [], _ => true
  | _ :: _, [] => false
  | a :: p', b :: s' => (a =? b)%N && starts_with p' s'
  end.

(** [p in s] *)
Fixpoint contains (p s : str) : bool :=
  starts_with p s ||
  match s with
  | [] => false
  | _ :: s' => contains p s'
  end.

(** [s.replace(old, new)]: every non-overlapping occurrence, scanning
    from the left.  [skip] counts the characters of an occurrence that
    are still to be dropped. *)
Fixpoint replace_from (old new : str) (skip : nat) (s : str) : str :=
  match s with
  | [] => []
  | c :: s' =>
      match skip with
      | S k => replace_from old new k s'
      | O =>
          if starts_with old s
          then new ++ replace_from old new (Nat.pred (length old)) s'
          else c :: replace_from old new 0 s'
      end
  end.

Definition replace (old new s : str) : str :=
  match old with
  | [] => new ++ flat_map (fun c => c :: new) s
  | _ :: _ => replace_from old new 0 s
  end.

Fixpoint drop_while (p : char -> bool) (s : str) : str :=
  match s with
  | [] => []
  | c :: s' => if p c then drop_while p s' else s
  end.

Fixpoint take_while (p : char -> bool) (s : str) : str :=
  match s with
  | [] => []
  | c :: s' => if p c then c :: take_while p s' else []
  end.

(** [s.strip(c)] for a one-character argument. *)
Definition strip (c : char) (s : str) : str :=
  rev (drop_while (N.eqb c) (rev (drop_while (N.eqb c) s))).

(** [s.split(c)] for a one-character separator: never empty. *)
Fixpoint split (c : char) (s : str) : list str :=
  match s with
  | [] => [[]]
  | a :: s' =>
      if (a =? c)%N then [] :: split c s'
      else match split c s' with
           | [] => [[a]]
           | w :: ws => (a :: w) :: ws
           end
  end.

(** [str.isdigit] *)
Definition isdigit (s : str) : bool :=
  match s with
  | [] => false
  | _ :: _ => forallb is_digit s
  end.

(** The value of a run of decimal digits, most significant first. *)
Definition digit_val (c : char) : Z := Z.of_N c - 48.
Definition digits_val (s : str) : Z :=
  fold_left (fun acc c => 10 * acc + digit_val c) s 0.

(** [int(s)] on the strings this program passes to it (no sign, no
    blanks): a non-empty run of digits, else [ValueError].  Integers
    are unbounded; the interpreter's switchable cap on the number of
    digits one conversion takes is left out. *)
Definition py_int (s : str) : result Z :=
  if isdigit s then Ok (digits_val s) else Raise ValueError.

End Str.

(** ** Floating point

    A [float] that is finite is the rational it stands for, a
    binary64 whenever an operation of this module made it; the two
    infinities are kept apart because [round] raises on them. *)

Module Float.

Inductive pyfloat :=
| Fin (q : Q)
| PosInf
| NegInf.

(** Magnitudes from [2^1024 - 2^970] on (half an ulp above the largest
    binary64) round to infinity. *)
Definition overflow_threshold : Z := 2 ^ 1024 - 2 ^ 970.

Definition overflows (q : Q) : bool :=
  Qle_bool (inject_Z overflow_threshold) (Qabs q).

(** Nearest integer, ties to the even one. *)
Definition round_half_even (q : Q) : Z :=
  let n := Qnum q in
  let d := Z.pos (Qden q) in
  let f := n / d in
  let r := n mod d in
  match 2 * r ?= d with
  | Lt => f
  | Gt => f + 1
  | Eq => if Z.even f then f else f + 1
  end.

(** [2^e] *)
Definition pow2 (e : Z) : Q :=
  if 0 <=? e then inject_Z (2 ^ e) else 1 # Z.to_pos (2 ^ (- e)).

(** The exponent of the last place of the binary64 format at [q]:
    with [2^l <= |q| < 2^(l+1)] it is [l - 52], for 53 significant
    bits, and it is [-1074] in the subnormal range. *)
Definition ulp_exponent (q : Q) : Z :=
  let l0 := Z.log2 (Z.abs (Qnum q)) - Z.log2 (Z.pos (Qden q)) in
  let l := if Qle_bool (pow2 l0) (Qabs q) then l0 else l0 - 1 in
  Z.max (l - 52) (-1074).

(** The multiple of that last place nearest to [q], ties to the even
    multiple: round-to-nearest-even, the rounding of IEEE 754. *)
Definition nearest_binary64 (q : Q) : Q :=
  let e := ulp_exponent q in
  Qred (inject_Z (round_half_even (q * pow2 (- e))) * pow2 e).

(** The [float] of a real number: its nearest binary64, or an
    infinity.  A rational that is a binary64 is kept as it is
    written. *)
Definition of_Q (q : Q) : pyfloat :=
  if overflows q then (if Qle_bool 0 q then PosInf else NegInf)
  else
    let r := nearest_binary64 q in
    Fin (if Qeq_bool r q then q else r).

Definition of_Z (z : Z) : pyfloat := of_Q (inject_Z z).

(** [a * b] and [a / b] for a finite, positive right operand (the
    program multiplies by 52 and divides by 12 only): the exact
    result, rounded. *)
Definition mul_pos (a : pyfloat) (b : Z) : pyfloat :=
  match a with
  | Fin q => of_Q (q * inject_Z b)
  | inf => inf
  end.

Definition div_pos (a : pyfloat) (b : Z) : pyfloat :=
  match a with
  | Fin q => of_Q (q / inject_Z b)
  | inf => inf
  end.

(** [round(x)]: an [int], or [OverflowError] on an infinity. *)
Definition round (x : pyfloat) : result Z :=
  match x with
  | Fin q => Ok (round_half_even q)
  | PosInf | NegInf => Raise OverflowError
  end.

(** [x >= n] *)
Definition ge_Z (x : pyfloat) (n : Z) : bool :=
  match x with
  | Fin q => Qle_bool (inject_Z n) q
  | PosInf => true
  | NegInf => false
  end.

(** [float(s)] for the strings this program passes to it, which are
    made of digits, dots and hyphens only: an optional sign, then
    digits with at most one decimal point and at least one digit.
    Anything else is a [ValueError]. *)
Definition parse_unsigned (s : str) : result Q :=
  let ip := Str.take_while Str.is_digit s in
  match Str.drop_while Str.is_digit s with
  | [] =>
      match ip with
      | [] => Raise ValueError
      | _ :: _ => Ok (inject_Z (Str.digits_val ip))
      end
  | c :: fp =>
      if (c =? dot)%N && forallb Str.is_digit fp
         && negb (Nat.eqb (length ip + length fp) 0)
      then Ok (Str.digits_val (ip ++ fp) # Z.to_pos (10 ^ Z.of_nat (length fp)))
      else Raise ValueError
  end.

Definition py_float (s : str) : result pyfloat :=
  match s with
  | c :: t =>
      if (c =? hyphen)%N then
        let* q := parse_unsigned t in Ok (of_Q (- q))
      else if (c =? plus_sign)%N then
        let* q := parse_unsigned t in Ok (of_Q q)
      else
        let* q := parse_unsigned s in Ok (of_Q q)
  | [] => Raise ValueError
  end.

End Float.

(** ** Regular expressions

    The fragment of Python's [re] the program uses, run the way [re]
    runs it: a backtracking matcher, leftmost start first, greedy
    repetition and option, alternatives in the order written.  Every
    repetition in the program's patterns is over a single character
    class. *)

Module Re.

Inductive regex :=
| Eps
| Cls (p : char -> bool)
| Seq (r1 r2 : regex)
| Alt (r1 r2 : regex)
| Opt (r : regex)
| Star (p : char -> bool)
| Grp (n : nat) (r : regex).

Definition Chr (c : char) : regex := Cls (N.eqb c).
Definition Plus (p : char -> bool) : regex := Seq (Cls p) (Star p).

Fixpoint Lit (s : str) : regex :=
  match s with
  | [] => Eps
  | c :: s' => Seq (Chr c) (Lit s')
  end.

(** A literal under [re.IGNORECASE]. *)
Fixpoint LitI (s : str) : regex :=
  match s with
  | [] => Eps
  | c :: s' =>
      Seq (Cls (fun a => (Str.lower_char a =? Str.lower_char c)%N)) (LitI s')
  end.

(** [w1|w2|...] *)
Fixpoint Words (w : str) (ws : list str) : regex :=
  match ws with
  | [] => Lit w
  | w' :: ws' => Alt (Lit w) (Words w' ws')
  end.

(** Text captured by the numbered groups, latest binding first. *)
Definition groups := list (nat * str).

Fixpoint group (n : nat) (g : groups) : option str :=
  match g with
  | [] => None
  | (k, s) :: g' => if Nat.eqb k n then Some s else group n g'
  end.

Section Run.
Context {A : Type}.

(** Greedy [p*]: take the longest run first, give characters back
    while the rest of the pattern fails. *)
Fixpoint star (p : char -> bool) (k : str -> option A) (s : str)
  : option A :=
  match s with
  | c :: s' =>
      if p c then
        match star p k s' with
        | Some r => Some r
        | None => k s
        end
      else k s
  | [] => k s
  end.

(** [run r s g k]: match [r] at the head of [s], then hand the rest of
    the input and the groups to [k]; [None] sends the matcher back to
    its latest choice. *)
Fixpoint run (r : regex) (s : str) (g : groups)
    (k : str -> groups -> option A) : option A :=
  match r with
  | Eps => k s g
  | Cls p =>
      match s with
      | c :: s' => if p c then k s' g else None
      | [] => None
      end
  | Seq r1 r2 => run r1 s g (fun s1 g1 => run r2 s1 g1 k)
  | Alt r1 r2 =>
      match run r1 s g k with
      | Some x => Some x
      | None => run r2 s g k
      end
  | Opt r1 =>
      match run r1 s g k with
      | Some x => Some x
      | None => k s g
      end
  | Star p => star p (fun s' => k s' g) s
  | Grp n r1 =>
      run r1 s g
        (fun s' g' => k s' ((n, firstn (length s - length s') s) :: g'))
  end.

End Run.

(** [re.match]: at the head of the input only. *)
Definition match_here (r : regex) (s : str) : option groups :=
  run r s [] (fun _ g => Some g).

(** [re.search]: the first start position with a match. *)
Fixpoint search (r : regex) (s : str) : option groups :=
  match match_here r s with
  | Some g => Some g
  | None =>
      match s with
      | [] => None
      | _ :: s' => search r s'
      end
  end.

(** [stops p rest]: a run of [p] cannot go on into [rest]. *)
Definition stops (p : char -> bool) (rest : str) : Prop :=
  match rest with
  | [] => True
  | c :: _ => p c = false
  end.

(** The groups every match of [r] binds. *)
Fixpoint must (r : regex) : list nat :=
  match r with
  | Seq r1 r2 => must r1 ++ must r2
  | Grp n r1 => n :: must r1
  | _ => []
  end.

Definition bound (n : nat) (g : groups) : Prop := group n g <> None.

(** [int(m.group(n))] and friends: a group that took no part in the
    match is [None], which the conversions reject with [TypeError]. *)
Definition group_text (n : nat) (g : groups) : result str :=
  match group n g with
  | Some s => Ok s
  | None => Raise TypeError
  end.

(** *** Anchored matches *)

(** [$]: the end of the input, or the newline that ends it. *)
Definition at_end (s : str) : bool :=
  match s with
  | [] => true
  | [c] => (c =? 10)%N
  | _ => false
  end.

(** [re.match(r'^...$', s)] *)
Definition match_to_end (r : regex) (s : str) : option groups :=
  run r s [] (fun s' g => if at_end s' then Some g else None).

End Re.

(** ** core/utils.py *)

Module Utils.
Import Str Re Float.

Inductive pyval :=
| PyNone
| PyStr (s : str)
| PyInt (z : Z)
| PyOther.

Inductive price_type := numeric | on_application | unknown.

Record ParsedPriceResult := {
  value : option pyfloat;
  type : price_type
}.

Record ParsedBedsResult := {
  min : Z;
  max : Z;
  is_studio : bool
}.

(** The price pattern, spaced out as under [re.VERBOSE]:
    [(?: € \s* )? ( [\d,]+ (?: \. \d{2} )? ) \s*
     (?: (?: per \s* )? ( month|week|mth|wk|pm|p/m|pw|p/w|perweek ) )?] *)
Definition price_re : regex :=
  Seq (Opt (Seq (Chr euro) (Star is_space)))
 (Seq (Grp 1 (Seq (Plus (fun c => is_digit c || (c =? comma)%N))
                  (Opt (Seq (Chr dot) (Seq (Cls is_digit) (Cls is_digit))))))
 (Seq (Star is_space)
      (Opt (Seq (Opt (Seq (Lit (lit "per")) (Star is_space)))
                (Grp 2 (Words (lit "month")
                          [lit "week"; lit "mth"; lit "wk"; lit "pm";
                           lit "p/m"; lit "pw"; lit "p/w";
                           lit "perweek"])))))).

Definition is_weekly (period_word : str) : bool :=
  starts_with (lit "week") period_word
  || starts_with (lit "wk") period_word
  || existsb (str_eqb period_word) [lit "pw"; lit "p/w"; lit "perweek"].

(** The body of the first [try] of [parse_price], entered when the
    pattern matched and group 1 is not empty. *)
Definition price_from_match (norm : str) : result (option ParsedPriceResult) :=
  match search price_re norm with
  | Some m =>
      match group 1 m with
      | Some ((_ :: _) as g1) =>
          let* amount := py_float (replace (lit ",") [] g1) in
          match group 2 m with
          | Some ((_ :: _) as w) =>
              let period_word := lower w in
              if is_weekly period_word then
                let* r := round (div_pos (mul_pos amount 52) 12) in
                Ok (Some {| value := Some (of_Z r); type := numeric |})
              else Ok (Some {| value := Some amount; type := numeric |})
          | _ =>
              if contains [euro] norm
              then Ok (Some {| value := Some amount; type := numeric |})
              else Ok None
          end
      | _ => Ok None
      end
  | None => Ok None
  end.

(** The second attempt: the string stripped to digits and dots. *)
Definition price_from_digits (price_string norm : str)
  : result (option ParsedPriceResult) :=
  let simple_numeric :=
    List.filter (fun c => is_digit c || (c =? dot)%N) price_string in
  let kept :=
    List.filter (fun c => is_digit c || (c =? euro)%N || is_space c
                          || (c =? dot)%N || (c =? comma)%N) price_string in
  match simple_numeric with
  | _ :: _ =>
      if str_eqb simple_numeric kept then
        let* potential_price := py_float simple_numeric in
        if ge_Z potential_price 100
           && (contains [euro] norm
               || contains (lit "per month") norm
               || contains (lit "per week") norm)
        then Ok (Some {| value := Some potential_price; type := numeric |})
        else Ok None
      else Ok None
  | [] => Ok None
  end.

Definition parse_price (price_string : pyval) : result ParsedPriceResult :=
  match price_string with
  | PyStr ((_ :: _) as s) =>
      let price_str_normalized := lower s in
      if contains (lit "price on application") price_str_normalized
         || contains (lit "contact agent") price_str_normalized
      then Ok {| value := None; type := on_application |}
      else
        let* r1 := except_ValueError_pass
                     (price_from_match price_str_normalized) in
        match r1 with
        | Some r => Ok r
        | None =>
            let* r2 := except_ValueError_pass
                         (price_from_digits s price_str_normalized) in
            match r2 with
            | Some r => Ok r
            | None => Ok {| value := None; type := unknown |}
            end
        end
  | _ => Ok {| value := None; type := unknown |}
  end.

(** [( \d+ ) \s* (?: to | - ) \s* ( \d+ ) \s* bed] *)
Definition beds_range_re : regex :=
  Seq (Grp 1 (Plus is_digit))
 (Seq (Star is_space)
 (Seq (Alt (Lit (lit "to")) (Chr hyphen))
 (Seq (Star is_space)
 (Seq (Grp 2 (Plus is_digit))
 (Seq (Star is_space) (Lit (lit "bed"))))))).

(** [( \d+ ) \s* bed] *)
Definition beds_single_re : regex :=
  Seq (Grp 1 (Plus is_digit)) (Seq (Star is_space) (Lit (lit "bed"))).

Definition parse_beds (bed_string : pyval) : result (option ParsedBedsResult) :=
  match bed_string with
  | PyStr ((_ :: _) as s) =>
      let bed_str_normalized := lower s in
      if contains (lit "studio") bed_str_normalized
      then Ok (Some {| min := 1; max := 1; is_studio := true |})
      else
        let* r1 := except_ValueError_pass
          match search beds_range_re bed_str_normalized with
          | Some range_match =>
              let* g1 := group_text 1 range_match in
              let* min_beds := py_int g1 in
              let* g2 := group_text 2 range_match in
              let* max_beds := py_int g2 in
              Ok (Some {| min := Z.min min_beds max_beds;
                          max := Z.max min_beds max_beds;
                          is_studio := false |})
          | None => Ok None
          end in
        match r1 with
        | Some r => Ok (Some r)
        | None =>
            except_ValueError_pass
              match search beds_single_re bed_str_normalized with
              | Some single_match =>
                  let* g1 := group_text 1 single_match in
                  let* num := py_int g1 in
                  Ok (Some {| min := num; max := num; is_studio := false |})
              | None => Ok None
              end
        end
  | _ => Ok None
  end.

(** [( \d+ ) \s* bath] *)
Definition bath_re : regex :=
  Seq (Grp 1 (Plus is_digit)) (Seq (Star is_space) (Lit (lit "bath"))).

Definition parse_bathrooms (bath_string : pyval) : result (option Z) :=
  match bath_string with
  | PyStr ((_ :: _) as s) =>
      let bath_str_normalized := lower s in
      except_ValueError_pass
        match search bath_re bath_str_normalized with
        | Some m =>
            let* g1 := group_text 1 m in
            let* n := py_int g1 in
            Ok (Some n)
        | None => Ok None
        end
  | _ => Ok None
  end.

(** [format_ber]: drop every ["BER "], trim blanks, map the exemption
    code. *)
Definition strip_spaces (s : str) : str :=
  rev (drop_while is_space (rev (drop_while is_space s))).

Definition format_ber (ber : option str) : option str :=
  match ber with
  | Some ((_ :: _) as b) =>
      let cleaned_ber := strip_spaces (replace (lit "BER ") [] b) in
      if str_eqb cleaned_ber (lit "SI_666") then Some (lit "Exempt")
      else Some cleaned_ber
  | _ => None
  end.

(** *** Slugs *)

Definition DUBLIN_AREAS : list str :=
  List.map lit
    ["artane"; "ballsbridge"; "ballymun"; "beaumont"; "blackrock";
     "booterstown"; "cabinteely"; "castleknock"; "chapelizod"; "clondalkin";
     "clonsilla"; "clonskeagh"; "clontarf"; "coolock"; "crumlin"; "dalkey";
     "donabate"; "donaghmede"; "donnybrook"; "drumcondra"; "dun-laoghaire";
     "dundrum"; "fairview"; "finglas"; "firhouse"; "foxrock"; "glasnevin";
     "glenageary"; "harolds-cross"; "howth"; "irishtown"; "kilmainham";
     "kilternan"; "kimmage"; "leopardstown"; "liffey-valley"; "lucan";
     "malahide"; "marino"; "merrion"; "milltown"; "monkstown";
     "mount-merrion"; "mulhuddart"; "palmerstown"; "portmarnock"; "raheny";
     "ranelagh"; "rathcoole"; "rathfarnham"; "rathgar"; "rathmines";
     "ringsend"; "rush"; "saggart"; "sallynoggin"; "sandycove"; "sandyford";
     "sandymount"; "shankill"; "skerries"; "stepaside"; "stillorgan";
     "sutton"; "swords"; "tallaght"; "templeogue"; "terenure"; "walkinstown";
     "whitehall"]%string.

Definition is_lower (c : char) : bool := ((97 <=? c) && (c <=? 122))%N.

(** [[a-z0-9-]] *)
Definition slug_char (c : char) : bool :=
  is_lower c || is_digit c || (c =? hyphen)%N.

(** [re.sub(r'[^a-z0-9-]', '', text.lower().replace(' ', '-'))] *)
Definition slugify (text : pyval) : str :=
  match text with
  | PyStr s =>
      List.filter slug_char (replace (lit " ") (lit "-") (lower s))
  | _ => []
  end.

(** [dublin- \d+] *)
Definition dublin_district_re : regex :=
  Seq (Lit (lit "dublin-")) (Plus is_digit).

(** [part.strip()] is not empty. *)
Definition not_blank (part : str) : bool :=
  match strip_spaces part with
  | [] => false
  | _ :: _ => true
  end.

Definition generate_daft_location_slug (location_string : pyval) : str :=
  match location_string with
  | PyStr s =>
      if not_blank s then
        let parts :=
          List.map (fun part => slugify (PyStr (strip_spaces part)))
            (List.filter not_blank (split comma s)) in
        match parts with
        | [part1; part2] => part1 ++ lit "-" ++ part2
        | _ =>
            let single_part_slug := slugify (PyStr s) in
            match match_to_end dublin_district_re single_part_slug with
            | Some _ => single_part_slug ++ lit "-dublin"
            | None =>
                if existsb (str_eqb single_part_slug) DUBLIN_AREAS
                then single_part_slug ++ lit "-dublin"
                else single_part_slug
            end
        end
      else []
  | _ => []
  end.

End Utils.

(** ** config.py and models.py *)

Record Config := {
  DAFT_BASE_URL : str;
  MAX_PAGES_TO_FETCH : Z;
  MAX_FETCH_RETRIES : Z;
  RETRY_DELAY_MS : Z
}.

Module Models.
Import Utils Float.

Inductive listing_type := rent | sale.

Record ScrapedProperty := {
  address : str;
  url : str;
  id : str;
  tagline : str;
  price_string : str;
  parsed_price : option pyfloat;
  price_type : Utils.price_type;
  beds_string : str;
  parsed_beds : option ParsedBedsResult;
  baths_string : str;
  property_type_string : str;
  ber : option str;
  latitude : option pyfloat;
  longitude : option pyfloat;
  image_url : option str;
  date_listed : option str
}.

Record PropertyListing := {
  l_id : option Z;
  l_url : str;
  l_title : str;
  l_listing_type : listing_type;
  l_price_eur : option pyfloat;
  l_price_period : option str;
  l_bedrooms : option Z;
  l_bathrooms : option Z;
  l_property_type : str;
  l_latitude : option pyfloat;
  l_longitude : option pyfloat;
  l_date_listed : option str;
  l_image_url : option str;
  l_address_full : str
}.

End Models.

(** ** core/fetcher.py *)

Module Fetcher.

(** What one [session.get] comes back with: a response, or one of the
    two exception classes the retry loops handle. *)
Inductive outcome :=
| Response (status_code : Z) (text : str)
| Timeout
| RequestException.

(** What the fetcher does to the outside world, in order. *)
Inductive event :=
| Get (url : str)
| Delay (ms : Z).

Definition main_page : str := lit "https://www.daft.ie".

(** [from utils import delay], the statement the fetcher runs before
    each of its pauses.  The back end has no module [utils] on its
    path: the function is defined in core/utils.py, which every other
    module imports as [core.utils].  So the statement raises
    [ModuleNotFoundError], and the [delay(ms)] that follows it is not
    reached. *)
Definition from_utils_import_delay : result (Z -> list event) :=
  Raise ModuleNotFoundError.

(** [response.raise_for_status()] raises [HTTPError], a
    [RequestException], on a 4xx or 5xx status. *)
Definition raise_for_status (status_code : Z) : bool :=
  (400 <=? status_code) && (status_code <? 600).

(** [range(1, n + 2)] *)
Definition attempts (n : Z) : list Z :=
  List.map (fun k => Z.of_nat k) (seq 1 (Z.to_nat (n + 1))).

(** The warm-up of [fetch_page_html]: a request to the main page and,
    unless it raised, the import and a pause of one second, all in a
    [try] whose bare [except] passes over whatever is raised. *)
Definition warm_up (main_site : outcome) : list event :=
  match main_site with
  | Response _ _ =>
      match from_utils_import_delay with
      | Ok delay => Get main_page :: delay 1000
      | Raise _ => [Get main_page]
      end
  | _ => [Get main_page]
  end.

(** What precedes the first request to the URL. *)
Definition opening (first_page : bool) (main_site : outcome) : list event :=
  if first_page then warm_up main_site else [].

Section Fetch.
Variable config : Config.
(** The responses of the requested URL, by attempt number, and what
    the warm-up request to the main page comes back with. *)
Variable endpoint : Z -> outcome.
Variable main_site : outcome.

Section Loop.
Context {A : Type}.
Variable url : str.
(** [first_page]: the caller is [fetch_page_html] with
    [page_number == 1].  [on_success]: what the function returns from
    a good response. *)
Variable first_page : bool.
Variable on_success : str -> result A.

(** The body of [for attempt in range(1, MAX_FETCH_RETRIES + 2)],
    the same in [fetch_page_html] and [fetch_json_api] but for the
    warm-up and the decoding of the body.  What the import before a
    pause raises is caught by neither [except] clause and leaves the
    function.  After the loop the function raises a
    [NetworkException]. *)
Fixpoint retry_loop (todo : list Z) (log : list event)
  : result A * list event :=
  match todo with
  | [] => (Raise (NetworkException url false), log)
  | attempt :: rest =>
      let log :=
        if first_page && (attempt =? 1) then log ++ warm_up main_site
        else log in
      let log := log ++ [Get url] in
      match endpoint attempt with
      | Response status_code text =>
          if status_code =? 404 then
            (Raise (ScrapingException url (Some 404)), log)
          else if status_code =? 403 then
            if attempt <=? MAX_FETCH_RETRIES config then
              match from_utils_import_delay with
              | Ok delay =>
                  retry_loop rest (log ++ delay (RETRY_DELAY_MS config * 2))
              | Raise e => (Raise e, log)
              end
            else
              (Raise (RateLimitException (RETRY_DELAY_MS config * 2)), log)
          else if raise_for_status status_code then
            if attempt >? MAX_FETCH_RETRIES config then
              (Raise (NetworkException url false), log)
            else
              match from_utils_import_delay with
              | Ok delay =>
                  retry_loop rest (log ++ delay (RETRY_DELAY_MS config))
              | Raise e => (Raise e, log)
              end
          else (on_success text, log)
      | Timeout =>
          if attempt >? MAX_FETCH_RETRIES config then
            (Raise (NetworkException url true), log)
          else
            match from_utils_import_delay with
            | Ok delay =>
                retry_loop rest (log ++ delay (RETRY_DELAY_MS config))
            | Raise e => (Raise e, log)
            end
      | RequestException =>
          if attempt >? MAX_FETCH_RETRIES config then
            (Raise (NetworkException url false), log)
          else
            match from_utils_import_delay with
            | Ok delay =>
                retry_loop rest (log ++ delay (RETRY_DELAY_MS config))
            | Raise e => (Raise e, log)
            end
      end
  end.

End Loop.

Definition fetch_page_html (url : str) (page_number : Z)
  : result str * list event :=
  retry_loop url (page_number =? 1) (fun text => Ok text)
    (attempts (MAX_FETCH_RETRIES config)) [].

(** [response.json()]: the decoder is the [json] library's; a body it
    rejects becomes a [ScrapingException]. *)
Definition fetch_json_api {json : Type} (json_loads : str -> option json)
    (url : str) (page_number : Z) : result json * list event :=
  retry_loop url false
    (fun text =>
       match json_loads text with
       | Some json_data => Ok json_data
       | None => Raise (ScrapingException url None)
       end)
    (attempts (MAX_FETCH_RETRIES config)) [].

End Fetch.

End Fetcher.

(** ** core/parser.py

    A page is represented by what the selectors of the parser find
    in it. *)

Module Parser.
Import Str Re Float Utils Models.

(** An element, as the parser reads it: [get('aria-label')] and
    [get_text(strip=True)]. *)
Record element := {
  aria_label : option str;
  text : str
}.

(** A result page: the text of [span.sc-4c172e97-0.ioLdWh] when the
    page has one, and the listings [parse_search_results] extracts. *)
Record search_page := {
  total_results_elem : option str;
  search_results : list ScrapedProperty
}.

(** A detail page: whether it has a [div.sc-eb305aa9-35.jfAOAq], with
    the [href] of the satellite link inside it if there is one, and
    the elements the three energy-rating selectors find. *)
Record detail_page := {
  lat_lng_elem : option (option str);
  ber_callout : option element;
  ber_p : option element;
  ber_container_p : option element
}.

Definition coord_char (c : char) : bool :=
  is_digit c || (c =? dot)%N || (c =? hyphen)%N.

(** [q=loc: ( [\d.-]+ ) \+ ( [\d.-]+ )] *)
Definition loc_re : regex :=
  Seq (Lit (lit "q=loc:"))
 (Seq (Grp 1 (Plus coord_char))
 (Seq (Chr plus_sign) (Grp 2 (Plus coord_char)))).

(** [viewpoint= ( [\d.-]+ ) , ( [\d.-]+ )] *)
Definition viewpoint_re : regex :=
  Seq (Lit (lit "viewpoint="))
 (Seq (Grp 1 (Plus coord_char))
 (Seq (Chr comma) (Grp 2 (Plus coord_char)))).

(** [utils.extract_lat_lng], from the link's [href]. *)
Definition extract_lat_lng (href : option str)
  : result (option (pyfloat * pyfloat)) :=
  match href with
  | Some ((_ :: _) as href) =>
      let m := match search loc_re href with
               | Some m => Some m
               | None => search viewpoint_re href
               end in
      match m with
      | Some m =>
          except_ValueError_pass
            (let* g1 := group_text 1 m in
             let* lat := py_float g1 in
             let* g2 := group_text 2 m in
             let* lng := py_float g2 in
             Ok (Some (lat, lng)))
      | None => Ok None
      end
  | _ => Ok None
  end.

(** [ber_elem.get('aria-label') or ber_elem.get_text(strip=True)] *)
Definition ber_text (e : element) : str :=
  match aria_label e with
  | Some ((_ :: _) as a) => a
  | _ => text e
  end.

(** The loop over [ber_selectors]: the first element with a text
    decides. *)
Fixpoint first_ber (found : list (option element)) : option (option str) :=
  match found with
  | [] => None
  | Some e :: rest =>
      match ber_text e with
      | (_ :: _) as t => Some (format_ber (Some t))
      | [] => first_ber rest
      end
  | None :: rest => first_ber rest
  end.

Definition truthy (o : option str) : bool :=
  match o with
  | Some (_ :: _) => true
  | _ => false
  end.

Definition set_lat_lng (p : ScrapedProperty) (lat lng : pyfloat)
  : ScrapedProperty :=
  {| address := address p; url := url p; id := id p; tagline := tagline p;
     price_string := price_string p; parsed_price := parsed_price p;
     price_type := Models.price_type p; beds_string := beds_string p;
     parsed_beds := parsed_beds p; baths_string := baths_string p;
     property_type_string := property_type_string p; ber := ber p;
     latitude := Some lat; longitude := Some lng;
     image_url := image_url p; date_listed := date_listed p |}.

Definition set_ber (p : ScrapedProperty) (b : option str) : ScrapedProperty :=
  {| address := address p; url := url p; id := id p; tagline := tagline p;
     price_string := price_string p; parsed_price := parsed_price p;
     price_type := Models.price_type p; beds_string := beds_string p;
     parsed_beds := parsed_beds p; baths_string := baths_string p;
     property_type_string := property_type_string p; ber := b;
     latitude := latitude p; longitude := longitude p;
     image_url := image_url p; date_listed := date_listed p |}.

(** [parse_property_details]: the record passed in is updated in place
    and returned; here the updated record is the result. *)
Definition parse_property_details (html : detail_page)
    (property_data : ScrapedProperty) : result ScrapedProperty :=
  let* property_data :=
    match lat_lng_elem html with
    | Some href =>
        let* lat_lng := extract_lat_lng href in
        match lat_lng with
        | Some (lat, lng) => Ok (set_lat_lng property_data lat lng)
        | None => Ok property_data
        end
    | None => Ok property_data
    end in
  if truthy (ber property_data) then Ok property_data
  else
    match first_ber [ber_callout html; ber_p html; ber_container_p html] with
    | Some b => Ok (set_ber property_data b)
    | None => Ok property_data
    end.

(** The coordinates a detail page yields, if any. *)
Definition detail_coordinates (html : detail_page)
  : option (pyfloat * pyfloat) :=
  match lat_lng_elem html with
  | Some href =>
      match extract_lat_lng href with
      | Ok (Some lat_lng) => Some lat_lng
      | _ => None
      end
  | None => None
  end.

(** [of \s* ( [\d,]+ ) \s* total results], with [re.IGNORECASE] *)
Definition total_results_re : regex :=
  Seq (LitI (lit "of"))
 (Seq (Star is_space)
 (Seq (Grp 1 (Plus (fun c => is_digit c || (c =? comma)%N)))
 (Seq (Star is_space) (LitI (lit "total results"))))).

Definition get_total_pages (config : Config) (html : search_page) : result Z :=
  match total_results_elem html with
  | Some total_results_text =>
      match search total_results_re total_results_text with
      | Some m =>
          let* r := except_ValueError_pass
            (let* g1 := group_text 1 m in
             let* total_results := py_int (replace (lit ",") [] g1) in
             let calculated_pages := (total_results + 19) / 20 in
             let total_pages :=
               Z.min calculated_pages (MAX_PAGES_TO_FETCH config) in
             Ok (Some total_pages)) in
          match r with
          | Some total_pages => Ok total_pages
          | None => Ok 1
          end
      | None => Ok 1
      end
  | None => Ok 1
  end.

(** *** Result cards *)

(** A result card, as [_parse_property_element] reads it: the texts
    ([get_text(strip=True)]) and attributes its selectors find,
    [None] where a selector finds nothing. *)
Record card := {
  address_elem : option str;
  (** [select_one('a')], and its [href] *)
  main_link : option (option str);
  tagline_elem : option str;
  price_elem : option str;
  (** the [span]s of [div[data-tracking="srp_meta"]] *)
  meta_elem : option (list str);
  (** what the three selectors of [_extract_ber] find *)
  card_ber_callout : option element;
  card_ber_srp : option element;
  card_ber_p : option element;
  (** [div.sc-eb305aa9-35.jfAOAq], with the [href] of the satellite
      link inside it *)
  card_lat_lng_elem : option (option str);
  (** [img], with its [src] and [data-src] *)
  img_elem : option (option str * option str)
}.

Definition text_or_empty (e : option str) : str :=
  match e with
  | Some t => t
  | None => []
  end.

Definition property_types : list str :=
  List.map lit ["apartment"; "house"; "duplex"; "terrace"; "detached";
                "semi-detached"]%string.

(** The loop over the spans of the meta block: the three strings it
    leaves in [beds_string], [baths_string] and
    [property_type_string]. *)
Fixpoint meta_strings (spans : list str) (acc : str * str * str)
  : str * str * str :=
  match spans with
  | [] => acc
  | text :: rest =>
      let '(beds_string, baths_string, property_type_string) := acc in
      meta_strings rest
        (if contains (lit "Bed") text
         then (text, baths_string, property_type_string)
         else if contains (lit "Bath") text
         then (beds_string, text, property_type_string)
         else if existsb (fun ptype => contains ptype (lower text))
                   property_types
         then (beds_string, baths_string, text)
         else acc)
  end.

Definition _extract_ber (c : card) : option str :=
  match first_ber [card_ber_callout c; card_ber_srp c; card_ber_p c] with
  | Some ber => ber
  | None => None
  end.

Definition _extract_coordinates (c : card)
  : result (option (pyfloat * pyfloat)) :=
  match card_lat_lng_elem c with
  | Some href => extract_lat_lng href
  | None => Ok None
  end.

(** [img_elem.get('src') or img_elem.get('data-src')] *)
Definition _extract_image_url (c : card) : option str :=
  match img_elem c with
  | Some (src, data_src) =>
      match src with
      | Some (_ :: _) => src
      | _ => data_src
      end
  | None => None
  end.

(** The [try] block of [_parse_property_element]. *)
Definition parse_property_element (config : Config) (c : card)
  : result (option ScrapedProperty) :=
  let address := text_or_empty (address_elem c) in
  match main_link c with
  | Some (Some ((_ :: _) as relative_url)) =>
      let url := DAFT_BASE_URL config ++ relative_url in
      let url_parts := split slash (strip slash relative_url) in
      let property_id :=
        match url_parts with
        | [] => []
        | _ :: _ => List.last url_parts []
        end in
      let tagline := text_or_empty (tagline_elem c) in
      let price_string := text_or_empty (price_elem c) in
      let* parsed_price_result := parse_price (PyStr price_string) in
      let '(beds_string, baths_string, property_type_string) :=
        match meta_elem c with
        | Some spans => meta_strings spans ([], [], [])
        | None => ([], [], [])
        end in
      let* parsed_beds := parse_beds (PyStr beds_string) in
      let ber := _extract_ber c in
      let* lat_lng := _extract_coordinates c in
      let image_url := _extract_image_url c in
      Ok (Some {| address := address;
                  url := url;
                  id := property_id;
                  tagline := tagline;
                  price_string := price_string;
                  parsed_price := value parsed_price_result;
                  price_type := type parsed_price_result;
                  beds_string := beds_string;
                  parsed_beds := parsed_beds;
                  baths_string := baths_string;
                  property_type_string := property_type_string;
                  ber := ber;
                  latitude := match lat_lng with
                              | Some (lat, _) => Some lat
                              | None => None
                              end;
                  longitude := match lat_lng with
                               | Some (_, lng) => Some lng
                               | None => None
                               end;
                  image_url := image_url;
                  date_listed := None |})
  | _ => Ok None
  end.

(** [_parse_property_element]: whatever the block raises is logged
    and the card yields nothing. *)
Definition _parse_property_element (config : Config) (c : card)
  : option ScrapedProperty :=
  match parse_property_element config c with
  | Ok r => r
  | Raise _ => None
  end.

End Parser.

(** ** core/supabase_client.py

    The table is the external collaborator: [select_ids] is what
    [select("id")] answers, [upsert_execute k rows] what the [k]-th
    upsert of the run answers (the stored rows, or an exception). *)

Module SupabaseClient.
Import Models.

Record table := {
  select_ids : result (gset Z);
  upsert_execute : nat -> list PropertyListing -> result (list PropertyListing)
}.

Definition get_existing_property_ids (db : table) : result (gset Z) :=
  match select_ids db with
  | Ok ids => Ok ids
  | Raise _ => Raise DatabaseException
  end.

(** The loop that builds [data_list]: a row whose id is set, non-zero
    and already in [seen_ids] is skipped. *)
Fixpoint build_data_list (seen_ids : gset Z) (properties : list PropertyListing)
  : list PropertyListing :=
  match properties with
  | [] => []
  | prop :: rest =>
      match l_id prop with
      | Some i =>
          if negb (i =? 0) && bool_decide (i ∈ seen_ids)
          then build_data_list seen_ids rest
          else prop :: build_data_list
                         (if i =? 0 then seen_ids else {[ i ]} ∪ seen_ids)
                         rest
      | None => prop :: build_data_list seen_ids rest
      end
  end.

(** [upsert_properties_batch], as the [k]-th upsert of the run: the
    rows stored, and the rows sent to the table (none for an empty
    batch).  Whatever the table raises becomes a
    [DatabaseException]. *)
Definition upsert_properties_batch (db : table) (k : nat)
    (properties : list PropertyListing)
  : result (list PropertyListing) * list (list PropertyListing) :=
  match properties with
  | [] => (Ok [], [])
  | _ :: _ =>
      let data_list := build_data_list ∅ properties in
      match upsert_execute db k data_list with
      | Ok data => (Ok data, [data_list])
      | Raise _ => (Raise DatabaseException, [data_list])
      end
  end.

End SupabaseClient.

(** ** core/daft_scraper.py *)

(** [while]: [step] tests the loop condition and runs the body once;
    it answers with the next state, or with the value the function
    leaves the loop with.  [None] means the fuel ran out first. *)
Fixpoint while_loop {S R : Type} (fuel : nat) (step : S -> S + R) (s : S)
  : option R :=
  match fuel with
  | O => None
  | Datatypes.S fuel' =>
      match step s with
      | inl s' => while_loop fuel' step s'
      | inr r => Some r
      end
  end.

Module DaftScraper.
Import Str Float Utils Models Parser SupabaseClient.

(** The [__NEXT_DATA__] payload of a result page, as the scraper reads
    it: two keys of [props.pageProps.paging], and the listings
    [parse_next_data_search_results] makes of it. *)
Record next_data := {
  paging_totalResults : option Z;
  paging_totalPages : option Z;
  listings : list ScrapedProperty
}.

(** The upstream site, as the fetcher reports it to the scraper.
    - [result_page use_json_api n]: [fetch_page_html] on result page
      [n], in the pass with that flag; [Ok None] is an empty body.
    - [next_data_page n]: [fetch_search_results_json] on page [n],
      which answers [None] instead of raising.
    - [detail_json id slug]: [build_property_api_url], [fetch_json_api]
      and [parse_property_details_json] for one listing; [Ok None] is
      an empty payload or one the parser rejects.
    - [detail_html url]: [fetch_page_html] on a listing's own page. *)
Record site := {
  result_page : bool -> Z -> result (option search_page);
  next_data_page : Z -> option next_data;
  detail_json : str -> str -> result (option ScrapedProperty);
  detail_html : str -> result (option detail_page)
}.

Inductive message :=
| NoPropertiesFound
| NoNewProperties
| Uploaded (total_inserted : Z)
| Failed (e : exn).

Record summary := {
  success : bool;
  msg : message;
  count : Z
}.

Definition nonempty (s : str) : bool :=
  match s with
  | [] => false
  | _ :: _ => true
  end.

(** The path segments [_extract_property_info_from_url] works on:
    the URL without the base URL, trimmed of slashes and split. *)
Definition url_parts (config : Config) (url : str) : list str :=
  let relative_url :=
    if contains (DAFT_BASE_URL config) url
    then replace (DAFT_BASE_URL config) [] url
    else url in
  split slash (strip slash relative_url).

(** The [try] block of [_extract_property_info_from_url]. *)
Definition extract_property_info (config : Config) (url : pyval)
  : result (option str * option str) :=
  match url with
  | PyStr url =>
      let url_parts := url_parts config url in
      if (3 <=? length url_parts)%nat then
        let property_id := List.last url_parts [] in
        let address_slug := List.last (List.removelast url_parts) [] in
        if isdigit property_id
        then Ok (Some property_id, Some address_slug)
        else Ok (None, None)
      else Ok (None, None)
  | _ => Raise TypeError
  end.

Definition _extract_property_info_from_url (config : Config) (url : pyval)
  : option str * option str :=
  match extract_property_info config url with
  | Ok r => r
  | Raise _ => (None, None)
  end.

(** The cadence [transform_to_property_listing] reads off the raw
    price string. *)
Definition price_period_of (price_string : str) : option str :=
  match price_string with
  | [] => None
  | _ :: _ =>
      let price_lower := lower price_string in
      if contains (lit "week") price_lower || contains (lit "pw") price_lower
      then Some (lit "week")
      else if contains (lit "month") price_lower
              || contains (lit "pm") price_lower
      then Some (lit "month")
      else None
  end.

(** [int(scraped_prop.id) if scraped_prop.id and scraped_prop.id.isdigit()
     else None] *)
Definition listing_id (id : str) : result (option Z) :=
  if nonempty id && isdigit id
  then let* i := py_int id in Ok (Some i)
  else Ok None.

Definition transform_to_property_listing (scraped_prop : ScrapedProperty)
    (listing_type : listing_type) : result PropertyListing :=
  let price_period := price_period_of (price_string scraped_prop) in
  let* bathrooms := parse_bathrooms (PyStr (baths_string scraped_prop)) in
  let title :=
    if nonempty (tagline scraped_prop) then tagline scraped_prop
    else address scraped_prop in
  let* id := listing_id (id scraped_prop) in
  Ok {| l_id := id;
        l_url := url scraped_prop;
        l_title := title;
        l_listing_type := listing_type;
        l_price_eur := parsed_price scraped_prop;
        l_price_period := price_period;
        l_bedrooms := match parsed_beds scraped_prop with
                      | Some b => Some (Utils.min b)
                      | None => None
                      end;
        l_bathrooms := bathrooms;
        l_property_type := property_type_string scraped_prop;
        l_latitude := latitude scraped_prop;
        l_longitude := longitude scraped_prop;
        l_date_listed := date_listed scraped_prop;
        l_image_url := image_url scraped_prop;
        l_address_full := address scraped_prop |}.

(** The ids carried by a list of rows. *)
Definition ids_of (rows : list PropertyListing) : list Z :=
  flat_map (fun prop => match l_id prop with
                        | Some i => [i]
                        | None => []
                        end) rows.

(** Result pages [1..n], as the loop of a pass requests them. *)
Definition pages_upto (n : nat) : list Z :=
  List.map Z.of_nat (seq 1 n).

Section Run.
Variable config : Config.
Variable w : site.
Variable db : table.
Variable listing_type : Models.listing_type.

(** The detail lookup for one listing of a result page: the [try]
    block and its [except], which falls back on the listing as the
    search page gave it.  Every path appends exactly one record. *)
Definition fetch_details (use_json_api : bool) (prop : ScrapedProperty)
  : ScrapedProperty :=
  let attempt : result ScrapedProperty :=
    let* via_json :=
      if use_json_api then
        match _extract_property_info_from_url config (PyStr (url prop)) with
        | (Some ((_ :: _) as property_id), Some ((_ :: _) as address_slug)) =>
            detail_json w property_id address_slug
        | _ => Ok None
        end
      else Ok None in
    match via_json with
    | Some enhanced_property => Ok enhanced_property
    | None =>
        let* detail_html := detail_html w (url prop) in
        match detail_html with
        | Some page => parse_property_details page prop
        | None => Ok prop
        end
    end in
  match attempt with
  | Ok p => p
  | Raise _ => prop
  end.

(** *** scrape_all_pages *)

Record all_pages_state := {
  ap_current_page : Z;
  ap_total_pages : Z;
  ap_all_properties : list ScrapedProperty;
  ap_fetched : list (bool * Z)
}.

(** How the loop of [scrape_all_pages] is left: by its condition, or
    by the [return] that starts again without the JSON API. *)
Inductive all_pages_exit :=
| Finished (all_properties : list ScrapedProperty) (fetched : list (bool * Z))
| FallBack (fetched : list (bool * Z)).

Definition all_pages_step (use_json_api : bool) (s : all_pages_state)
  : all_pages_state + all_pages_exit :=
  let current_page := ap_current_page s in
  if current_page <=? ap_total_pages s then
    let fetched := ap_fetched s ++ [(use_json_api, current_page)] in
    let body : result all_pages_state :=
      let* html := result_page w use_json_api current_page in
      match html with
      | None =>
          Ok {| ap_current_page := current_page + 1;
                ap_total_pages := ap_total_pages s;
                ap_all_properties := ap_all_properties s;
                ap_fetched := fetched |}
      | Some html =>
          let* total_pages :=
            if current_page =? 1 then get_total_pages config html
            else Ok (ap_total_pages s) in
          let properties_on_page := search_results html in
          let detailed_properties :=
            List.map (fetch_details use_json_api)
              (List.filter (fun prop => nonempty (url prop))
                 properties_on_page) in
          Ok {| ap_current_page := current_page + 1;
                ap_total_pages := total_pages;
                ap_all_properties := ap_all_properties s ++ detailed_properties;
                ap_fetched := fetched |}
      end in
    match body with
    | Ok s' => inl s'
    | Raise _ =>
        if use_json_api && (current_page =? 1) then inr (FallBack fetched)
        else inl {| ap_current_page := current_page + 1;
                    ap_total_pages := ap_total_pages s;
                    ap_all_properties := ap_all_properties s;
                    ap_fetched := fetched |}
    end
  else inr (Finished (ap_all_properties s) (ap_fetched s)).

Definition all_pages_start (fetched : list (bool * Z)) : all_pages_state :=
  {| ap_current_page := 1; ap_total_pages := 1;
     ap_all_properties := []; ap_fetched := fetched |}.

(** [scrape_all_pages(base_url, listing_type)]: the listings, and the
    result pages asked of the fetcher, in order. *)
Definition scrape_all_pages (fuel : nat)
  : option (list ScrapedProperty * list (bool * Z)) :=
  match while_loop fuel (all_pages_step true) (all_pages_start []) with
  | Some (Finished all_properties fetched) => Some (all_properties, fetched)
  | Some (FallBack fetched) =>
      match while_loop fuel (all_pages_step false) (all_pages_start fetched) with
      | Some (Finished all_properties fetched) => Some (all_properties, fetched)
      | _ => None
      end
  | None => None
  end.

(** *** scrape_limited_pages *)

Record limited_state := {
  lp_current_page : Z;
  lp_total_pages : Z;
  lp_all_properties : list ScrapedProperty;
  lp_properties_scraped : Z;
  lp_fetched : list Z
}.

(** The loop over the listings of one page. *)
Fixpoint limited_details (max_properties : Z) (props : list ScrapedProperty)
    (detailed_properties : list ScrapedProperty) (properties_scraped : Z)
  : list ScrapedProperty * Z :=
  match props with
  | [] => (detailed_properties, properties_scraped)
  | prop :: rest =>
      if nonempty (url prop) && (properties_scraped <? max_properties)
      then limited_details max_properties rest
             (detailed_properties ++ [fetch_details true prop])
             (properties_scraped + 1)
      else limited_details max_properties rest
             detailed_properties properties_scraped
  end.

Definition limited_step (max_properties : Z) (s : limited_state)
  : limited_state + (list ScrapedProperty * list Z) :=
  let current_page := lp_current_page s in
  if (current_page <=? lp_total_pages s)
     && (lp_properties_scraped s <? max_properties) then
    let fetched := lp_fetched s ++ [current_page] in
    match next_data_page w current_page with
    | None =>
        inl {| lp_current_page := current_page + 1;
               lp_total_pages := lp_total_pages s;
               lp_all_properties := lp_all_properties s;
               lp_properties_scraped := lp_properties_scraped s;
               lp_fetched := fetched |}
    | Some next_data =>
        let total_pages :=
          if current_page =? 1 then
            let total_results :=
              match paging_totalResults next_data with
              | Some n => n
              | None => 0
              end in
            if total_results >? 0 then
              match paging_totalPages next_data with
              | Some n => n
              | None => 1
              end
            else 1
          else lp_total_pages s in
        let properties_on_page := listings next_data in
        let remaining_properties :=
          max_properties - lp_properties_scraped s in
        let properties_on_page :=
          if Z.of_nat (length properties_on_page) >? remaining_properties
          then firstn (Z.to_nat remaining_properties) properties_on_page
          else properties_on_page in
        let '(detailed_properties, properties_scraped) :=
          limited_details max_properties properties_on_page []
            (lp_properties_scraped s) in
        inl {| lp_current_page := current_page + 1;
               lp_total_pages := total_pages;
               lp_all_properties := lp_all_properties s ++ detailed_properties;
               lp_properties_scraped := properties_scraped;
               lp_fetched := fetched |}
    end
  else inr (lp_all_properties s, lp_fetched s).

(** The page count the first structured payload announces, as the
    loop reads it (1 when the payload is missing). *)
Definition upstream_total_pages : Z :=
  match next_data_page w 1 with
  | Some next_data =>
      let total_results :=
        match paging_totalResults next_data with
        | Some n => n
        | None => 0
        end in
      if total_results >? 0 then
        match paging_totalPages next_data with
        | Some n => n
        | None => 1
        end
      else 1
  | None => 1
  end.

(** [scrape_limited_pages(base_url, listing_type, max_properties)]:
    the listings, and the result pages asked of the fetcher. *)
Definition scrape_limited_pages (fuel : nat) (max_properties : Z)
  : option (list ScrapedProperty * list Z) :=
  while_loop fuel (limited_step max_properties)
    {| lp_current_page := 1; lp_total_pages := 1; lp_all_properties := [];
       lp_properties_scraped := 0; lp_fetched := [] |}.

(** *** The upload loop

    [scrape_and_upload] and [scrape_limited_and_upload] end with the
    same loop over [range(0, len(new_properties), batch_size)]. *)

Definition batch_size : nat := 100.

(** [range(0, n, batch_size)] *)
Definition batch_starts (n : nat) : list nat :=
  List.map (fun k => (k * batch_size)%nat)
    (seq 0 ((n + (batch_size - 1)) / batch_size)%nat).

(** [l[i:j]] for [0 <= i <= j] *)
Definition slice {A} (i j : nat) (l : list A) : list A :=
  firstn (j - i) (skipn i l).

Definition batches (new_properties : list PropertyListing)
  : list (list PropertyListing) :=
  List.map (fun i => slice i (i + batch_size) new_properties)
    (batch_starts (length new_properties)).

(** The loop: [k] numbers the upserts of the run, [sent] collects the
    rows handed to the table.  A batch whose upsert raises is passed
    over. *)
Fixpoint upload_loop (todo : list (list PropertyListing)) (k : nat)
    (total_inserted : Z) (sent : list (list PropertyListing))
  : Z * list (list PropertyListing) :=
  match todo with
  | [] => (total_inserted, sent)
  | batch :: rest =>
      match upsert_properties_batch db k batch with
      | (Ok result, rows) =>
          upload_loop rest (S k)
            (total_inserted + Z.of_nat (length result)) (sent ++ rows)
      | (Raise _, rows) =>
          upload_loop rest (S k) total_inserted (sent ++ rows)
      end
  end.

(** The rows the [k]-th upsert of the run stores for [batch]: none
    when it raises. *)
Definition stored (k : nat) (batch : list PropertyListing) : Z :=
  match upsert_execute db k (build_data_list ∅ batch) with
  | Ok data => Z.of_nat (length data)
  | Raise _ => 0
  end.

Fixpoint stored_total (k : nat) (todo : list (list PropertyListing)) : Z :=
  match todo with
  | [] => 0
  | batch :: rest => stored k batch + stored_total (S k) rest
  end.

Definition upload (new_properties : list PropertyListing)
  : summary * list (list PropertyListing) :=
  let '(total_inserted, sent) :=
    upload_loop (batches new_properties) 0 0 [] in
  ({| success := true; msg := Uploaded total_inserted;
      count := total_inserted |}, sent).

(** [prop.id not in existing_ids], for an id that may be [None]. *)
Definition id_in (i : option Z) (ids : gset Z) : bool :=
  match i with
  | Some i => bool_decide (i ∈ ids)
  | None => false
  end.

(** *** scrape_and_upload *)

(** The loop over [scraped_properties]: a listing whose transformation
    raises is left out. *)
Definition transform_all (scraped_properties : list ScrapedProperty)
  : list PropertyListing :=
  flat_map (fun scraped_prop =>
              match transform_to_property_listing scraped_prop listing_type with
              | Ok listing => [listing]
              | Raise _ => []
              end) scraped_properties.

Definition new_listings (existing_ids : gset Z)
    (property_listings : list PropertyListing) : list PropertyListing :=
  List.filter (fun prop => negb (id_in (l_id prop) existing_ids))
    property_listings.

(** The part of [scrape_and_upload] that follows the scrape. *)
Definition upload_scraped (scraped_properties : list ScrapedProperty)
  : summary * list (list PropertyListing) :=
  match scraped_properties with
  | [] => ({| success := false; msg := NoPropertiesFound; count := 0 |}, [])
  | _ :: _ =>
      let property_listings := transform_all scraped_properties in
      match get_existing_property_ids db with
      | Raise e => ({| success := false; msg := Failed e; count := 0 |}, [])
      | Ok existing_ids =>
          match new_listings existing_ids property_listings with
          | [] => ({| success := true; msg := NoNewProperties; count := 0 |}, [])
          | (_ :: _) as new_properties => upload new_properties
          end
      end
  end.

(** [scrape_and_upload(listing_type, location)]: the summary, and the
    rows handed to the table, batch by batch. *)
Definition scrape_and_upload (fuel : nat)
  : option (summary * list (list PropertyListing)) :=
  match scrape_all_pages fuel with
  | Some (scraped_properties, _) => Some (upload_scraped scraped_properties)
  | None => None
  end.

(** *** scrape_limited_and_upload *)

(** [prop.id in ids] with [prop.id] a [str] and [ids] a set of [int]:
    a string equals no integer, so the test never holds. *)
Definition str_in_ids (property_id : str) (ids : gset Z) : bool := false.

(** [if listing.id and listing.id not in existing_ids
        and listing.id not in processed_property_ids], with the two
    updates of its first branch. *)
Definition keep_if_new (existing_ids : gset Z)
    (acc : list PropertyListing * gset Z) (listing : PropertyListing)
  : list PropertyListing * gset Z :=
  let '(new_properties, processed_property_ids) := acc in
  match l_id listing with
  | Some i =>
      if negb (i =? 0)
         && negb (bool_decide (i ∈ existing_ids))
         && negb (bool_decide (i ∈ processed_property_ids))
      then (new_properties ++ [listing], {[ i ]} ∪ processed_property_ids)
      else acc
  | None => acc
  end.

(** The body of the loop over the listings of one page.  The [except]
    branch transforms the listing as the search page gave it. *)
Definition process_property (existing_ids : gset Z)
    (acc : list PropertyListing * gset Z) (prop : ScrapedProperty)
  : list PropertyListing * gset Z :=
  if nonempty (id prop) && str_in_ids (id prop) (snd acc) then acc
  else if nonempty (id prop) && str_in_ids (id prop) existing_ids then acc
  else
    let attempt : result (list PropertyListing * gset Z) :=
      let* via_json :=
        match _extract_property_info_from_url config (PyStr (url prop)) with
        | (Some ((_ :: _) as property_id), Some ((_ :: _) as address_slug)) =>
            detail_json w property_id address_slug
        | _ => Ok None
        end in
      match via_json with
      | Some enhanced_property =>
          let* listing :=
            transform_to_property_listing enhanced_property listing_type in
          Ok (keep_if_new existing_ids acc listing)
      | None =>
          let* detail_html := detail_html w (url prop) in
          match detail_html with
          | Some page =>
              let* enhanced_property := parse_property_details page prop in
              let* listing :=
                transform_to_property_listing enhanced_property listing_type in
              Ok (keep_if_new existing_ids acc listing)
          | None => Ok acc
          end
      end in
    match attempt with
    | Ok acc' => acc'
    | Raise _ =>
        match transform_to_property_listing prop listing_type with
        | Ok listing => keep_if_new existing_ids acc listing
        | Raise _ => acc
        end
    end.

Record limited_upload_state := {
  lu_current_page : Z;
  lu_new_properties : list PropertyListing;
  lu_processed_property_ids : gset Z;
  lu_fetched : list Z
}.

Definition limited_upload_step (existing_ids : gset Z) (max_pages : Z)
    (s : limited_upload_state)
  : limited_upload_state + (list PropertyListing * list Z) :=
  let current_page := lu_current_page s in
  if current_page <=? max_pages then
    let fetched := lu_fetched s ++ [current_page] in
    let properties_on_page :=
      match next_data_page w current_page with
      | None => []
      | Some next_data => listings next_data
      end in
    let '(new_properties, processed_property_ids) :=
      fold_left (process_property existing_ids) properties_on_page
        (lu_new_properties s, lu_processed_property_ids s) in
    inl {| lu_current_page := current_page + 1;
           lu_new_properties := new_properties;
           lu_processed_property_ids := processed_property_ids;
           lu_fetched := fetched |}
  else inr (lu_new_properties s, lu_fetched s).

(** [scrape_limited_and_upload(listing_type, location, max_pages)] *)
Definition scrape_limited_and_upload (fuel : nat) (max_pages : Z)
  : option (summary * list (list PropertyListing)) :=
  match get_existing_property_ids db with
  | Raise e => Some ({| success := false; msg := Failed e; count := 0 |}, [])
  | Ok existing_ids =>
      match while_loop fuel (limited_upload_step existing_ids max_pages)
              {| lu_current_page := 1; lu_new_properties := [];
                 lu_processed_property_ids := ∅; lu_fetched := [] |} with
      | Some (new_properties, _) =>
          Some match new_properties with
               | [] => ({| success := true; msg := NoNewProperties;
                           count := 0 |}, [])
               | _ :: _ => upload new_properties
               end
      | None => None
      end
  end.

End Run.

(** *** Loop invariants

    What holds of the state each time a page loop is entered, and of
    the value it is left with; the proofs below carry them through
    [while_loop]. *)

Section Invariants.
Variable config : Config.
Variable w : site.

(** The configured maximum, as it bounds a pass that always fetches
    page 1. *)
Definition page_cap : Z := Z.max 1 (MAX_PAGES_TO_FETCH config).

Definition upstream_cap : Z := Z.max 1 (upstream_total_pages w).

Definition all_pages_inv (use_json_api : bool) (before : list (bool * Z))
    (s : all_pages_state) : Prop :=
  exists n : nat,
    ap_current_page s = Z.of_nat (S n)
    /\ ap_fetched s = before ++ List.map (pair use_json_api) (pages_upto n)
    /\ (n = 0%nat -> ap_total_pages s = 1)
    /\ ((1 <= n)%nat -> Z.of_nat n <= page_cap /\ ap_total_pages s <= page_cap).

Definition all_pages_post (use_json_api : bool) (before : list (bool * Z))
    (r : all_pages_exit) : Prop :=
  match r with
  | Finished _ fetched =>
      exists n : nat,
        (1 <= n)%nat /\ Z.of_nat n <= page_cap
        /\ fetched = before ++ List.map (pair use_json_api) (pages_upto n)
  | FallBack fetched => use_json_api = true /\ fetched = before ++ [(true, 1)]
  end.

Definition limited_inv (s : limited_state) : Prop :=
  exists n : nat,
    lp_current_page s = Z.of_nat (S n)
    /\ lp_fetched s = pages_upto n
    /\ (n = 0%nat -> lp_total_pages s = 1)
    /\ ((1 <= n)%nat ->
        Z.of_nat n <= upstream_cap /\ lp_total_pages s <= upstream_cap).

Definition limited_post (r : list ScrapedProperty * list Z) : Prop :=
  exists n : nat, Z.of_nat n <= upstream_cap /\ snd r = pages_upto n.

(** New records all carry an id, non-zero and unknown, and no id
    twice. *)
Definition clean (existing_ids : gset Z)
    (new_properties : list PropertyListing) : Prop :=
  NoDup (ids_of new_properties)
  /\ (forall p, In p new_properties ->
        exists i, l_id p = Some i /\ i <> 0 /\ i ∉ existing_ids).

(** ... and the processed-id set holds the id of each. *)
Definition fresh (existing_ids : gset Z)
    (acc : list PropertyListing * gset Z) : Prop :=
  clean existing_ids (fst acc)
  /\ (forall i, In i (ids_of (fst acc)) -> i ∈ snd acc).

Definition limited_upload_inv (existing_ids : gset Z)
    (s : limited_upload_state) : Prop :=
  fresh existing_ids (lu_new_properties s, lu_processed_property_ids s).

End Invariants.
(** *** Search URLs, counts and the interactive run *)

Definition base_path (listing_type : listing_type) : str :=
  match listing_type with
  | rent => lit "/property-for-rent"
  | sale => lit "/property-for-sale"
  end.

Definition location_mapping (listing_type : listing_type)
  : list (str * str) :=
  match listing_type with
  | rent =>
      [(lit "dublin", lit "dublin-city");
       (lit "dublin-city", lit "dublin-city");
       (lit "cork", lit "cork-city");
       (lit "galway", lit "galway-city");
       (lit "limerick", lit "limerick-city");
       (lit "waterford", lit "waterford-city")]
  | sale =>
      [(lit "dublin", lit "dublin");
       (lit "dublin-city", lit "dublin");
       (lit "cork", lit "cork");
       (lit "galway", lit "galway");
       (lit "limerick", lit "limerick");
       (lit "waterford", lit "waterford")]
  end.

(** [d.get(key, default)] *)
Fixpoint dict_get (d : list (str * str)) (key default : str) : str :=
  match d with
  | [] => default
  | (k, v) :: rest => if str_eqb k key then v else dict_get rest key default
  end.

(** The slug both [build_search_url] and [get_property_count] look
    up. *)
Definition location_slug (listing_type : listing_type) (location : str)
  : str :=
  dict_get (location_mapping listing_type) (lower location)
    match listing_type with
    | sale => lit "dublin"
    | rent => lit "dublin-city"
    end.

Definition build_search_url (config : Config) (listing_type : listing_type)
    (location : str) : str :=
  let url_path := base_path listing_type ++ lit "/"
                  ++ location_slug listing_type location in
  DAFT_BASE_URL config ++ url_path.

(** [search_url.replace(config.DAFT_BASE_URL, '')], the path the
    limited runs hand to [fetch_search_results_json]. *)
Definition search_path (config : Config) (search_url : str) : str :=
  replace (DAFT_BASE_URL config) [] search_url.

(** *** get_property_count *)

(** The first [__NEXT_DATA__] payload of a search, as
    [get_property_count] reads it: three keys of
    [props.pageProps.paging], and the listings
    [parse_next_data_search_results] makes of it. *)
Record count_payload := {
  cp_totalResults : option Z;
  cp_pageSize : option Z;
  cp_totalPages : option Z;
  cp_listings : list ScrapedProperty
}.

Record count_result := {
  c_success : bool;
  c_count : Z;
  c_pages : option Z;
  c_properties_per_page : option Z
}.

Definition or_default (o : option Z) (default : Z) : Z :=
  match o with
  | Some n => n
  | None => default
  end.

(** [fetch search_path page] is [fetch_search_results_json]; [None]
    is a payload that is missing or empty. *)
Definition get_property_count (fetch : str -> Z -> option count_payload)
    (listing_type : listing_type) (location : str) : count_result :=
  let search_path :=
    base_path listing_type ++ lit "/"
    ++ location_slug listing_type location in
  match fetch search_path 1 with
  | None =>
      {| c_success := false; c_count := 0; c_pages := None;
         c_properties_per_page := None |}
  | Some next_data =>
      let properties := cp_listings next_data in
      let total_results := or_default (cp_totalResults next_data) 0 in
      if total_results >? 0 then
        {| c_success := true; c_count := total_results;
           c_pages := Some (or_default (cp_totalPages next_data) 1);
           c_properties_per_page :=
             Some (or_default (cp_pageSize next_data) 20) |}
      else
        {| c_success := true; c_count := Z.of_nat (length properties);
           c_pages := Some 1; c_properties_per_page := Some 20 |}
  end.

(** *** interactive_scrape *)

(** What [input()] meets: a line, or Ctrl-C; the end of the list is
    the end of the input. *)
Inductive key :=
| Line (text : str)
| CtrlC.

Definition underscore : char := 95%N.

(** [int(s)] on a string [str.strip] returned: an optional sign, then
    digits, where one underscore may stand between two digits. *)
Fixpoint int_digits (s : str) (acc : Z) : result Z :=
  match s with
  | [] => Ok acc
  | c :: rest =>
      if is_digit c then int_digits rest (10 * acc + digit_val c)
      else if (c =? underscore)%N then
        match rest with
        | d :: rest' =>
            if is_digit d then int_digits rest' (10 * acc + digit_val d)
            else Raise ValueError
        | [] => Raise ValueError
        end
      else Raise ValueError
  end.

Definition int_unsigned (s : str) : result Z :=
  match s with
  | c :: rest =>
      if is_digit c then int_digits rest (digit_val c) else Raise ValueError
  | [] => Raise ValueError
  end.

Definition int_of_text (s : str) : result Z :=
  match s with
  | c :: rest =>
      if (c =? hyphen)%N then let* n := int_unsigned rest in Ok (- n)
      else if (c =? plus_sign)%N then int_unsigned rest
      else int_unsigned s
  | [] => Raise ValueError
  end.

Inductive answer :=
| Chosen (max_pages : Z) (rest : list key)
| EndOfInput
| KeyboardInterrupt.

(** One of the two [while True] loops that ask for a page count. *)
Fixpoint ask_pages (pages : Z) (keys : list key) : answer :=
  match keys with
  | [] => EndOfInput
  | CtrlC :: _ => KeyboardInterrupt
  | Line text :: rest =>
      let page_input := strip_spaces text in
      if str_eqb (lower page_input) (lit "all") then Chosen pages rest
      else if str_eqb page_input (lit "0") then Chosen 0 rest
      else
        match int_of_text page_input with
        | Ok max_pages =>
            if (0 <=? max_pages) && (max_pages <=? pages)
            then Chosen max_pages rest
            else ask_pages pages rest
        | Raise _ => ask_pages pages rest
        end
  end.

Inductive interactive_message :=
| CountsFailed
| NoneSelected
| Cancelled
| Interrupted
| InputEnded
| Completed (total_inserted : Z).

Record interactive_result := {
  i_success : bool;
  i_message : interactive_message;
  i_details : list (listing_type * summary)
}.

Definition stopped (m : interactive_message)
  : interactive_result * list (listing_type * Z) :=
  ({| i_success := false; i_message := m; i_details := [] |}, []).

(** [interactive_scrape(location)]: the result, and the runs of
    [scrape_limited_and_upload] it starts, each with its
    [max_pages].  [run] is such a run for this location. *)
Definition interactive_scrape
    (fetch : str -> Z -> option count_payload)
    (run : listing_type -> Z -> summary)
    (location : str) (keys : list key)
  : interactive_result * list (listing_type * Z) :=
  let rent_count_result := get_property_count fetch rent location in
  let sale_count_result := get_property_count fetch sale location in
  if negb (c_success rent_count_result) || negb (c_success sale_count_result)
  then stopped CountsFailed
  else
    let rent_count := c_count rent_count_result in
    let sale_count := c_count sale_count_result in
    let sale_pages := (sale_count + 19) / 20 in
    let rent_pages := (rent_count + 19) / 20 in
    match ask_pages sale_pages keys with
    | EndOfInput => stopped InputEnded
    | KeyboardInterrupt => stopped Interrupted
    | Chosen max_sale_pages keys =>
        match ask_pages rent_pages keys with
        | EndOfInput => stopped InputEnded
        | KeyboardInterrupt => stopped Interrupted
        | Chosen max_rent_pages keys =>
            let total_pages_to_scrape := max_sale_pages + max_rent_pages in
            if total_pages_to_scrape =? 0 then stopped NoneSelected
            else
              match keys with
              | [] => stopped InputEnded
              | CtrlC :: _ => stopped Interrupted
              | Line text :: _ =>
                  let confirm := lower (strip_spaces text) in
                  if negb (existsb (str_eqb confirm) [lit "y"; lit "yes"])
                  then stopped Cancelled
                  else
                    let sale_runs :=
                      if max_sale_pages >? 0
                      then [(sale, max_sale_pages)] else [] in
                    let rent_runs :=
                      if max_rent_pages >? 0
                      then [(rent, max_rent_pages)] else [] in
                    let runs := sale_runs ++ rent_runs in
                    let results :=
                      List.map (fun '(listing_type, max_pages) =>
                                  (listing_type, run listing_type max_pages))
                        runs in
                    let total_inserted :=
                      fold_left (fun total r => total + count (snd r))
                        results 0 in
                    ({| i_success := true;
                        i_message := Completed total_inserted;
                        i_details := results |}, runs)
              end
        end
    end.

End DaftScraper.

(** ** Concrete runs

    Small worlds on which the functions are evaluated below. *)

Module Examples.
Import Str Float Utils Models Fetcher Parser SupabaseClient DaftScraper.

(** The defaults of config.py, but for the page maximum. *)
Definition config_with (max_pages : Z) : Config :=
  {| DAFT_BASE_URL := lit "https://www.daft.ie";
     MAX_PAGES_TO_FETCH := max_pages;
     MAX_FETCH_RETRIES := 2;
     RETRY_DELAY_MS := 2000 |}.

Definition default_config : Config := config_with 5.

(** The decimal numeral of [n]. *)
Definition numeral (n : nat) : str :=
  lit (NilEmpty.string_of_uint (Nat.to_uint n)).

(** A candidate as a search page gives it, with listing number [n]
    and the given raw price. *)
Definition candidate (n : nat) (price : str) (parsed : ParsedPriceResult)
  : ScrapedProperty :=
  {| address := lit "1 Main Street, Dublin 2";
     url := lit "https://www.daft.ie/for-rent/apartment-main-street/" ++ numeral n;
     id := numeral n;
     tagline := [];
     price_string := price;
     parsed_price := value parsed;
     price_type := type parsed;
     beds_string := lit "2 Bed";
     parsed_beds := Some {| min := 2; max := 2; is_studio := false |};
     baths_string := lit "1 Bath";
     property_type_string := lit "Apartment";
     ber := None;
     latitude := None;
     longitude := None;
     image_url := None;
     date_listed := None |}.

Definition monthly_2000 : ParsedPriceResult :=
  {| value := Some (Fin (inject_Z 2000)); type := numeric |}.

Definition listing (n : nat) : ScrapedProperty :=
  candidate n (euro :: lit "2,000 per month") monthly_2000.

(** The twenty listings of result page [page], numbered on from the
    page before. *)
Definition page_of_twenty (page : nat) : list ScrapedProperty :=
  List.map listing (seq ((page - 1) * 20 + 1) 20).

(** A weekly price of 1500 euro. *)
Definition weekly_1500 : ScrapedProperty :=
  candidate 7 (euro :: lit "1500 per week")
    {| value := Some (Fin (inject_Z 6500)); type := numeric |}.

(** A price too large for a [float]: 400 nines. *)
Definition huge_weekly_price : str :=
  euro :: repeat 57%N 400 ++ lit " per week".

(** A table that stores what it is sent and knows no id yet. *)
Definition empty_table : table :=
  {| select_ids := Ok ∅;
     upsert_execute := fun _ rows => Ok rows |}.

(** The same table, knowing the ids [ids]. *)
Definition table_knowing (ids : list Z) : table :=
  {| select_ids := Ok (list_to_set ids);
     upsert_execute := fun _ rows => Ok rows |}.

(** The same table, whose second upsert of the run raises. *)
Definition second_upsert_fails : table :=
  {| select_ids := Ok ∅;
     upsert_execute := fun k rows =>
       if Nat.eqb k 1 then Raise DatabaseException else Ok rows |}.

(** Six result pages of twenty listings, 120 in all; the listing at
    the head of page 1 has moved to the head of page 6 by the time
    that page is fetched.  No detail page adds anything. *)
Definition moved_listing_site : site :=
  {| result_page := fun _ page =>
       if (1 <=? page) && (page <=? 6) then
         Ok (Some {| total_results_elem :=
                       Some (lit "Showing 1 - 20 of 120 total results");
                     search_results :=
                       if page =? 6
                       then listing 1 :: List.tl (page_of_twenty 6)
                       else page_of_twenty (Z.to_nat page) |})
       else Ok None;
     next_data_page := fun _ => None;
     detail_json := fun _ _ => Ok None;
     detail_html := fun _ => Ok None |}.

(** An upstream that reports 1,000,000 results on 50,000 pages of
    twenty; the detail payload of a listing is the listing. *)
Definition million_results_site : site :=
  {| result_page := fun _ _ => Ok None;
     next_data_page := fun page =>
       Some {| paging_totalResults := Some 1000000;
               paging_totalPages := Some 50000;
               listings := page_of_twenty (Z.to_nat page) |};
     detail_json := fun property_id _ =>
       Ok (Some (candidate (Z.to_nat (digits_val property_id))
                   (euro :: lit "2,000 per month") monthly_2000));
     detail_html := fun _ => Ok None |}.

(** The six pages of [moved_listing_site] as structured payloads; the
    detail payload of a listing is the listing. *)
Definition moved_listing_payloads : site :=
  {| result_page := fun _ _ => Ok None;
     next_data_page := fun page =>
       if (1 <=? page) && (page <=? 6) then
         Some {| paging_totalResults := Some 120;
                 paging_totalPages := Some 6;
                 listings :=
                   if page =? 6
                   then listing 1 :: List.tl (page_of_twenty 6)
                   else page_of_twenty (Z.to_nat page) |}
       else None;
     detail_json := fun property_id _ =>
       Ok (Some (candidate (Z.to_nat (digits_val property_id))
                   (euro :: lit "2,000 per month") monthly_2000));
     detail_html := fun _ => Ok None |}.

(** A candidate that already has coordinates, and a detail page whose
    map link gives others. *)
Definition located_candidate : ScrapedProperty :=
  Parser.set_lat_lng (listing 7) (Fin (533 # 10)) (Fin (-62 # 10)).

Definition detail_with_map_link : detail_page :=
  {| lat_lng_elem :=
       Some (Some (lit "https://www.google.com/maps?q=loc:1.5+2.5"));
     ber_callout := None;
     ber_p := None;
     ber_container_p := None |}.

(** An endpoint that answers 403 once and then 200, and one that
    always answers 403 or 404. *)
Definition forbidden_once : Z -> outcome :=
  fun attempt =>
    if attempt =? 1 then Response 403 [] else Response 200 (lit "<html>").

Definition always (status_code : Z) : Z -> outcome :=
  fun _ => Response status_code [].

(** An endpoint that never answers in time, and one that serves a
    page. *)
Definition timing_out : Z -> outcome := fun _ => Timeout.

Definition serving : Z -> outcome := fun _ => Response 200 (lit "<html>").

(** The defaults of config.py, with no retry. *)
Definition no_retries : Config :=
  {| DAFT_BASE_URL := lit "https://www.daft.ie";
     MAX_PAGES_TO_FETCH := 5;
     MAX_FETCH_RETRIES := 0;
     RETRY_DELAY_MS := 2000 |}.

(** A result card for a two-bedroom apartment, and the same card with
    a price too large for a [float]. *)
Definition card_with (price : str) : card :=
  {| address_elem := Some (lit "1 Main Street, Dublin 2");
     main_link := Some (Some (lit "/for-rent/apartment-main-street/123"));
     tagline_elem := None;
     price_elem := Some price;
     meta_elem := Some [lit "2 Bed"; lit "1 Bath"; lit "Apartment"];
     card_ber_callout := None;
     card_ber_srp := None;
     card_ber_p := None;
     card_lat_lng_elem := None;
     img_elem := None |}.

Definition sample_card : card := card_with (euro :: lit "2,000 per month").

Definition huge_price_card : card := card_with huge_weekly_price.

(** Three rows, the third with the id of the first. *)
Definition repeated_rows : list PropertyListing :=
  flat_map (fun scraped_prop =>
              match transform_to_property_listing scraped_prop rent with
              | Ok row => [row]
              | Raise _ => []
              end)
    [listing 1; listing 2; listing 1].

(** A search that reports 45 results for sale and 100 for rent. *)
Definition counts : str -> Z -> option count_payload :=
  fun search_path _ =>
    Some {| cp_totalResults :=
              Some (if str_eqb search_path (lit "/property-for-sale/dublin")
                    then 45 else 100);
            cp_pageSize := Some 20;
            cp_totalPages := None;
            cp_listings := [] |}.

(** A session that asks for 7 sale pages, is asked again, takes 2,
    takes all rent pages and confirms. *)
Definition session : list key :=
  [Line (lit "7"); Line (lit " 2 "); Line (lit "ALL"); Line (lit "Yes")].

Definition nothing_new : listing_type -> Z -> summary :=
  fun _ _ => {| success := true; msg := NoNewProperties; count := 0 |}.

End Examples.

(** * Properties *)

(** ** Strings *)

Section StrFacts.
Import Str.

Lemma starts_with_app p post : starts_with p (p ++ post) = true.
Proof.
  induction p as [|a p IH]; cbn; [reflexivity|]. now rewrite N.eqb_refl.
Qed.

Lemma starts_with_inv p : forall s,
  starts_with p s = true -> exists post, s = p ++ post.
Proof.
  induction p as [|a p IH]; intros s H.
  - now exists s.
  - destruct s as [|b s]; cbn in H; [discriminate|].
    apply andb_true_iff in H as [Hab Hs].
    apply N.eqb_eq in Hab as ->.
    destruct (IH _ Hs) as [post ->]. now exists post.
Qed.

Lemma contains_app p pre post : contains p (pre ++ p ++ post) = true.
Proof.
  induction pre as [|c pre IH]; cbn [app].
  - destruct (p ++ post) eqn:E; cbn [contains];
      rewrite <- ?E, starts_with_app; reflexivity.
  - cbn [contains]. rewrite IH. apply orb_true_r.
Qed.

Lemma contains_inv p : forall s,
  contains p s = true -> exists pre post, s = pre ++ p ++ post.
Proof.
  induction s as [|c s IH]; cbn [contains]; intros H.
  - rewrite orb_false_r in H. destruct (starts_with_inv _ _ H) as [post ->].
    now exists [], post.
  - apply orb_true_iff in H as [H|H].
    + destruct (starts_with_inv _ _ H) as [post ->]. now exists [], post.
    + destruct (IH H) as (pre & post & ->). now exists (c :: pre), post.
Qed.

(** A pattern with a character the text lacks does not occur in it. *)
Lemma contains_missing_char c p s :
  In c p -> ~ In c s -> contains p s = false.
Proof.
  intros Hp Hs. destruct (contains p s) eqn:E; [|reflexivity].
  destruct (contains_inv _ _ E) as (pre & post & ->).
  exfalso. apply Hs. rewrite !in_app_iff. auto.
Qed.

Lemma not_in_lit c (w : str) :
  forallb (fun a => negb (N.eqb a c)) w = true -> ~ In c w.
Proof.
  intros H Hin. rewrite forallb_forall in H. specialize (H _ Hin).
  rewrite N.eqb_refl in H. discriminate.
Qed.

Lemma lower_app a b : lower (a ++ b) = lower a ++ lower b.
Proof. apply List.map_app. Qed.

Lemma digit_not_upper c : is_digit c = true -> is_upper c = false.
Proof. unfold is_digit, is_upper. char_cases. Qed.

Lemma digit_not_space c : is_digit c = true -> is_space c = false.
Proof. unfold is_digit, is_space. char_cases. Qed.

Lemma lower_digits s : forallb is_digit s = true -> lower s = s.
Proof.
  induction s as [|c s IH]; cbn; [reflexivity|].
  intros H. apply andb_true_iff in H as [Hc Hs].
  unfold lower_char. rewrite (digit_not_upper _ Hc). f_equal. now apply IH.
Qed.

Lemma digits_lack c s :
  is_digit c = false -> forallb is_digit s = true -> ~ In c s.
Proof.
  intros Hc Hs Hin. rewrite forallb_forall in Hs.
  specialize (Hs _ Hin). congruence.
Qed.

Lemma take_while_all p s : forallb p s = true -> take_while p s = s.
Proof.
  induction s as [|c s IH]; cbn; [reflexivity|].
  intros H. apply andb_true_iff in H as [-> Hs]. f_equal. now apply IH.
Qed.

Lemma drop_while_all p s : forallb p s = true -> drop_while p s = [].
Proof.
  induction s as [|c s IH]; cbn; [reflexivity|].
  intros H. apply andb_true_iff in H as [-> Hs]. now apply IH.
Qed.

Lemma replace_from_absent c s :
  ~ In c s -> replace_from [c] [] 0 s = s.
Proof.
  induction s as [|a s IH]; cbn [replace_from]; [reflexivity|].
  intros H. cbn [starts_with].
  destruct (N.eqb_spec c a) as [->|Hne].
  - exfalso. apply H. now left.
  - cbn. f_equal. apply IH. intros Hin. apply H. now right.
Qed.

Lemma replace_comma_digits s :
  forallb is_digit s = true -> replace (lit ",") [] s = s.
Proof.
  intros H. apply replace_from_absent. now apply digits_lack.
Qed.

Lemma digits_val_nonneg s : forallb is_digit s = true -> 0 <= digits_val s.
Proof.
  unfold digits_val.
  enough (forall acc, 0 <= acc -> forallb is_digit s = true ->
            0 <= fold_left (fun a c => 10 * a + digit_val c) s acc)
    by (now apply H).
  induction s as [|c s IH]; cbn; intros acc Hacc H; [assumption|].
  apply andb_true_iff in H as [Hc Hs]. apply IH; [|assumption].
  unfold is_digit in Hc. unfold digit_val. char_cases.
Qed.

Lemma py_int_digits s :
  s <> [] -> forallb is_digit s = true -> py_int s = Ok (digits_val s).
Proof.
  intros Hne Hs. unfold py_int, isdigit.
  destruct s; [congruence|]. now rewrite Hs.
Qed.

(** [int] raises nothing but [ValueError]. *)
Lemma py_int_cases s :
  (exists z, py_int s = Ok z) \/ py_int s = Raise ValueError.
Proof. unfold py_int. destruct (isdigit s); eauto. Qed.

Lemma last_two {A} (l : list A) d :
  (2 <= length l)%nat ->
  l = List.removelast (List.removelast l)
        ++ [List.last (List.removelast l) d; List.last l d].
Proof.
  intros H.
  assert (Hl : l <> []) by (destruct l; cbn in H; [lia|congruence]).
  rewrite (app_removelast_last d Hl) at 1.
  assert (Hr : List.removelast l <> []).
  { intros E. rewrite (app_removelast_last d Hl), E in H. cbn in H. lia. }
  rewrite (app_removelast_last d Hr) at 1.
  rewrite <- app_assoc. reflexivity.
Qed.

End StrFacts.

(** ** The matcher *)

Section ReFacts.
Import Str Re.

Lemma capture_app (a b : str) :
  firstn (length (a ++ b) - length b) (a ++ b) = a.
Proof.
  rewrite length_app.
  replace (length a + length b - length b)%nat with (length a) by lia.
  rewrite firstn_app, Nat.sub_diag, firstn_all. cbn. apply app_nil_r.
Qed.

Lemma stops_digits p ds rest :
  ds <> [] -> forallb is_digit ds = true ->
  (forall c, is_digit c = true -> p c = false) -> stops p (ds ++ rest).
Proof.
  intros Hne Hds Hp. destruct ds as [|d ds]; [congruence|]. cbn in *.
  apply andb_true_iff in Hds as [Hd _]. auto.
Qed.

Lemma search_here r s g : match_here r s = Some g -> search r s = Some g.
Proof. intros H. destruct s; cbn [search]; now rewrite H. Qed.

(** How a match goes through, construct by construct: each lemma
    reduces a match of the pattern to what its continuation answers
    on the rest of the input. *)
Section Intro.
Context {A : Type}.
Implicit Types (k : str -> groups -> option A) (g : groups) (s rest : str).

Lemma star_app p (k' : str -> option A) ds rest x :
  forallb p ds = true -> stops p rest -> k' rest = Some x ->
  star p k' (ds ++ rest) = Some x.
Proof.
  intros Hds Hrest Hk. induction ds as [|d ds IH]; cbn [app].
  - destruct rest as [|c rest]; cbn; [assumption|].
    cbn in Hrest. now rewrite Hrest.
  - cbn in Hds. apply andb_true_iff in Hds as [Hd Hds].
    cbn [star]. rewrite Hd, (IH Hds). reflexivity.
Qed.

Lemma run_Seq_intro r1 r2 s g k x :
  run r1 s g (fun s1 g1 => run r2 s1 g1 k) = Some x ->
  run (Seq r1 r2) s g k = Some x.
Proof. exact id. Qed.

Lemma run_Grp_intro n r s g k x :
  run r s g
    (fun s' g' => k s' ((n, firstn (length s - length s') s) :: g')) = Some x ->
  run (Grp n r) s g k = Some x.
Proof. exact id. Qed.

Lemma run_Star_app p ds rest g k x :
  forallb p ds = true -> stops p rest -> k rest g = Some x ->
  run (Star p) (ds ++ rest) g k = Some x.
Proof. intros. cbn [run]. now apply star_app. Qed.

Lemma run_Plus_app p ds rest g k x :
  ds <> [] -> forallb p ds = true -> stops p rest -> k rest g = Some x ->
  run (Plus p) (ds ++ rest) g k = Some x.
Proof.
  intros Hne Hds Hrest Hk. destruct ds as [|d ds]; [congruence|].
  cbn in Hds. apply andb_true_iff in Hds as [Hd Hds].
  cbn. rewrite Hd. now apply star_app.
Qed.

Lemma run_Grp_Plus_app n p ds rest g k x :
  ds <> [] -> forallb p ds = true -> stops p rest ->
  k rest ((n, ds) :: g) = Some x ->
  run (Grp n (Plus p)) (ds ++ rest) g k = Some x.
Proof.
  intros Hne Hds Hrest Hk. apply run_Grp_intro.
  apply (run_Plus_app p ds rest g); try assumption.
  now rewrite capture_app.
Qed.

Lemma run_Lit_app w rest g k x :
  k rest g = Some x -> run (Lit w) (w ++ rest) g k = Some x.
Proof.
  intros H. induction w as [|c w IH]; cbn; [assumption|].
  now rewrite N.eqb_refl.
Qed.

Lemma run_LitI_app w rest g k x :
  k rest g = Some x -> run (LitI w) (w ++ rest) g k = Some x.
Proof.
  intros H. induction w as [|c w IH]; cbn; [assumption|].
  now rewrite N.eqb_refl.
Qed.

Lemma run_Lit_mismatch w s g k :
  starts_with w s = false -> run (Lit w) s g k = None.
Proof.
  revert s. induction w as [|c w IH]; intros s H.
  { destruct s; cbn in H; discriminate. }
  destruct s as [|a s]; cbn; [reflexivity|]. cbn in H.
  destruct (N.eqb c a); [|reflexivity]. now apply IH.
Qed.

Lemma run_Chr_app c rest g k x :
  k rest g = Some x -> run (Chr c) (c :: rest) g k = Some x.
Proof. intros H. cbn. now rewrite N.eqb_refl. Qed.

Lemma run_Alt_l r1 r2 s g k x :
  run r1 s g k = Some x -> run (Alt r1 r2) s g k = Some x.
Proof. intros H. cbn [run]. now rewrite H. Qed.

Lemma run_Alt_r r1 r2 s g k x :
  run r1 s g k = None -> run r2 s g k = Some x ->
  run (Alt r1 r2) s g k = Some x.
Proof. intros H1 H2. cbn [run]. now rewrite H1. Qed.

Lemma run_Opt_take r s g k x :
  run r s g k = Some x -> run (Opt r) s g k = Some x.
Proof. intros H. cbn [run]. now rewrite H. Qed.

Lemma run_Opt_skip r s g k x :
  run r s g k = None -> k s g = Some x -> run (Opt r) s g k = Some x.
Proof. intros H1 H2. cbn [run]. now rewrite H1. Qed.

End Intro.

(** What any match leaves behind: the continuation was entered, with
    every group of [must r] bound and none lost. *)
Lemma star_inv {A} p (k : str -> option A) s x :
  star p k s = Some x -> exists s', k s' = Some x.
Proof.
  induction s as [|c s IH]; cbn [star]; intros H.
  - eauto.
  - destruct (p c); [|eauto].
    destruct (star p k s) eqn:E; [|eauto].
    inversion H; subst. now apply IH.
Qed.

Lemma run_inv {A} r : forall s g (k : str -> groups -> option A) x,
  run r s g k = Some x ->
  exists s' g', k s' g' = Some x
    /\ (forall n, In n (must r) -> bound n g')
    /\ (forall n, bound n g -> bound n g').
Proof.
  induction r as [|p|r1 IH1 r2 IH2|r1 IH1 r2 IH2|r1 IH1|p|n r1 IH1];
    intros s g k x H; cbn [run] in H; cbn [must].
  - exists s, g. repeat split; [assumption|intros ? []|auto].
  - destruct s as [|c s]; [discriminate|]. destruct (p c); [|discriminate].
    exists s, g. repeat split; [assumption|intros ? []|auto].
  - apply IH1 in H as (s1 & g1 & H & Hm1 & Hk1).
    apply IH2 in H as (s2 & g2 & H & Hm2 & Hk2).
    exists s2, g2. split; [assumption|]. split.
    + intros n Hn. apply in_app_iff in Hn as [Hn|Hn]; auto.
    + auto.
  - destruct (run r1 s g k) eqn:E.
    + inversion H; subst. apply IH1 in E as (s1 & g1 & E & _ & Hk1).
      exists s1, g1. repeat split; [assumption|intros ? []|auto].
    + apply IH2 in H as (s2 & g2 & H & _ & Hk2).
      exists s2, g2. repeat split; [assumption|intros ? []|auto].
  - destruct (run r1 s g k) eqn:E.
    + inversion H; subst. apply IH1 in E as (s1 & g1 & E & _ & Hk1).
      exists s1, g1. repeat split; [assumption|intros ? []|auto].
    + exists s, g. repeat split; [assumption|intros ? []|auto].
  - apply star_inv in H as [s' H].
    exists s', g. repeat split; [assumption|intros ? []|auto].
  - apply IH1 in H as (s1 & g1 & H & Hm1 & Hk1).
    eexists _, _. split; [exact H|]. split.
    + intros m [<-|Hm]; unfold bound; cbn [group].
      * now rewrite Nat.eqb_refl.
      * destruct (Nat.eqb n m); [discriminate|]. now apply Hm1.
    + intros m Hm. unfold bound. cbn [group].
      destruct (Nat.eqb n m); [discriminate|]. now apply Hk1.
Qed.

Lemma search_inv r : forall s m,
  search r s = Some m -> forall n, In n (must r) -> bound n m.
Proof.
  induction s as [|c s IH]; intros m H n Hn; cbn [search] in H.
  - unfold match_here in H. destruct (run r [] [] _) eqn:E; [|discriminate].
    inversion H; subst.
    apply run_inv in E as (s' & g' & E & Hm & _). inversion E; subst. auto.
  - unfold match_here in H. destruct (run r (c :: s) [] _) eqn:E.
    + inversion H; subst.
      apply run_inv in E as (s' & g' & E & Hm & _). inversion E; subst. auto.
    + eauto.
Qed.

Lemma group_text_bound n m : bound n m -> exists t, group_text n m = Ok t.
Proof.
  unfold bound, group_text. destruct (group n m); [eauto|congruence].
Qed.

End ReFacts.

(** ** Floats *)

Section FloatFacts.
Import Str Float.

Lemma threshold_pos : 0 < overflow_threshold.
Proof. reflexivity. Qed.

Lemma threshold_large : 2 ^ 53 < overflow_threshold.
Proof. reflexivity. Qed.

#[local] Opaque overflow_threshold.

Lemma overflows_small q :
  Z.abs (Qnum q) < overflow_threshold * Z.pos (Qden q) -> overflows q = false.
Proof.
  intros H. unfold overflows, Qle_bool. destruct q as [n d].
  cbn [Qabs Qnum Qden inject_Z] in *.
  destruct (Z.leb_spec (overflow_threshold * Z.pos d) (Z.abs n * 1));
    [lia|reflexivity].
Qed.

(** [round] answers with an integer nearest to its argument. *)
Lemma round_half_even_near n d :
  2 * Z.abs (Z.pos d * round_half_even (n # d) - n) <= Z.pos d.
Proof.
  unfold round_half_even. cbn [Qnum Qden].
  pose proof (Z.div_mod n (Z.pos d) ltac:(lia)) as Hdm.
  pose proof (Z.mod_pos_bound n (Z.pos d) ltac:(lia)) as Hb.
  destruct (Z.compare_spec (2 * (n mod Z.pos d)) (Z.pos d)).
  - destruct (Z.even (n / Z.pos d)); nia.
  - nia.
  - nia.
Qed.

Lemma round_half_even_bounds n d :
  0 <= n -> 0 <= round_half_even (n # d) <= n.
Proof.
  intros Hn. unfold round_half_even. cbn [Qnum Qden].
  pose proof (Z.div_mod n (Z.pos d) ltac:(lia)) as Hdm.
  pose proof (Z.mod_pos_bound n (Z.pos d) ltac:(lia)) as Hb.
  assert (0 <= n / Z.pos d) by (apply Z.div_pos; lia).
  assert (n / Z.pos d <= n) by (apply Z.div_le_upper_bound; nia).
  destruct (Z.compare_spec (2 * (n mod Z.pos d)) (Z.pos d));
    try destruct (Z.even (n / Z.pos d)); nia.
Qed.

Lemma round_half_even_int z : round_half_even (z # 1) = z.
Proof.
  unfold round_half_even. cbn [Qnum Qden].
  rewrite Z.div_1_r, Z.mod_1_r. reflexivity.
Qed.

(** The same nearness, in the rationals. *)
Lemma round_half_even_near_Q q :
  (Qabs (inject_Z (round_half_even q) - q) <= 1 # 2)%Q.
Proof.
  destruct q as [n d]. pose proof (round_half_even_near n d) as H.
  apply Qabs_Qle_condition. unfold Qle, Qminus, Qplus, Qopp, inject_Z.
  cbn [Qnum Qden]. split; lia.
Qed.

Lemma pow2_nonneg e : 0 <= e -> pow2 e = inject_Z (2 ^ e).
Proof.
  intros H. unfold pow2. now rewrite (proj2 (Z.leb_le 0 e)).
Qed.

Lemma pow2_neg e : e < 0 -> pow2 e = 1 # Z.to_pos (2 ^ (- e)).
Proof.
  intros H. unfold pow2. now rewrite (proj2 (Z.leb_gt 0 e)).
Qed.

Lemma pow2_inv e : e <= 0 -> (pow2 e == 1 # Z.to_pos (2 ^ (- e)))%Q.
Proof.
  intros H. destruct (Z.eq_dec e 0) as [->|]; [reflexivity|].
  now rewrite pow2_neg by lia.
Qed.

(** A magnitude below [2^k] has its last place at [2^(k - 53)] or
    below, down to the subnormal one. *)
Lemma ulp_exponent_le n d k :
  0 <= k -> Z.abs n < 2 ^ k * Z.pos d ->
  -1074 <= ulp_exponent (n # d) <= Z.max (k - 53) (-1074).
Proof.
  intros Hk Hn. unfold ulp_exponent. cbv zeta. cbn [Qnum Qden].
  set (l0 := Z.log2 (Z.abs n) - Z.log2 (Z.pos d)).
  set (l := if Qle_bool (pow2 l0) (Qabs (n # d)) then l0 else l0 - 1).
  assert (Hl : l <= k - 1); [subst l|lia].
  pose proof (Z.log2_nonneg (Z.abs n)) as Ha.
  pose proof (Z.log2_nonneg (Z.pos d)) as Hb.
  destruct (Z.log2_spec (Z.pos d) ltac:(lia)) as [Hd1 Hd2].
  assert (Hl0 : l0 <= k).
  { destruct (Z.eq_dec n 0) as [->|Hn0];
      [subst l0; change (Z.log2 (Z.abs 0)) with 0; lia|].
    destruct (Z.log2_spec (Z.abs n) ltac:(lia)) as [Hn1 _].
    assert (Hlt : 2 ^ Z.log2 (Z.abs n) < 2 ^ (k + Z.succ (Z.log2 (Z.pos d)))).
    { rewrite Z.pow_add_r by lia.
      pose proof (Z.pow_pos_nonneg 2 k ltac:(lia) Hk). nia. }
    apply Z.pow_lt_mono_r_iff in Hlt; lia. }
  destruct (Qle_bool (pow2 l0) (Qabs (n # d))) eqn:E; [|lia].
  destruct (Z.eq_dec l0 k) as [El|]; [|lia].
  rewrite El, pow2_nonneg in E by assumption.
  unfold Qle_bool in E. cbn [Qabs Qnum Qden inject_Z] in E.
  apply Z.leb_le in E. lia.
Qed.

(** An integer of at most 53 bits is a binary64. *)
Lemma nearest_binary64_int z :
  Z.abs z < 2 ^ 53 -> (nearest_binary64 (inject_Z z) == inject_Z z)%Q.
Proof.
  intros Hz. unfold nearest_binary64, inject_Z.
  pose proof (ulp_exponent_le z 1 53 ltac:(lia) ltac:(lia)) as He.
  set (e := ulp_exponent (z # 1)) in *.
  rewrite Qred_correct, (pow2_nonneg (- e)) by lia.
  pose proof (Z.pow_pos_nonneg 2 (- e) ltac:(lia) ltac:(lia)) as HK.
  set (K := 2 ^ (- e)) in *.
  change ((z # 1) * inject_Z K)%Q with (z * K # 1).
  rewrite round_half_even_int.
  rewrite (pow2_inv e) by lia. fold K.
  unfold Qeq, Qmult. cbn [Qnum Qden].
  rewrite Pos2Z.inj_mul, Z2Pos.id by assumption. lia.
Qed.

(** Below [2^51] a binary64 is within an eighth. *)
Lemma nearest_binary64_near n d :
  Z.abs n < 2 ^ 51 * Z.pos d ->
  (Qabs (nearest_binary64 (n # d) - (n # d)) <= 1 # 8)%Q.
Proof.
  intros Hn. unfold nearest_binary64.
  pose proof (ulp_exponent_le n d 51 ltac:(lia) Hn) as He.
  set (e := ulp_exponent (n # d)) in *.
  rewrite Qred_correct, (pow2_nonneg (- e)), (pow2_neg e) by lia.
  assert (HK : 4 <= 2 ^ (- e)).
  { change 4 with (2 ^ 2). apply Z.pow_le_mono_r; lia. }
  set (K := 2 ^ (- e)) in *.
  change ((n # d) * inject_Z K)%Q with (n * K # d * 1).
  rewrite Pos.mul_1_r.
  pose proof (round_half_even_near (n * K) d) as Hr.
  set (m := round_half_even (n * K # d)) in *.
  apply Qabs_Qle_condition.
  unfold Qle, Qminus, Qplus, Qopp, Qmult, inject_Z. cbn [Qnum Qden].
  rewrite !Pos2Z.inj_mul, !Z2Pos.id by lia.
  split; nia.
Qed.

Lemma of_Q_exact q :
  overflows q = false -> (nearest_binary64 q == q)%Q -> of_Q q = Fin q.
Proof.
  intros Ho He. unfold of_Q. rewrite Ho.
  now rewrite (proj2 (Qeq_bool_iff _ _) He).
Qed.

Lemma of_Q_int z : Z.abs z < 2 ^ 53 -> of_Q (inject_Z z) = Fin (inject_Z z).
Proof.
  intros Hz. pose proof threshold_large.
  apply of_Q_exact; [|now apply nearest_binary64_int].
  apply overflows_small. cbn. lia.
Qed.

Lemma of_Q_near n d :
  Z.abs n < 2 ^ 51 * Z.pos d ->
  exists r, of_Q (n # d) = Fin r /\ (Qabs (r - (n # d)) <= 1 # 8)%Q.
Proof.
  intros Hn. pose proof threshold_large.
  unfold of_Q. rewrite overflows_small by (cbn [Qnum Qden]; nia).
  destruct (Qeq_bool _ _) eqn:E; eexists; (split; [reflexivity|]).
  - apply Qabs_Qle_condition.
    unfold Qle, Qminus, Qplus, Qopp. cbn [Qnum Qden]. split; nia.
  - now apply nearest_binary64_near.
Qed.

(** Within an eighth of a number of thirds, [round] finds the integer
    nearest to that number. *)
Lemma round_half_even_thirds r j :
  (Qabs (r - (j # 3)) <= 1 # 8)%Q ->
  round_half_even r = round_half_even (j # 3).
Proof.
  intros Hr.
  pose proof (round_half_even_near_Q r) as H1.
  pose proof (round_half_even_near j 3) as H2.
  set (m := round_half_even (j # 3)) in *.
  set (m' := round_half_even r) in *.
  apply Qabs_Qle_condition in Hr as [Hr1 Hr2].
  apply Qabs_Qle_condition in H1 as [H11 H12].
  assert (Ha : (- (5 # 8) <= inject_Z m' - (j # 3))%Q) by lra.
  assert (Hb : (inject_Z m' - (j # 3) <= 5 # 8)%Q) by lra.
  unfold Qle, Qminus, Qplus, Qopp, inject_Z in Ha, Hb.
  cbn [Qnum Qden] in Ha, Hb. lia.
Qed.

Lemma parse_unsigned_digits X :
  X <> [] -> forallb is_digit X = true ->
  parse_unsigned X = Ok (inject_Z (digits_val X)).
Proof.
  intros HX HdX. unfold parse_unsigned.
  rewrite take_while_all, drop_while_all by assumption.
  destruct X; [congruence|reflexivity].
Qed.

Lemma py_float_digits X :
  X <> [] -> forallb is_digit X = true ->
  py_float X = Ok (of_Q (inject_Z (digits_val X))).
Proof.
  intros HX HdX. unfold py_float.
  rewrite (parse_unsigned_digits X) by assumption.
  destruct X as [|c X]; [congruence|]. cbn in HdX.
  apply andb_true_iff in HdX as [Hc _].
  assert (Hh : (c =? hyphen)%N = false)
    by (unfold is_digit, hyphen in *; char_cases).
  assert (Hp : (c =? plus_sign)%N = false)
    by (unfold is_digit, plus_sign in *; char_cases).
  rewrite Hh, Hp. reflexivity.
Qed.

(** [float] raises nothing but [ValueError]. *)
Lemma parse_unsigned_cases s :
  (exists q, parse_unsigned s = Ok q) \/ parse_unsigned s = Raise ValueError.
Proof.
  unfold parse_unsigned. destruct (drop_while is_digit s) as [|c fp].
  - destruct (take_while is_digit s); eauto.
  - destruct (_ && _ && _); eauto.
Qed.

Lemma py_float_cases s :
  (exists f, py_float s = Ok f) \/ py_float s = Raise ValueError.
Proof.
  unfold py_float. destruct s as [|c t]; [eauto|].
  destruct (c =? hyphen)%N; [|destruct (c =? plus_sign)%N].
  - destruct (parse_unsigned_cases t) as [[q ->]| ->]; cbn; eauto.
  - destruct (parse_unsigned_cases t) as [[q ->]| ->]; cbn; eauto.
  - destruct (parse_unsigned_cases (c :: t)) as [[q ->]| ->]; cbn; eauto.
Qed.

(** The monthly equivalent of a weekly amount, as [parse_price]
    computes it in binary64, for amounts whose product with 52 fits
    53 bits. *)
Lemma weekly_amount_float x :
  0 <= x -> 52 * x < 2 ^ 53 ->
  exists r,
    div_pos (mul_pos (of_Q (inject_Z x)) 52) 12 = Fin r
    /\ round_half_even r
       = round_half_even (inject_Z x * inject_Z 52 / inject_Z 12)
    /\ of_Z (round_half_even r) = Fin (inject_Z (round_half_even r)).
Proof.
  intros H0 Hx.
  rewrite (of_Q_int x) by lia. cbn [mul_pos].
  change (inject_Z x * inject_Z 52)%Q with (inject_Z (x * 52)).
  rewrite (of_Q_int (x * 52)) by lia. cbn [div_pos].
  change (inject_Z (x * 52) / inject_Z 12)%Q with (x * 52 * 1 # 12).
  change (inject_Z x * inject_Z 52 / inject_Z 12)%Q with (x * 52 * 1 # 12).
  destruct (of_Q_near (x * 52 * 1) 12 ltac:(lia)) as (r & -> & Hr).
  exists r. split; [reflexivity|].
  assert (Hthirds : round_half_even r = round_half_even (x * 52 * 1 # 12)).
  { assert (E : (x * 52 * 1 # 12 == 13 * x # 3)%Q)
      by (unfold Qeq; cbn [Qnum Qden]; lia).
    assert (E' : round_half_even (x * 52 * 1 # 12)
                 = round_half_even (13 * x # 3)).
    { pose proof (round_half_even_near (x * 52 * 1) 12) as A.
      pose proof (round_half_even_near (13 * x) 3) as B. lia. }
    rewrite E'. apply round_half_even_thirds. now rewrite <- E. }
  split; [exact Hthirds|].
  rewrite Hthirds. unfold of_Z. apply of_Q_int.
  pose proof (round_half_even_bounds (x * 52 * 1) 12 ltac:(lia)). lia.
Qed.

Lemma weekly_amount x :
  0 <= x -> 52 * x < 2 ^ 53 ->
  (let* r := round (div_pos (mul_pos (of_Q (inject_Z x)) 52) 12) in
   Ok (Some {| Utils.value := Some (of_Z r); Utils.type := Utils.numeric |})) =
  Ok (Some {| Utils.value :=
                Some (Fin (inject_Z
                  (round_half_even (inject_Z x * inject_Z 52 / inject_Z 12))));
              Utils.type := Utils.numeric |}).
Proof.
  intros H0 Hx.
  destruct (weekly_amount_float x H0 Hx) as (r & -> & Hr & Hz).
  cbn [round bind]. rewrite Hz, Hr. reflexivity.
Qed.

End FloatFacts.

(** ** core/utils.py: the field normalizers *)

Section UtilsFacts.
Import Str Re Float Utils.

(** The range pattern on ["N to M bed"] and on ["N-M bed"]. *)
Lemma beds_range_to N M :
  N <> [] -> M <> [] ->
  forallb is_digit N = true -> forallb is_digit M = true ->
  search beds_range_re
    (N ++ lit " " ++ lit "to" ++ lit " " ++ M ++ lit " " ++ lit "bed")
  = Some [(2%nat, M); (1%nat, N)].
Proof.
  intros HN HM HdN HdM. apply search_here. unfold match_here, beds_range_re.
  apply run_Seq_intro, run_Grp_Plus_app; [assumption..|reflexivity|].
  apply run_Seq_intro, run_Star_app; [reflexivity..|].
  apply run_Seq_intro, run_Alt_l, run_Lit_app.
  apply run_Seq_intro, run_Star_app;
    [reflexivity|apply stops_digits; auto using digit_not_space|].
  apply run_Seq_intro, run_Grp_Plus_app; [assumption..|reflexivity|].
  apply run_Seq_intro, run_Star_app; [reflexivity..|].
  rewrite <- (app_nil_r (lit "bed")). now apply run_Lit_app.
Qed.

Lemma beds_range_hyphen N M :
  N <> [] -> M <> [] ->
  forallb is_digit N = true -> forallb is_digit M = true ->
  search beds_range_re (N ++ hyphen :: M ++ lit " " ++ lit "bed")
  = Some [(2%nat, M); (1%nat, N)].
Proof.
  intros HN HM HdN HdM. apply search_here. unfold match_here, beds_range_re.
  apply run_Seq_intro, run_Grp_Plus_app; [assumption..|reflexivity|].
  apply run_Seq_intro, (run_Star_app _ []); [reflexivity..|].
  apply run_Seq_intro, run_Alt_r; [now apply run_Lit_mismatch|].
  apply run_Chr_app.
  apply run_Seq_intro, (run_Star_app _ []);
    [reflexivity|apply stops_digits; auto using digit_not_space|].
  apply run_Seq_intro, run_Grp_Plus_app; [assumption..|reflexivity|].
  apply run_Seq_intro, run_Star_app; [reflexivity..|].
  rewrite <- (app_nil_r (lit "bed")). now apply run_Lit_app.
Qed.

(** No letter [s] in a string made of two numerals and the given
    words, hence no ["studio"]. *)
Lemma no_studio N (sep : str) M :
  forallb is_digit N = true -> forallb is_digit M = true ->
  forallb (fun a => negb (N.eqb a 115)) sep = true ->
  contains (lit "studio") (N ++ sep ++ M ++ lit " " ++ lit "bed") = false.
Proof.
  intros HdN HdM Hsep. apply (contains_missing_char 115%N).
  - cbn. tauto.
  - rewrite !in_app_iff. intros [H|[H|[H|[H|H]]]].
    + revert H. now apply digits_lack.
    + revert H. now apply not_in_lit.
    + revert H. now apply digits_lack.
    + revert H. now apply not_in_lit.
    + revert H. now apply not_in_lit.
Qed.

Lemma parse_beds_range N (sep : str) M :
  N <> [] -> M <> [] ->
  forallb is_digit N = true -> forallb is_digit M = true ->
  forallb (fun a => negb (N.eqb a 115)) (lower sep) = true ->
  search beds_range_re (N ++ lower sep ++ M ++ lit " " ++ lit "bed")
  = Some [(2%nat, M); (1%nat, N)] ->
  parse_beds (PyStr (N ++ sep ++ M ++ lit " Bed")) =
  Ok (Some {| min := Z.min (digits_val N) (digits_val M);
              max := Z.max (digits_val N) (digits_val M);
              is_studio := false |}).
Proof.
  intros HN HM HdN HdM Hsep Hsearch. unfold parse_beds.
  destruct (N ++ sep ++ M ++ lit " Bed") as [|c0 s0] eqn:Es.
  { destruct N; [congruence|discriminate]. }
  rewrite <- Es.
  assert (El : lower (N ++ sep ++ M ++ lit " Bed")
               = N ++ lower sep ++ M ++ lit " " ++ lit "bed").
  { rewrite !lower_app, (lower_digits N), (lower_digits M) by assumption.
    reflexivity. }
  rewrite El, no_studio, Hsearch by assumption.
  cbn [group_text group Nat.eqb bind].
  rewrite !py_int_digits by assumption. reflexivity.
Qed.

Lemma parse_beds_studio pre mid post :
  lower mid = lit "studio" ->
  parse_beds (PyStr (pre ++ mid ++ post)) =
  Ok (Some {| min := 1; max := 1; is_studio := true |}).
Proof.
  intros Hmid. unfold parse_beds.
  destruct (pre ++ mid ++ post) as [|c s] eqn:E.
  { apply app_eq_nil in E as [_ E]. apply app_eq_nil in E as [-> _].
    discriminate. }
  rewrite <- E, !lower_app, Hmid, contains_app. reflexivity.
Qed.

(** The bedroom and bathroom normalizers never raise: the group they
    convert is always bound, and [int] raises [ValueError] only. *)
Lemma parse_bathrooms_total v : exists r, parse_bathrooms v = Ok r.
Proof.
  destruct v as [|[|c s]| |]; cbn [parse_bathrooms]; eauto.
  destruct (search bath_re _) as [m|] eqn:E; [|cbn; eauto].
  destruct (group_text_bound 1 m) as [t Ht].
  { eapply search_inv; [exact E|]. cbn. auto. }
  rewrite Ht. cbn [bind].
  destruct (py_int_cases t) as [[z ->]| ->]; cbn; eauto.
Qed.

Lemma parse_beds_total v : exists r, parse_beds v = Ok r.
Proof.
  destruct v as [|[|c s]| |]; cbn [parse_beds]; eauto.
  destruct (contains _ _); [eauto|].
  assert (H1 : exists r1,
    except_ValueError_pass
      match search beds_range_re (lower (c :: s)) with
      | Some range_match =>
          let* g1 := group_text 1 range_match in
          let* min_beds := py_int g1 in
          let* g2 := group_text 2 range_match in
          let* max_beds := py_int g2 in
          Ok (Some {| min := Z.min min_beds max_beds;
                      max := Z.max min_beds max_beds;
                      is_studio := false |})
      | None => Ok None
      end = Ok r1).
  { destruct (search beds_range_re _) as [m|] eqn:E; [|cbn; eauto].
    destruct (group_text_bound 1 m) as [t1 Ht1].
    { eapply search_inv; [exact E|]. cbn. auto. }
    destruct (group_text_bound 2 m) as [t2 Ht2].
    { eapply search_inv; [exact E|]. cbn. auto. }
    rewrite Ht1. cbn [bind].
    destruct (py_int_cases t1) as [[z1 ->]| ->]; cbn [bind]; [|cbn; eauto].
    rewrite Ht2. cbn [bind].
    destruct (py_int_cases t2) as [[z2 ->]| ->]; cbn; eauto. }
  destruct H1 as [r1 ->]. cbn [bind].
  destruct r1 as [r|]; [eauto|].
  destruct (search beds_single_re _) as [m|] eqn:E; [|cbn; eauto].
  destruct (group_text_bound 1 m) as [t Ht].
  { eapply search_inv; [exact E|]. cbn. auto. }
  rewrite Ht. cbn [bind].
  destruct (py_int_cases t) as [[z ->]| ->]; cbn; eauto.
Qed.

(** The price pattern on ["€X per week"]. *)
Lemma price_re_weekly X :
  X <> [] -> forallb is_digit X = true ->
  search price_re (euro :: X ++ lit " " ++ lit "per" ++ lit " " ++ lit "week")
  = Some [(2%nat, lit "week"); (1%nat, X)].
Proof.
  intros HX HdX. apply search_here. unfold match_here, price_re.
  apply run_Seq_intro, run_Opt_take, run_Seq_intro, run_Chr_app.
  apply (run_Star_app _ []);
    [reflexivity|apply stops_digits; auto using digit_not_space|].
  apply run_Seq_intro, run_Grp_intro, run_Seq_intro, run_Plus_app;
    [assumption| |reflexivity|].
  { rewrite forallb_forall in *. intros c Hc. now rewrite (HdX c Hc). }
  apply run_Opt_skip; [reflexivity|]. cbv beta. rewrite capture_app.
  apply run_Seq_intro, run_Star_app; [reflexivity..|].
  apply run_Opt_take, run_Seq_intro, run_Opt_take, run_Seq_intro, run_Lit_app.
  apply run_Star_app; [reflexivity..|].
  reflexivity.
Qed.

Lemma weekly_text X :
  forallb is_digit X = true ->
  lower (euro :: X ++ lit " per week")
  = euro :: X ++ lit " " ++ lit "per" ++ lit " " ++ lit "week".
Proof.
  intros HdX.
  change (euro :: X ++ lit " per week") with ([euro] ++ X ++ lit " per week").
  rewrite !lower_app, (lower_digits X) by assumption. reflexivity.
Qed.

Lemma weekly_text_lacks c X :
  forallb is_digit X = true -> is_digit c = false ->
  forallb (fun a => negb (N.eqb a c)) (euro :: lit " per week") = true ->
  ~ In c (euro :: X ++ lit " " ++ lit "per" ++ lit " " ++ lit "week").
Proof.
  intros HdX Hc Hlit [H|H].
  - subst c. vm_compute in Hlit. discriminate.
  - rewrite in_app_iff in H. destruct H as [H|H].
    + revert H. now apply digits_lack.
    + revert H. apply not_in_lit. cbn in Hlit |- *.
      apply andb_true_iff in Hlit as [_ Hlit]. exact Hlit.
Qed.

Lemma parse_price_weekly X :
  X <> [] -> forallb is_digit X = true ->
  52 * digits_val X < 2 ^ 53 ->
  parse_price (PyStr (euro :: X ++ lit " per week")) =
  Ok {| value := Some (Fin (inject_Z
           (round_half_even
              (inject_Z (digits_val X) * inject_Z 52 / inject_Z 12))));
        type := numeric |}.
Proof.
  intros HX HdX Hx. unfold parse_price.
  rewrite weekly_text by assumption.
  rewrite (contains_missing_char 105%N (lit "price on application")).
  2:{ cbn. tauto. }
  2:{ now apply weekly_text_lacks. }
  rewrite (contains_missing_char 99%N (lit "contact agent")).
  2:{ cbn. tauto. }
  2:{ now apply weekly_text_lacks. }
  cbn [orb]. unfold price_from_match.
  rewrite price_re_weekly by assumption.
  cbn [group Nat.eqb].
  destruct X as [|c X'] eqn:EX; [congruence|]. rewrite <- EX in *.
  rewrite replace_comma_digits, py_float_digits
    by (subst; congruence || assumption).
  cbn [bind]. change (is_weekly (lower (lit "week"))) with true. cbv iota.
  rewrite weekly_amount; [reflexivity| |assumption].
  apply digits_val_nonneg. assumption.
Qed.

End UtilsFacts.

Section UtilsSpec.
Import Str Float Utils.

(** C9.  For every bedroom string of the form "N to M Bed" or
    "N-M Bed", with N and M decimal numerals, the bedroom normalizer
    returns min = min(N, M) and max = max(N, M); for every string that
    contains "studio" in any mix of upper and lower case, whatever
    surrounds it, it returns min = 1, max = 1 and the studio flag. *)
Theorem parse_beds_range_and_studio (N M pre mid post : str) :
  N <> [] -> M <> [] ->
  forallb is_digit N = true -> forallb is_digit M = true ->
  lower mid = lit "studio" ->
  parse_beds (PyStr (N ++ lit " to " ++ M ++ lit " Bed"))
    = Ok (Some {| min := Z.min (digits_val N) (digits_val M);
                  max := Z.max (digits_val N) (digits_val M);
                  is_studio := false |})
  /\ parse_beds (PyStr (N ++ lit "-" ++ M ++ lit " Bed"))
    = Ok (Some {| min := Z.min (digits_val N) (digits_val M);
                  max := Z.max (digits_val N) (digits_val M);
                  is_studio := false |})
  /\ parse_beds (PyStr (pre ++ mid ++ post))
    = Ok (Some {| min := 1; max := 1; is_studio := true |}).
Proof.
  intros HN HM HdN HdM Hmid. split; [|split].
  - apply parse_beds_range; try assumption; [reflexivity|].
    exact (beds_range_to N M HN HM HdN HdM).
  - apply parse_beds_range; try assumption; [reflexivity|].
    exact (beds_range_hyphen N M HN HM HdN HdM).
  - now apply parse_beds_studio.
Qed.

Lemma parse_beds_range_and_studio_witness :
  parse_beds (PyStr (lit "3 to 1 Bed"))
    = Ok (Some {| min := 1; max := 3; is_studio := false |})
  /\ parse_beds (PyStr (lit "3-1 Bed"))
    = Ok (Some {| min := 1; max := 3; is_studio := false |})
  /\ parse_beds (PyStr (lit "Bright STUDIO flat"))
    = Ok (Some {| min := 1; max := 1; is_studio := true |}).
Proof.
  exact (parse_beds_range_and_studio
           (lit "3") (lit "1") (lit "Bright ") (lit "STUDIO") (lit " flat")
           ltac:(discriminate) ltac:(discriminate)
           eq_refl eq_refl eq_refl).
Defined.

(** C8.  The normalizers for bedrooms and bathrooms are total: on
    every input, strings or not, they return without raising.  The
    price normalizer is not: on a weekly price too large for a float
    the conversion to a monthly amount calls [round] on infinity,
    which raises [OverflowError], and the [except ValueError] clause
    lets it through. *)
Theorem parse_price_raises_on_overflow :
  parse_price (PyStr Examples.huge_weekly_price) = Raise OverflowError
  /\ (forall v, exists r, parse_beds v = Ok r)
  /\ (forall v, exists r, parse_bathrooms v = Ok r).
Proof.
  split; [vm_compute; reflexivity|].
  split; [apply parse_beds_total|apply parse_bathrooms_total].
Qed.

(** The strings of the specification's own examples. *)
Example parse_price_examples :
  parse_price (PyStr (euro :: lit "1,500 per month"))
    = Ok {| value := Some (Fin (inject_Z 1500)); type := numeric |}
  /\ parse_price (PyStr (lit "Price on Application"))
    = Ok {| value := None; type := on_application |}
  /\ parse_price (PyStr (euro :: lit "450,000"))
    = Ok {| value := Some (Fin (inject_Z 450000)); type := numeric |}
  /\ parse_price (PyStr (lit "1500"))
    = Ok {| value := None; type := unknown |}
  /\ parse_price PyNone = Ok {| value := None; type := unknown |}
  /\ parse_price (PyInt 1500) = Ok {| value := None; type := unknown |}.
Proof. repeat split; vm_compute; reflexivity. Qed.

Example parse_beds_examples :
  parse_beds (PyStr (lit "2 Bed"))
    = Ok (Some {| min := 2; max := 2; is_studio := false |})
  /\ parse_beds (PyStr (lit "Apartment")) = Ok None
  /\ parse_beds (PyInt 2) = Ok None
  /\ parse_bathrooms (PyStr (lit "1 Bath")) = Ok (Some 1)
  /\ parse_bathrooms PyNone = Ok None.
Proof. repeat split; vm_compute; reflexivity. Qed.

End UtilsSpec.

(** ** core/fetcher.py: the retry loops *)

Section FetcherFacts.
Import Fetcher.
Variable config : Config.
Variable endpoint : Z -> outcome.
Variable main_site : outcome.

Section LoopFacts.
Context {A : Type}.
Variable url : str.
Variable first_page : bool.
Variable on_success : str -> result A.

Abbreviation loop :=
  (retry_loop config endpoint main_site url first_page on_success).
Abbreviation doubled := (RETRY_DELAY_MS config * 2).
Abbreviation before := (opening first_page main_site).

Lemma attempts_cons m : 0 <= m ->
  attempts m = 1 :: List.map Z.of_nat (seq 2 (Z.to_nat m)).
Proof.
  intros Hm. unfold attempts.
  replace (Z.to_nat (m + 1)) with (S (Z.to_nat m)) by lia.
  reflexivity.
Qed.

Lemma attempts_neg m : m < 0 -> attempts m = [].
Proof.
  intros Hm. unfold attempts.
  replace (Z.to_nat (m + 1)) with 0%nat by lia. reflexivity.
Qed.

(** No attempt hands over to the next: the loop ends with what its
    first attempt returns or raises. *)
Lemma retry_loop_first attempt rest log :
  loop (attempt :: rest) log =
  (match endpoint attempt with
   | Response status_code text =>
       if status_code =? 404 then Raise (ScrapingException url (Some 404))
       else if status_code =? 403 then
         if attempt <=? MAX_FETCH_RETRIES config
         then Raise ModuleNotFoundError
         else Raise (RateLimitException doubled)
       else if raise_for_status status_code then
         if attempt >? MAX_FETCH_RETRIES config
         then Raise (NetworkException url false)
         else Raise ModuleNotFoundError
       else on_success text
   | Timeout =>
       if attempt >? MAX_FETCH_RETRIES config
       then Raise (NetworkException url true)
       else Raise ModuleNotFoundError
   | RequestException =>
       if attempt >? MAX_FETCH_RETRIES config
       then Raise (NetworkException url false)
       else Raise ModuleNotFoundError
   end,
   (if first_page && (attempt =? 1) then log ++ warm_up main_site else log)
   ++ [Get url]).
Proof.
  cbn [retry_loop]. unfold from_utils_import_delay.
  repeat match goal with
         | |- context [match ?x with _ => _ end] => destruct x
         end;
    reflexivity.
Qed.

(** The whole loop, when it makes an attempt at all. *)
Lemma retry_loop_attempts :
  0 <= MAX_FETCH_RETRIES config ->
  loop (attempts (MAX_FETCH_RETRIES config)) [] =
  (match endpoint 1 with
   | Response status_code text =>
       if status_code =? 404 then Raise (ScrapingException url (Some 404))
       else if status_code =? 403 then
         if 1 <=? MAX_FETCH_RETRIES config
         then Raise ModuleNotFoundError
         else Raise (RateLimitException doubled)
       else if raise_for_status status_code then
         if 1 >? MAX_FETCH_RETRIES config
         then Raise (NetworkException url false)
         else Raise ModuleNotFoundError
       else on_success text
   | Timeout =>
       if 1 >? MAX_FETCH_RETRIES config
       then Raise (NetworkException url true)
       else Raise ModuleNotFoundError
   | RequestException =>
       if 1 >? MAX_FETCH_RETRIES config
       then Raise (NetworkException url false)
       else Raise ModuleNotFoundError
   end,
   before ++ [Get url]).
Proof.
  intros Hmax. rewrite attempts_cons, retry_loop_first by assumption.
  f_equal. unfold opening. rewrite Z.eqb_refl, andb_true_r.
  now destruct first_page.
Qed.

(** The warm-up is one request and no pause. *)
Lemma opening_request :
  before = if first_page then [Get main_page] else [].
Proof.
  unfold opening, warm_up, from_utils_import_delay.
  now destruct first_page, main_site.
Qed.

End LoopFacts.
End FetcherFacts.

Section FetcherSpec.
Import Fetcher.

(** C4, which the code does not meet.  Before each pause the retry
    loops import [delay] from a module [utils] that the back end does
    not have.  With at least one retry configured, a 403 on the first
    attempt therefore ends the fetch there: one request to the URL, no
    pause, no second attempt, and what leaves the fetcher is a
    [ModuleNotFoundError], whatever the endpoint would answer next.
    So an endpoint that answers 403 and then 200 is not asked twice,
    and one that answers 403 throughout does not lead to a
    [RateLimitException].  This holds of [fetch_page_html] and of
    [fetch_json_api]. *)
Theorem forbidden_is_not_retried
    (config : Config) (endpoint : Z -> outcome) (main_site : outcome)
    (url : str) (page_number : Z)
    {json : Type} (json_loads : str -> option json) :
  1 <= MAX_FETCH_RETRIES config ->
  (exists t, endpoint 1 = Response 403 t) ->
  fetch_page_html config endpoint main_site url page_number
    = (Raise ModuleNotFoundError,
       (if page_number =? 1 then [Get main_page] else []) ++ [Get url])
  /\ fetch_json_api config endpoint main_site json_loads url page_number
    = (Raise ModuleNotFoundError, [Get url]).
Proof.
  intros Hmax [t H403]. unfold fetch_page_html, fetch_json_api.
  rewrite !retry_loop_attempts, !opening_request, H403 by lia.
  cbn [Z.eqb Pos.eqb]. rewrite (proj2 (Z.leb_le 1 _)) by lia.
  split; reflexivity.
Qed.

(** With two retries configured: the endpoint that answers 403 once
    and would answer 200 next, and the endpoint that always answers
    403. *)
Lemma forbidden_is_not_retried_witness :
  (fetch_page_html Examples.default_config Examples.forbidden_once
     (Response 200 []) (lit "https://www.daft.ie/property-for-rent/dublin-city")
     1
   = (Raise ModuleNotFoundError,
      [Get main_page;
       Get (lit "https://www.daft.ie/property-for-rent/dublin-city")]))
  /\ (fetch_json_api Examples.default_config (Examples.always 403)
        (Response 200 []) (fun _ : str => Some tt) (lit "https://www.daft.ie/x")
        0
      = (Raise ModuleNotFoundError, [Get (lit "https://www.daft.ie/x")])).
Proof.
  split.
  - refine (proj1 (forbidden_is_not_retried
             Examples.default_config Examples.forbidden_once (Response 200 [])
             (lit "https://www.daft.ie/property-for-rent/dublin-city") 1
             (fun _ : str => Some tt) _ _)).
    + cbn. lia.
    + exists []. reflexivity.
  - refine (proj2 (forbidden_is_not_retried
             Examples.default_config (Examples.always 403) (Response 200 [])
             (lit "https://www.daft.ie/x") 0 (fun _ : str => Some tt) _ _)).
    + cbn. lia.
    + exists []. reflexivity.
Defined.

(** C5.  Against an endpoint that answers 404, a fetch fails after
    exactly one request to it, with no retry and no pause, raising a
    [ScrapingException] that carries the requested URL and the status
    404; this holds of [fetch_page_html] and of [fetch_json_api]. *)
Theorem not_found_fails_after_one_attempt
    (config : Config) (endpoint : Z -> outcome) (main_site : outcome)
    (url : str) (page_number : Z)
    {json : Type} (json_loads : str -> option json) :
  0 <= MAX_FETCH_RETRIES config ->
  (exists t, endpoint 1 = Response 404 t) ->
  fetch_page_html config endpoint main_site url page_number
    = (Raise (ScrapingException url (Some 404)),
       opening (page_number =? 1) main_site ++ [Get url])
  /\ fetch_json_api config endpoint main_site json_loads url page_number
    = (Raise (ScrapingException url (Some 404)), [Get url]).
Proof.
  intros Hmax [t H404]. unfold fetch_page_html, fetch_json_api.
  rewrite !retry_loop_attempts, H404 by assumption.
  split; reflexivity.
Qed.

Lemma not_found_fails_after_one_attempt_witness :
  fetch_page_html Examples.default_config (Examples.always 404)
    (Response 200 []) (lit "https://www.daft.ie/for-rent/gone/1") 0
    = (Raise (ScrapingException (lit "https://www.daft.ie/for-rent/gone/1")
                (Some 404)),
       [Get (lit "https://www.daft.ie/for-rent/gone/1")])
  /\ fetch_json_api Examples.default_config (Examples.always 404)
       (Response 200 []) (fun _ : str => Some tt)
       (lit "https://www.daft.ie/for-rent/gone/1") 0
    = (Raise (ScrapingException (lit "https://www.daft.ie/for-rent/gone/1")
                (Some 404)),
       [Get (lit "https://www.daft.ie/for-rent/gone/1")]).
Proof.
  refine (not_found_fails_after_one_attempt
            Examples.default_config (Examples.always 404) (Response 200 [])
            (lit "https://www.daft.ie/for-rent/gone/1") 0
            (fun _ : str => Some tt) _ _).
  - cbn. lia.
  - exists []. reflexivity.
Defined.

End FetcherSpec.

(** ** core/parser.py *)

Section ParserFacts.
Import Str Re Float Utils Models Parser.

Lemma extract_lat_lng_total href : exists r, extract_lat_lng href = Ok r.
Proof.
  unfold extract_lat_lng. destruct href as [[|c h]|]; eauto.
  assert (Hm : forall m, bound 1 m -> bound 2 m -> exists r,
    except_ValueError_pass
      (let* g1 := group_text 1 m in
       let* lat := py_float g1 in
       let* g2 := group_text 2 m in
       let* lng := py_float g2 in
       Ok (Some (lat, lng))) = Ok r).
  { intros m H1 H2.
    destruct (group_text_bound 1 m H1) as [t1 ->].
    destruct (group_text_bound 2 m H2) as [t2 ->]. cbn [bind].
    destruct (py_float_cases t1) as [[f1 ->]| ->]; cbn [bind]; [|cbn; eauto].
    destruct (py_float_cases t2) as [[f2 ->]| ->]; cbn; eauto. }
  destruct (search loc_re (c :: h)) as [m|] eqn:E1.
  - apply Hm; eapply search_inv; try exact E1; cbn; auto.
  - destruct (search viewpoint_re (c :: h)) as [m|] eqn:E2; [|eauto].
    apply Hm; eapply search_inv; try exact E2; cbn; auto.
Qed.

(** The page count never exceeds the configured maximum, or 1 if that
    is larger. *)
Lemma get_total_pages_capped config html t :
  get_total_pages config html = Ok t ->
  t <= Z.max 1 (MAX_PAGES_TO_FETCH config).
Proof.
  unfold get_total_pages.
  destruct (total_results_elem html) as [txt|]; [|intros [= <-]; lia].
  destruct (search total_results_re txt) as [m|]; [|intros [= <-]; lia].
  destruct (group_text 1 m) as [g1|e]; cbn [bind].
  - destruct (py_int_cases (replace (lit ",") [] g1)) as [[z ->]| ->]; cbn.
    + intros [= <-]. lia.
    + intros [= <-]. lia.
  - destruct e; cbn; intros H; inversion H; lia.
Qed.

Lemma total_results_match N :
  N <> [] -> forallb is_digit N = true ->
  search total_results_re
    (lit "of" ++ lit " " ++ N ++ lit " " ++ lit "total results" ++ [])
  = Some [(1%nat, N)].
Proof.
  intros HN HdN. apply search_here. unfold match_here, total_results_re.
  apply run_Seq_intro, run_LitI_app.
  apply run_Seq_intro, run_Star_app;
    [reflexivity|apply stops_digits; auto using digit_not_space|].
  apply run_Seq_intro, run_Grp_Plus_app; [assumption| |reflexivity|].
  { rewrite forallb_forall in *. intros c Hc. now rewrite (HdN c Hc). }
  apply run_Seq_intro, run_Star_app; [reflexivity..|].
  now apply run_LitI_app.
Qed.

(** On "of N total results" the page count is [ceil(N / 20)], capped. *)
Lemma get_total_pages_formula config html N :
  N <> [] -> forallb is_digit N = true ->
  total_results_elem html = Some (lit "of " ++ N ++ lit " total results") ->
  get_total_pages config html
  = Ok (Z.min ((digits_val N + 19) / 20) (MAX_PAGES_TO_FETCH config)).
Proof.
  intros HN HdN Ht. unfold get_total_pages. rewrite Ht.
  change (lit "of " ++ N ++ lit " total results")
    with (lit "of" ++ lit " " ++ N ++ lit " total results").
  replace (N ++ lit " total results")
    with (N ++ lit " " ++ lit "total results" ++ []) by reflexivity.
  rewrite total_results_match by assumption.
  cbn [group_text group Nat.eqb bind].
  rewrite replace_comma_digits by assumption.
  rewrite py_int_digits by assumption. reflexivity.
Qed.

(** The specification's own figures: 1,000,000 results, maximum 5. *)
Example get_total_pages_million :
  get_total_pages Examples.default_config
    {| total_results_elem :=
         Some (lit "Showing 1 - 20 of 1,000,000 total results");
       search_results := [] |}
  = Ok 5.
Proof. vm_compute. reflexivity. Qed.

(** C7.  The detail merge leaves every field of the candidate as it
    was except the coordinates and the energy rating; an energy rating
    that is already populated is kept; the coordinates are replaced,
    populated or not, whenever the detail page yields a pair, and kept
    only when it yields none. *)
Theorem detail_merge_frame (html : detail_page) (p : ScrapedProperty) :
  exists p', parse_property_details html p = Ok p'
    /\ (address p' = address p /\ url p' = url p /\ id p' = id p
        /\ tagline p' = tagline p /\ price_string p' = price_string p
        /\ parsed_price p' = parsed_price p
        /\ Models.price_type p' = Models.price_type p
        /\ beds_string p' = beds_string p /\ parsed_beds p' = parsed_beds p
        /\ baths_string p' = baths_string p
        /\ property_type_string p' = property_type_string p
        /\ image_url p' = image_url p /\ date_listed p' = date_listed p)
    /\ (truthy (ber p) = true -> ber p' = ber p)
    /\ match detail_coordinates html with
       | Some (lat, lng) => latitude p' = Some lat /\ longitude p' = Some lng
       | None => latitude p' = latitude p /\ longitude p' = longitude p
       end.
Proof.
  unfold parse_property_details, detail_coordinates.
  destruct (lat_lng_elem html) as [href|].
  - destruct (extract_lat_lng_total href) as [[[lat lng]|] ->]; cbn [bind].
    + change (ber (set_lat_lng p lat lng)) with (ber p).
      destruct (truthy (ber p)) eqn:Hb.
      * eexists. split; [reflexivity|]. cbn. tauto.
      * destruct (first_ber _);
          (eexists; split; [reflexivity|]; cbn; repeat split;
           try discriminate).
    + destruct (truthy (ber p)) eqn:Hb.
      * eexists. split; [reflexivity|]. cbn. tauto.
      * destruct (first_ber _);
          (eexists; split; [reflexivity|]; cbn; repeat split;
           try discriminate).
  - cbn [bind]. destruct (truthy (ber p)) eqn:Hb.
    * eexists. split; [reflexivity|]. cbn. tauto.
    * destruct (first_ber _);
        (eexists; split; [reflexivity|]; cbn; repeat split;
         try discriminate).
Qed.

(** C7, as stated, fails: a candidate located at (53.3, -6.2) comes
    out of the merge with the coordinates of the detail page's map
    link, (1.5, 2.5). *)
Lemma detail_merge_overwrites_coordinates :
  latitude Examples.located_candidate = Some (Fin (533 # 10))
  /\ longitude Examples.located_candidate = Some (Fin (-62 # 10))
  /\ exists p',
       parse_property_details Examples.detail_with_map_link
         Examples.located_candidate = Ok p'
       /\ latitude p' = Some (Fin (15 # 10))
       /\ longitude p' = Some (Fin (25 # 10))
       /\ latitude p' <> latitude Examples.located_candidate.
Proof.
  split; [reflexivity|]. split; [reflexivity|].
  eexists. split; [vm_compute; reflexivity|].
  split; [reflexivity|]. split; [reflexivity|]. discriminate.
Qed.

End ParserFacts.

(** ** core/daft_scraper.py: single listings *)

Section ListingFacts.
Import Str Re Float Utils Models DaftScraper.
#[local] Opaque overflow_threshold.

(** C10.  For every URL string, [_extract_property_info_from_url]
    does not raise (its [try] block never takes the [except] branch)
    and returns either the pair (id, slug), where id is the last path
    segment of the URL, made of digits only, and slug is the segment
    before it, or the pair (None, None); on a value that is not a
    string the [except] branch returns (None, None). *)
Theorem extract_property_info_id_and_slug (config : Config) (url : pyval) :
  match url with
  | PyStr u =>
      extract_property_info config url
        = Ok (_extract_property_info_from_url config url)
      /\ (_extract_property_info_from_url config url = (None, None)
          \/ exists front address_slug property_id,
               url_parts config u = front ++ [address_slug; property_id]
               /\ front <> []
               /\ isdigit property_id = true
               /\ _extract_property_info_from_url config url
                  = (Some property_id, Some address_slug))
  | _ => _extract_property_info_from_url config url = (None, None)
  end.
Proof.
  destruct url as [|u| |]; try reflexivity.
  unfold _extract_property_info_from_url, extract_property_info.
  destruct (Nat.leb_spec 3 (length (url_parts config u))) as [Hlen|Hlen];
    [|split; [reflexivity|now left]].
  destruct (isdigit (List.last (url_parts config u) [])) eqn:Hd;
    [|split; [reflexivity|now left]].
  split; [reflexivity|]. right.
  exists (List.removelast (List.removelast (url_parts config u))),
         (List.last (List.removelast (url_parts config u)) []),
         (List.last (url_parts config u) []).
  split; [apply last_two; lia|]. split; [|split; [assumption|reflexivity]].
  intros E. pose proof (last_two (url_parts config u) [] ltac:(lia)) as H.
  rewrite E in H. rewrite H in Hlen. cbn in Hlen. lia.
Qed.

Example extract_property_info_examples :
  _extract_property_info_from_url Examples.default_config
    (PyStr (lit "https://www.daft.ie/for-rent/apartment-main-street/5512345"))
    = (Some (lit "5512345"), Some (lit "apartment-main-street"))
  /\ _extract_property_info_from_url Examples.default_config
       (PyStr (lit "/for-sale/house-elm-road/77/"))
    = (Some (lit "77"), Some (lit "house-elm-road"))
  /\ _extract_property_info_from_url Examples.default_config
       (PyStr (lit "https://www.daft.ie/for-rent/apartment-main-street"))
    = (None, None)
  /\ _extract_property_info_from_url Examples.default_config
       (PyStr (lit "https://www.daft.ie/for-rent/flat/12?tab=map"))
    = (None, None)
  /\ _extract_property_info_from_url Examples.default_config PyNone
    = (None, None).
Proof. repeat split; vm_compute; reflexivity. Qed.

Lemma listing_id_total i : exists r, listing_id i = Ok r.
Proof.
  unfold listing_id. destruct (nonempty i); cbn [andb]; [|eauto].
  unfold py_int. destruct (isdigit i); cbn; eauto.
Qed.

(** [transform_to_property_listing] never raises; price and period
    are read off the candidate independently of each other. *)
Lemma transform_total sp lt :
  exists l, transform_to_property_listing sp lt = Ok l
    /\ l_price_eur l = parsed_price sp
    /\ l_price_period l = price_period_of (price_string sp)
    /\ listing_id (id sp) = Ok (l_id l).
Proof.
  unfold transform_to_property_listing.
  destruct (parse_bathrooms_total (PyStr (baths_string sp))) as [b ->].
  destruct (listing_id_total (id sp)) as [i Hi]. rewrite Hi. cbn [bind].
  eexists. split; [reflexivity|]. cbn. auto.
Qed.

Lemma price_period_weekly X :
  price_period_of (euro :: X ++ lit " per week") = Some (lit "week").
Proof.
  unfold price_period_of.
  replace (euro :: X ++ lit " per week")
    with ((euro :: X ++ lit " per ") ++ lit "week" ++ []).
  2:{ cbn [app]. rewrite <- app_assoc. reflexivity. }
  rewrite lower_app, lower_app.
  change (lower (lit "week")) with (lit "week").
  rewrite contains_app. reflexivity.
Qed.

(** C1, as the code has it.  For every price string "€X per week",
    X a decimal numeral with 52 * X below 2^53 (so that the amount and
    its product with 52 are binary64 numbers), the price normalizer
    returns the numeric value round(X * 52 / 12), the integer nearest
    to X * 52 / 12: the rounding of the quotient to binary64 does not
    move it across a half.  A listing made of a candidate with that
    price string and the normalizer's result carries this monthly
    amount, and its price period is [week], the cadence named in the
    raw string. *)
Theorem weekly_price_monthly_value_week_period
    (X : str) (scraped_prop : ScrapedProperty) (lt : listing_type) :
  X <> [] -> forallb is_digit X = true ->
  52 * digits_val X < 2 ^ 53 ->
  price_string scraped_prop = euro :: X ++ lit " per week" ->
  parse_price (PyStr (price_string scraped_prop))
    = Ok {| value := parsed_price scraped_prop;
            type := Models.price_type scraped_prop |} ->
  let monthly :=
    round_half_even (inject_Z (digits_val X) * inject_Z 52 / inject_Z 12) in
  parse_price (PyStr (euro :: X ++ lit " per week"))
    = Ok {| value := Some (Fin (inject_Z monthly)); type := numeric |}
  /\ 2 * Z.abs (12 * monthly - 52 * digits_val X) <= 12
  /\ exists listing,
       transform_to_property_listing scraped_prop lt = Ok listing
       /\ l_price_eur listing = Some (Fin (inject_Z monthly))
       /\ l_price_period listing = Some (lit "week").
Proof.
  intros HX HdX Hx Hprice Hparsed monthly.
  pose proof (parse_price_weekly X HX HdX Hx) as Hweekly.
  split; [exact Hweekly|]. split.
  - pose proof (round_half_even_near (digits_val X * 52 * 1) 12) as Hnear.
    change (round_half_even (digits_val X * 52 * 1 # 12)) with monthly in Hnear.
    lia.
  - destruct (transform_total scraped_prop lt) as (l & Hl & Heur & Hper & _).
    exists l. split; [assumption|]. split.
    + rewrite Heur. rewrite Hprice, Hweekly in Hparsed.
      now inversion Hparsed.
    + rewrite Hper, Hprice. apply price_period_weekly.
Qed.

Lemma weekly_price_monthly_value_week_period_witness :
  parse_price (PyStr (euro :: lit "1500 per week"))
    = Ok {| value := Some (Fin (inject_Z 6500)); type := numeric |}
  /\ 2 * Z.abs (12 * 6500 - 52 * 1500) <= 12
  /\ exists listing,
       transform_to_property_listing Examples.weekly_1500 rent = Ok listing
       /\ l_price_eur listing = Some (Fin (inject_Z 6500))
       /\ l_price_period listing = Some (lit "week").
Proof.
  refine (weekly_price_monthly_value_week_period
            (lit "1500") Examples.weekly_1500 rent _ _ _ eq_refl _).
  - discriminate.
  - reflexivity.
  - vm_compute. reflexivity.
  - vm_compute. reflexivity.
Defined.

(** C1, as stated, fails: the listing made of "€1500 per week"
    carries the monthly amount 6500 under the period [week], not
    [month]. *)
Lemma weekly_price_period_is_not_month :
  exists listing,
    transform_to_property_listing Examples.weekly_1500 rent = Ok listing
    /\ l_price_eur listing = Some (Fin (inject_Z 6500))
    /\ l_price_period listing = Some (lit "week")
    /\ l_price_period listing <> Some (lit "month").
Proof.
  eexists. split; [vm_compute; reflexivity|].
  repeat split; try reflexivity. discriminate.
Qed.

(** Beyond 53 bits the roundings of the product and of the quotient
    show: for X = 10^17 the value is 433333333333333312, where
    X * 52 / 12 is 433333333333333333 and a third. *)
Example weekly_price_beyond_53_bits :
  parse_price (PyStr (euro :: lit "100000000000000000 per week"))
  = Ok {| value := Some (Fin (inject_Z 433333333333333312));
          type := numeric |}.
Proof. vm_compute. reflexivity. Qed.

End ListingFacts.

(** ** Loops *)

Section WhileFacts.
Context {S R : Type}.
Variable step : S -> S + R.

Lemma while_loop_invariant (I : S -> Prop) (P : R -> Prop) :
  (forall s, I s -> match step s with inl s' => I s' | inr r => P r end) ->
  forall fuel s r, I s -> while_loop fuel step s = Some r -> P r.
Proof.
  intros Hstep. induction fuel as [|fuel IH]; intros s r Hs H; [discriminate|].
  cbn [while_loop] in H. specialize (Hstep s Hs).
  destruct (step s) as [s'|r']; cbn in Hstep.
  - exact (IH s' r Hstep H).
  - inversion H; subst. assumption.
Qed.

(** A loop whose body lowers a measure returns, given one unit of
    fuel more than the measure. *)
Lemma while_loop_terminates (I : S -> Prop) (measure : S -> nat) :
  (forall s s', I s -> step s = inl s' ->
                I s' /\ (measure s' < measure s)%nat) ->
  forall s, I s ->
    exists r, while_loop (Datatypes.S (measure s)) step s = Some r.
Proof.
  intros Hstep.
  enough (H : forall n s, I s -> (measure s <= n)%nat ->
                exists r, while_loop (Datatypes.S n) step s = Some r).
  { intros s Hs. now apply (H (measure s)). }
  induction n as [|n IH]; intros s Hs Hn; cbn [while_loop].
  - destruct (step s) as [s'|r] eqn:E; [|eauto].
    destruct (Hstep s s' Hs E) as [_ Hlt]. lia.
  - destruct (step s) as [s'|r] eqn:E; [|eauto].
    destruct (Hstep s s' Hs E) as [Hs' Hlt].
    apply IH; [assumption|lia].
Qed.

(** More fuel changes nothing. *)
Lemma while_loop_more_fuel fuel : forall fuel' s r,
  while_loop fuel step s = Some r -> (fuel <= fuel')%nat ->
  while_loop fuel' step s = Some r.
Proof.
  induction fuel as [|fuel IH]; intros fuel' s r H Hle; [discriminate|].
  destruct fuel' as [|fuel']; [lia|]. cbn [while_loop] in *.
  destruct (step s); [|assumption]. apply IH; [assumption|lia].
Qed.

End WhileFacts.

(** ** core/daft_scraper.py: the page loops *)

Section PageFacts.
Import Str Re Float Utils Models Parser SupabaseClient DaftScraper.
Variable config : Config.
Variable w : site.

Lemma pages_upto_S n : pages_upto (S n) = pages_upto n ++ [Z.of_nat (S n)].
Proof. unfold pages_upto. now rewrite seq_S, List.map_app. Qed.

(** *** scrape_all_pages *)

Lemma all_pages_step_inv b pre s :
  all_pages_inv config b pre s ->
  match all_pages_step config w b s with
  | inl s' => all_pages_inv config b pre s'
  | inr r => all_pages_post config b pre r
  end.
Proof.
  intros (n & Hpage & Hfetched & H0 & H1). unfold all_pages_step.
  destruct (Z.leb_spec (ap_current_page s) (ap_total_pages s)) as [Hle|Hgt].
  - assert (Hnext : forall total props,
              total <= page_cap config ->
              all_pages_inv config b pre
                {| ap_current_page := ap_current_page s + 1;
                   ap_total_pages := total;
                   ap_all_properties := props;
                   ap_fetched := ap_fetched s ++ [(b, ap_current_page s)] |}).
    { intros total props Htotal. exists (S n).
      cbn [ap_current_page ap_fetched ap_total_pages].
      split; [lia|]. split.
      - rewrite Hfetched, pages_upto_S, List.map_app, <- app_assoc, Hpage.
        reflexivity.
      - split; [lia|]. intros _. split; [|assumption].
        destruct n as [|n]; [unfold page_cap; lia|].
        specialize (H1 ltac:(lia)). lia. }
    assert (Htot : ap_total_pages s <= page_cap config).
    { destruct n as [|n];
        [rewrite H0 by reflexivity; unfold page_cap; lia|apply H1; lia]. }
    destruct (result_page w b (ap_current_page s)) as [[html|]|e]; cbn [bind].
    + destruct (Z.eqb_spec (ap_current_page s) 1) as [E1|E1].
      * destruct (get_total_pages config html) as [t|e] eqn:Et; cbn [bind].
        -- apply Hnext. eapply get_total_pages_capped; eassumption.
        -- rewrite andb_true_r. destruct b.
           ++ cbn. split; [reflexivity|]. rewrite Hfetched, E1.
              assert (n = 0%nat) as -> by lia. cbn. now rewrite app_nil_r.
           ++ now apply Hnext.
      * cbn [bind]. now apply Hnext.
    + now apply Hnext.
    + destruct (Z.eqb_spec (ap_current_page s) 1) as [E1|E1].
      * rewrite andb_true_r. destruct b.
        -- cbn. split; [reflexivity|]. rewrite Hfetched, E1.
           assert (n = 0%nat) as -> by lia. cbn. now rewrite app_nil_r.
        -- now apply Hnext.
      * rewrite andb_false_r. now apply Hnext.
  - cbn. destruct n as [|n]; [rewrite H0 in Hgt by reflexivity; lia|].
    exists (S n). split; [lia|]. split; [apply H1; lia|assumption].
Qed.

Lemma all_pages_start_inv b pre :
  all_pages_inv config b pre (all_pages_start pre).
Proof.
  exists 0%nat. cbn. rewrite app_nil_r. repeat split; lia.
Qed.

Lemma all_pages_step_advances b s s' :
  all_pages_step config w b s = inl s' ->
  ap_current_page s' = ap_current_page s + 1
  /\ ap_current_page s <= ap_total_pages s.
Proof.
  unfold all_pages_step. intros Hstep.
  destruct (Z.leb_spec (ap_current_page s) (ap_total_pages s));
    [|discriminate].
  split; [|assumption].
  destruct (result_page w b (ap_current_page s)) as [[html|]|e];
    cbn [bind] in Hstep.
  - destruct (if ap_current_page s =? 1 then _ else _); cbn [bind] in Hstep.
    + now inversion Hstep.
    + destruct (b && _); now inversion Hstep.
  - now inversion Hstep.
  - destruct (b && _); now inversion Hstep.
Qed.

Lemma all_pages_loop_terminates b pre :
  exists r,
    while_loop (S (Z.to_nat (page_cap config))) (all_pages_step config w b)
      (all_pages_start pre)
    = Some r.
Proof.
  pose proof (while_loop_terminates (all_pages_step config w b)
                (all_pages_inv config b pre)
                (fun s => Z.to_nat (page_cap config + 1 - ap_current_page s)))
    as H.
  cbv beta in H.
  assert (Hdec : forall s s', all_pages_inv config b pre s ->
            all_pages_step config w b s = inl s' ->
            all_pages_inv config b pre s' /\
            (Z.to_nat (page_cap config + 1 - ap_current_page s') <
             Z.to_nat (page_cap config + 1 - ap_current_page s))%nat).
  { intros s s' Hs Hstep.
    pose proof (all_pages_step_inv b pre s Hs) as Hinv.
    rewrite Hstep in Hinv. split; [assumption|].
    destruct (all_pages_step_advances b s s' Hstep) as [Hnext Hle].
    destruct Hs as (n & Hpage & _ & H0 & H1).
    destruct n as [|n];
      [rewrite H0 in * by reflexivity; unfold page_cap in *
      |specialize (H1 ltac:(lia))]; lia. }
  destruct (H Hdec (all_pages_start pre) (all_pages_start_inv b pre))
    as [r Hr].
  cbn [all_pages_start ap_current_page] in Hr.
  replace (Z.to_nat (page_cap config + 1 - 1))
    with (Z.to_nat (page_cap config)) in Hr by lia.
  eauto.
Qed.

(** The result pages [scrape_all_pages] asks for: pages 1 to n of one
    pass, n within the cap; before them, when the first pass gave up
    on page 1, that one request. *)
Lemma scrape_all_pages_fetched fuel props fetched :
  scrape_all_pages config w fuel = Some (props, fetched) ->
  exists n : nat, (1 <= n)%nat /\ Z.of_nat n <= page_cap config
    /\ (fetched = List.map (pair true) (pages_upto n)
        \/ fetched = (true, 1) :: List.map (pair false) (pages_upto n)).
Proof.
  unfold scrape_all_pages.
  destruct (while_loop fuel (all_pages_step config w true) _) as [r1|] eqn:E1;
    [|discriminate].
  pose proof (while_loop_invariant _ _ _ (all_pages_step_inv true [])
                fuel _ _ (all_pages_start_inv true []) E1) as H1.
  destruct r1 as [props1 fetched1|fetched1]; cbn in H1.
  - intros [= <- <-]. destruct H1 as (n & Hn1 & Hn2 & ->). eauto 6.
  - destruct H1 as [_ ->].
    destruct (while_loop fuel (all_pages_step config w false) _)
      as [r2|] eqn:E2; [|discriminate].
    pose proof (while_loop_invariant _ _ _
                  (all_pages_step_inv false [(true, 1)])
                  fuel _ _ (all_pages_start_inv false [(true, 1)]) E2) as H2.
    destruct r2 as [props2 fetched2|fetched2]; [|discriminate].
    intros [= <- <-]. destruct H2 as (n & Hn1 & Hn2 & ->). eauto 6.
Qed.

Lemma scrape_all_pages_terminates :
  exists r,
    scrape_all_pages config w (S (Z.to_nat (page_cap config))) = Some r.
Proof.
  unfold scrape_all_pages.
  destruct (all_pages_loop_terminates true []) as [r1 E1]. rewrite E1.
  destruct r1 as [props1 fetched1|fetched1]; [eauto|].
  destruct (all_pages_loop_terminates false fetched1) as [r2 E2]. rewrite E2.
  pose proof (while_loop_invariant _ _ _ (all_pages_step_inv false fetched1)
                _ _ _ (all_pages_start_inv false fetched1) E2) as H2.
  destruct r2 as [props2 fetched2|fetched2]; [eauto|].
  destruct H2 as [H2 _]. discriminate.
Qed.

(** *** scrape_limited_pages *)

Lemma limited_step_inv max_properties s :
  limited_inv w s ->
  match limited_step config w max_properties s with
  | inl s' => limited_inv w s'
              /\ lp_current_page s' = lp_current_page s + 1
              /\ lp_current_page s <= lp_total_pages s
  | inr r => limited_post w r
  end.
Proof.
  intros (n & Hpage & Hfetched & H0 & H1). unfold limited_step.
  destruct (Z.leb_spec (lp_current_page s) (lp_total_pages s)) as [Hle|Hgt];
    cbn [andb].
  2:{ exists n. cbn. split; [|assumption].
      destruct n as [|n]; [unfold upstream_cap; lia|apply H1; lia]. }
  destruct (lp_properties_scraped s <? max_properties).
  2:{ exists n. cbn. split; [|assumption].
      destruct n as [|n]; [unfold upstream_cap; lia|apply H1; lia]. }
  assert (Htot : lp_total_pages s <= upstream_cap w).
  { destruct n as [|n];
      [rewrite H0 by reflexivity; unfold upstream_cap; lia|apply H1; lia]. }
  assert (Hnext : forall total props scraped,
            total <= upstream_cap w ->
            limited_inv w
              {| lp_current_page := lp_current_page s + 1;
                 lp_total_pages := total;
                 lp_all_properties := props;
                 lp_properties_scraped := scraped;
                 lp_fetched := lp_fetched s ++ [lp_current_page s] |}).
  { intros total props scraped Htotal. exists (S n).
    cbn [lp_current_page lp_fetched lp_total_pages].
    split; [lia|]. split.
    - rewrite Hfetched, pages_upto_S, Hpage. reflexivity.
    - split; [lia|]. intros _. split; [|assumption].
      destruct n as [|n]; [unfold upstream_cap; lia|].
      specialize (H1 ltac:(lia)). lia. }
  destruct (next_data_page w (lp_current_page s)) as [nd|] eqn:End.
  - destruct (limited_details _ _ _ _ _ _) as [detailed scraped].
    split; [|split; [reflexivity|assumption]].
    apply Hnext.
    destruct (Z.eqb_spec (lp_current_page s) 1) as [E1|E1]; [|assumption].
    unfold upstream_cap, upstream_total_pages. rewrite <- E1, End. lia.
  - split; [|split; [reflexivity|assumption]]. now apply Hnext.
Qed.

Lemma limited_start_inv :
  limited_inv w
    {| lp_current_page := 1; lp_total_pages := 1; lp_all_properties := [];
       lp_properties_scraped := 0; lp_fetched := [] |}.
Proof. exists 0%nat. cbn. repeat split; lia. Qed.

Lemma limited_details_count max_properties props :
  forall detailed scraped,
    let r := limited_details config w max_properties props detailed scraped in
    Z.of_nat (length (fst r)) - Z.of_nat (length detailed) = snd r - scraped
    /\ scraped <= snd r <= Z.max scraped max_properties.
Proof.
  induction props as [|prop rest IH]; intros detailed scraped; cbn zeta.
  - cbn. lia.
  - cbn [limited_details].
    destruct (nonempty (url prop)); cbn [andb].
    + destruct (Z.ltb_spec scraped max_properties).
      * specialize (IH (detailed ++ [fetch_details config w true prop])
                      (scraped + 1)).
        cbn zeta in IH. rewrite length_app in IH. cbn [length] in IH. lia.
      * specialize (IH detailed scraped). cbn zeta in IH. lia.
    + specialize (IH detailed scraped). cbn zeta in IH. lia.
Qed.

(** What holds each time the loop of [scrape_limited_pages] is
    entered: pages 1 to n were asked for; the page total is still 1
    before the first pass and is what the first payload announces from
    then on; the records are counted. *)
Abbreviation limited_counted s :=
  (exists n : nat,
     lp_current_page s = Z.of_nat (S n)
     /\ lp_fetched s = pages_upto n
     /\ (n = 0%nat -> lp_total_pages s = 1)
     /\ ((1 <= n)%nat ->
         lp_total_pages s = upstream_total_pages w
         /\ Z.of_nat n <= upstream_cap w)
     /\ Z.of_nat (length (lp_all_properties s)) = lp_properties_scraped s).

Lemma limited_step_stops max_properties s :
  limited_counted s ->
  match limited_step config w max_properties s with
  | inl s' => limited_counted s'
  | inr r =>
      exists n : nat,
        Z.of_nat n <= upstream_cap w
        /\ snd r = pages_upto n
        /\ (Z.of_nat n < upstream_cap w ->
            max_properties <= Z.of_nat (length (fst r)))
  end.
Proof.
  intros (n & Hpage & Hfetched & H0 & H1 & Hlen). unfold limited_step.
  destruct (Z.leb_spec (lp_current_page s) (lp_total_pages s)) as [Hle|Hgt];
    cbn [andb].
  2:{ exists n. cbn [fst snd].
      destruct n as [|n]; [rewrite H0 in Hgt by reflexivity; lia|].
      destruct (H1 ltac:(lia)) as [Htot Hcap].
      split; [assumption|]. split; [assumption|].
      unfold upstream_cap in *. lia. }
  destruct (Z.ltb_spec (lp_properties_scraped s) max_properties) as [Hlt|Hge].
  2:{ exists n. cbn [fst snd]. split; [|split; [assumption|lia]].
      destruct n as [|n]; [unfold upstream_cap; lia|apply H1; lia]. }
  assert (Hnext : forall total props scraped,
            total = upstream_total_pages w ->
            Z.of_nat (length props) = scraped ->
            limited_counted
              {| lp_current_page := lp_current_page s + 1;
                 lp_total_pages := total;
                 lp_all_properties := props;
                 lp_properties_scraped := scraped;
                 lp_fetched := lp_fetched s ++ [lp_current_page s] |}).
  { intros total props scraped Htotal Hcount. exists (S n).
    cbn [lp_current_page lp_fetched lp_total_pages lp_all_properties
         lp_properties_scraped].
    split; [lia|]. split.
    { rewrite Hfetched, pages_upto_S, Hpage. reflexivity. }
    split; [lia|]. split; [|assumption].
    intros _. split; [assumption|].
    destruct n as [|n]; [unfold upstream_cap; lia|].
    destruct (H1 ltac:(lia)) as [Htot Hcap]. unfold upstream_cap in *. lia. }
  assert (Htot : lp_current_page s <> 1 ->
                 lp_total_pages s = upstream_total_pages w).
  { intros Hne. destruct n as [|n]; [lia|]. apply H1. lia. }
  destruct (next_data_page w (lp_current_page s)) as [nd|] eqn:End.
  - match goal with
    | |- context [limited_details config w max_properties ?ps [] ?k] =>
        pose proof (limited_details_count max_properties ps [] k) as Hc;
        destruct (limited_details config w max_properties ps [] k)
          as [detailed scraped]
    end.
    cbn zeta in Hc. cbn [fst snd length] in Hc.
    apply Hnext; [|rewrite length_app; lia].
    destruct (Z.eqb_spec (lp_current_page s) 1) as [E1|E1];
      [|now apply Htot].
    unfold upstream_total_pages. rewrite E1 in End. rewrite End.
    reflexivity.
  - apply Hnext; [|assumption].
    destruct (Z.eq_dec (lp_current_page s) 1) as [E1|E1]; [|now apply Htot].
    unfold upstream_total_pages. rewrite E1 in End. rewrite End.
    apply H0. lia.
Qed.

(** The result pages [scrape_limited_pages] asks for: pages 1 to n,
    n within what the first payload announces, and below it only when
    the records returned fill the budget. *)
Lemma scrape_limited_pages_stops fuel max_properties props fetched :
  scrape_limited_pages config w fuel max_properties = Some (props, fetched) ->
  exists n : nat,
    Z.of_nat n <= upstream_cap w
    /\ fetched = pages_upto n
    /\ (Z.of_nat n < upstream_cap w ->
        max_properties <= Z.of_nat (length props)).
Proof.
  intros H.
  apply (while_loop_invariant (limited_step config w max_properties)
           (fun s => limited_counted s)
           (fun r => exists n : nat,
                       Z.of_nat n <= upstream_cap w
                       /\ snd r = pages_upto n
                       /\ (Z.of_nat n < upstream_cap w ->
                           max_properties <= Z.of_nat (length (fst r)))))
    with (3 := H).
  - intros s Hs. now apply limited_step_stops.
  - exists 0%nat. cbn. repeat split; lia.
Qed.

Lemma scrape_limited_pages_terminates max_properties :
  exists r,
    scrape_limited_pages config w (S (Z.to_nat (upstream_cap w)))
      max_properties = Some r.
Proof.
  pose proof (while_loop_terminates (limited_step config w max_properties)
                (limited_inv w)
                (fun s => Z.to_nat (upstream_cap w + 1 - lp_current_page s)))
    as H.
  cbv beta in H.
  assert (Hdec : forall s s', limited_inv w s ->
            limited_step config w max_properties s = inl s' ->
            limited_inv w s' /\
            (Z.to_nat (upstream_cap w + 1 - lp_current_page s') <
             Z.to_nat (upstream_cap w + 1 - lp_current_page s))%nat).
  { intros s s' Hs Hstep.
    pose proof (limited_step_inv max_properties s Hs) as Hinv.
    rewrite Hstep in Hinv. destruct Hinv as (Hs' & Hpage' & Hle).
    split; [assumption|].
    destruct Hs as (n & Hpage & _ & H0 & H1).
    destruct n as [|n];
      [rewrite H0 in * by reflexivity; unfold upstream_cap in *
      |specialize (H1 ltac:(lia))]; lia. }
  destruct (H Hdec _ limited_start_inv) as [r Hr].
  cbn [lp_current_page] in Hr.
  replace (Z.to_nat (upstream_cap w + 1 - 1))
    with (Z.to_nat (upstream_cap w)) in Hr by lia.
  exists r. exact Hr.
Qed.

End PageFacts.

(** ** The upload loop *)

Section UploadFacts.
Import Str Re Float Utils Models Parser SupabaseClient DaftScraper.
Variable db : table.

Lemma firstn_skipn_add {A} (l : list A) a b :
  firstn a l ++ firstn b (skipn a l) = firstn (a + b) l.
Proof.
  revert l. induction a as [|a IH]; intros l; [reflexivity|].
  destruct l as [|x l]; cbn; [now rewrite firstn_nil|]. now rewrite IH.
Qed.

Lemma concat_slices {A} (l : list A) m :
  concat (List.map (fun i => slice i (i + batch_size) l)
            (List.map (fun k => (k * batch_size)%nat) (seq 0 m)))
  = firstn (m * batch_size) l.
Proof.
  induction m as [|m IH]; [reflexivity|].
  rewrite seq_S, !List.map_app, concat_app, IH. cbn [List.map concat].
  rewrite app_nil_r. unfold slice.
  replace (0 + m)%nat with m by lia.
  replace (m * batch_size + batch_size - m * batch_size)%nat with batch_size by lia.
  rewrite firstn_skipn_add. f_equal. lia.
Qed.

(** Every record is in exactly one batch, in order. *)
Lemma concat_batches new_properties :
  concat (batches new_properties) = new_properties.
Proof.
  unfold batches, batch_starts. rewrite concat_slices.
  apply firstn_all2. unfold batch_size.
  pose proof (Nat.div_mod_eq (length new_properties + (100 - 1)) 100).
  pose proof (Nat.mod_upper_bound (length new_properties + (100 - 1)) 100).
  lia.
Qed.

Lemma batches_nonempty new_properties :
  Forall (fun batch => batch <> []) (batches new_properties).
Proof.
  unfold batches, batch_starts.
  rewrite List.Forall_map, List.Forall_map, List.Forall_forall.
  intros k Hk. apply in_seq in Hk. unfold slice, batch_size in *.
  pose proof (Nat.div_mod_eq (length new_properties + (100 - 1)) 100).
  pose proof (Nat.mod_upper_bound (length new_properties + (100 - 1)) 100).
  assert (Hlt : (k * 100 < length new_properties)%nat) by lia.
  intros E. apply (f_equal (@length _)) in E.
  rewrite length_firstn, length_skipn in E. cbn in E. lia.
Qed.

Lemma upload_loop_spec todo : forall k total_inserted sent,
  Forall (fun batch => batch <> []) todo ->
  upload_loop db todo k total_inserted sent =
  (total_inserted + stored_total db k todo,
   sent ++ List.map (build_data_list ∅) todo).
Proof.
  induction todo as [|batch rest IH]; intros k total sent Hne; cbn.
  - now rewrite Z.add_0_r, app_nil_r.
  - inversion Hne as [|? ? Hb Hrest]; subst.
    unfold upsert_properties_batch, stored.
    destruct batch as [|p batch]; [congruence|].
    destruct (upsert_execute db k _) as [data|e];
      rewrite IH by assumption; rewrite <- app_assoc; cbn [app]; f_equal; lia.
Qed.

Lemma upload_spec new_properties :
  upload db new_properties =
  ({| success := true;
      msg := Uploaded (stored_total db 0 (batches new_properties));
      count := stored_total db 0 (batches new_properties) |},
   List.map (build_data_list ∅) (batches new_properties)).
Proof.
  unfold upload. rewrite upload_loop_spec by apply batches_nonempty.
  reflexivity.
Qed.

End UploadFacts.

(** ** Duplicates *)

Section DedupFacts.
Import Str Re Float Utils Models Parser SupabaseClient DaftScraper.
Variable config : Config.
Variable w : site.
Variable db : table.
Variable listing_type : Models.listing_type.

Lemma build_data_list_incl l : forall seen p,
  In p (build_data_list seen l) -> In p l.
Proof.
  induction l as [|q l IH]; intros seen p H; cbn in *; [assumption|].
  destruct (l_id q) as [i|].
  - destruct (negb (i =? 0) && bool_decide (i ∈ seen)).
    + right. eapply IH; eassumption.
    + destruct H as [H|H]; [now left|right; eapply IH; eassumption].
  - destruct H as [H|H]; [now left|right; eapply IH; eassumption].
Qed.

Lemma In_skipn {A} (x : A) n l : In x (skipn n l) -> In x l.
Proof.
  revert l. induction n as [|n IH]; intros l H; [assumption|].
  destruct l; cbn in H; [contradiction|]. right. now apply IH.
Qed.

Lemma In_slice {A} (x : A) i j l : In x (slice i j l) -> In x l.
Proof.
  unfold slice. intros H. apply In_skipn with i.
  revert H. generalize (skipn i l) as l'. intros l' H.
  rewrite <- (firstn_skipn (j - i) l'). apply in_or_app. now left.
Qed.

Lemma upload_sends_new new_properties batch p :
  In batch (snd (upload db new_properties)) -> In p batch -> In p new_properties.
Proof.
  rewrite upload_spec. cbn [snd]. intros Hb Hp.
  apply in_map_iff in Hb as (b & <- & Hb).
  apply build_data_list_incl in Hp.
  unfold batches in Hb. apply in_map_iff in Hb as (i & <- & _).
  eapply In_slice; eassumption.
Qed.

(** No row that [scrape_and_upload] hands to the table carries a known id. *)
Lemma scrape_and_upload_skips_known fuel summary sent existing_ids :
  select_ids db = Ok existing_ids ->
  scrape_and_upload config w db listing_type fuel = Some (summary, sent) ->
  forall batch p i, In batch sent -> In p batch -> l_id p = Some i ->
    i ∉ existing_ids.
Proof.
  intros HK H batch p i Hb Hp Hi. unfold scrape_and_upload in H.
  destruct (scrape_all_pages config w fuel) as [[scraped fetched]|]; [|discriminate].
  inversion H as [H']. clear H. unfold upload_scraped in H'.
  destruct scraped as [|sp scraped]; [inversion H'; subst; contradiction|].
  unfold get_existing_property_ids in H'. rewrite HK in H'.
  destruct (new_listings existing_ids _) as [|q new] eqn:En;
    [inversion H'; subst; contradiction|].
  assert (Hin : In p (q :: new)).
  { eapply upload_sends_new; [|eassumption]. rewrite H'. exact Hb. }
  rewrite <- En in Hin. unfold new_listings in Hin.
  apply filter_In in Hin as [_ Hin]. rewrite Hi in Hin. cbn in Hin.
  apply negb_true_iff, bool_decide_eq_false in Hin. exact Hin.
Qed.

(** *** The processed-id set of [scrape_limited_and_upload] *)

Lemma ids_of_app a b : ids_of (a ++ b) = ids_of a ++ ids_of b.
Proof. unfold ids_of. apply flat_map_app. Qed.

Lemma keep_if_new_fresh existing_ids acc listing :
  fresh existing_ids acc -> fresh existing_ids (keep_if_new existing_ids acc listing).
Proof.
  intros ((Hnd & Hall) & Hproc). destruct acc as [new processed].
  unfold keep_if_new. destruct (l_id listing) as [i|] eqn:Hi; [|now repeat split].
  destruct (Z.eqb_spec i 0) as [E0|E0]; cbn [negb andb]; [now repeat split|].
  destruct (bool_decide (i ∈ existing_ids)) eqn:EK; cbn [negb andb]; [now repeat split|].
  destruct (bool_decide (i ∈ processed)) eqn:EP; cbn [negb andb]; [now repeat split|].
  apply bool_decide_eq_false in EK, EP. cbn [fst snd] in *.
  repeat split; cbn [fst snd].
  - rewrite ids_of_app. cbn. rewrite Hi. cbn.
    apply NoDup_app. split; [assumption|]. split.
    + intros x Hx Hx'. apply list_elem_of_In in Hx, Hx'.
      destruct Hx' as [<-|[]]. apply EP. now apply Hproc.
    + apply NoDup_cons. split; [intros H; inversion H|constructor].
  - intros p Hp. apply in_app_or in Hp as [Hp|[<-|[]]]; [now apply Hall|eauto].
  - intros j Hj. rewrite ids_of_app in Hj. cbn in Hj. rewrite Hi in Hj. cbn in Hj.
    apply in_app_or in Hj as [Hj|[<-|[]]]; [|set_solver].
    specialize (Hproc j Hj). set_solver.
Qed.

Lemma process_property_cases existing_ids acc prop :
  process_property config w listing_type existing_ids acc prop = acc
  \/ exists listing,
       process_property config w listing_type existing_ids acc prop
       = keep_if_new existing_ids acc listing.
Proof.
  unfold process_property, str_in_ids. rewrite !andb_false_r.
  destruct (_extract_property_info_from_url config (PyStr (url prop)))
    as [[[|? ?]|] [[|? ?]|]]; cbn [bind].
  all: repeat match goal with
       | |- context [detail_json w ?a ?b] =>
           destruct (detail_json w a b) as [[?|]|?]; cbn [bind]
       | |- context [transform_to_property_listing ?a ?b] =>
           destruct (transform_to_property_listing a b); cbn [bind]
       | |- context [detail_html w ?u] =>
           destruct (detail_html w u) as [[?|]|?]; cbn [bind]
       | |- context [parse_property_details ?a ?b] =>
           destruct (parse_property_details a b); cbn [bind]
       end; eauto.
Qed.

Lemma process_page_fresh existing_ids props : forall acc,
  fresh existing_ids acc ->
  fresh existing_ids
    (fold_left (process_property config w listing_type existing_ids) props acc).
Proof.
  induction props as [|prop props IH]; intros acc Hacc; [assumption|].
  cbn [fold_left]. apply IH.
  destruct (process_property_cases existing_ids acc prop) as [->|[listing ->]];
    [assumption|now apply keep_if_new_fresh].
Qed.

Lemma limited_upload_step_inv existing_ids max_pages s :
  limited_upload_inv existing_ids s ->
  match limited_upload_step config w listing_type existing_ids max_pages s with
  | inl s' => limited_upload_inv existing_ids s'
              /\ lu_current_page s' = lu_current_page s + 1
              /\ lu_current_page s <= max_pages
  | inr r => clean existing_ids (fst r)
  end.
Proof.
  intros Hs. unfold limited_upload_step.
  destruct (Z.leb_spec (lu_current_page s) max_pages) as [Hle|Hgt].
  - pose proof (process_page_fresh existing_ids
        match next_data_page w (lu_current_page s) with
        | Some next_data => listings next_data
        | None => []
        end _ Hs) as H.
    destruct (fold_left _ _ _) as [new processed].
    split; [exact H|split; [reflexivity|assumption]].
  - exact (proj1 Hs).
Qed.

Lemma limited_upload_start_inv existing_ids :
  limited_upload_inv existing_ids
    {| lu_current_page := 1; lu_new_properties := [];
       lu_processed_property_ids := ∅; lu_fetched := [] |}.
Proof.
  repeat split; cbn; try constructor; intros; contradiction.
Qed.

Lemma limited_upload_loop_clean existing_ids max_pages fuel new_properties fetched :
  while_loop fuel (limited_upload_step config w listing_type existing_ids max_pages)
    {| lu_current_page := 1; lu_new_properties := [];
       lu_processed_property_ids := ∅; lu_fetched := [] |}
  = Some (new_properties, fetched) ->
  clean existing_ids new_properties.
Proof.
  intros H.
  apply (while_loop_invariant
           (limited_upload_step config w listing_type existing_ids max_pages)
           (limited_upload_inv existing_ids)
           (fun r => clean existing_ids (fst r)))
    with (3 := H); [|apply limited_upload_start_inv].
  intros s Hs. pose proof (limited_upload_step_inv existing_ids max_pages s Hs) as Hstep.
  destruct (limited_upload_step _ _ _ _ _ _); tauto.
Qed.

Lemma limited_upload_loop_terminates existing_ids max_pages :
  exists r,
    while_loop (S (Z.to_nat max_pages))
      (limited_upload_step config w listing_type existing_ids max_pages)
      {| lu_current_page := 1; lu_new_properties := [];
         lu_processed_property_ids := ∅; lu_fetched := [] |}
    = Some r.
Proof.
  pose proof (while_loop_terminates
                (limited_upload_step config w listing_type existing_ids max_pages)
                (limited_upload_inv existing_ids)
                (fun s => Z.to_nat (max_pages + 1 - lu_current_page s))) as H.
  cbv beta in H.
  assert (Hdec : forall s s', limited_upload_inv existing_ids s ->
            limited_upload_step config w listing_type existing_ids max_pages s = inl s' ->
            limited_upload_inv existing_ids s' /\
            (Z.to_nat (max_pages + 1 - lu_current_page s') <
             Z.to_nat (max_pages + 1 - lu_current_page s))%nat).
  { intros s s' Hs Hstep.
    pose proof (limited_upload_step_inv existing_ids max_pages s Hs) as Hinv.
    rewrite Hstep in Hinv. destruct Hinv as (Hs' & Hpage' & Hle).
    split; [assumption|lia]. }
  destruct (H Hdec _ (limited_upload_start_inv existing_ids)) as [r Hr].
  cbn [lu_current_page] in Hr.
  replace (Z.to_nat (max_pages + 1 - 1)) with (Z.to_nat max_pages) in Hr by lia.
  exists r. exact Hr.
Qed.

Lemma scrape_limited_and_upload_terminates max_pages :
  exists r,
    scrape_limited_and_upload config w db listing_type (S (Z.to_nat max_pages)) max_pages
    = Some r.
Proof.
  unfold scrape_limited_and_upload.
  destruct (get_existing_property_ids db) as [existing_ids|e]; [|eauto].
  destruct (limited_upload_loop_terminates existing_ids max_pages) as [[new fetched] ->].
  eauto.
Qed.

(** A batch free of repeated and of missing ids goes to the table as it is. *)
Lemma build_data_list_clean existing_ids l : forall seen,
  clean existing_ids l -> (forall i, In i (ids_of l) -> i ∉ seen) ->
  build_data_list seen l = l.
Proof.
  induction l as [|p l IH]; intros seen [Hnd Hall] Hseen; [reflexivity|].
  cbn [build_data_list].
  destruct (Hall p ltac:(now left)) as (i & Hi & Hi0 & _). rewrite Hi.
  cbn [ids_of flat_map] in Hnd, Hseen. rewrite Hi in Hnd, Hseen. cbn [app] in Hnd, Hseen.
  apply NoDup_cons in Hnd as [Hni Hnd].
  rewrite (bool_decide_eq_false_2 (i ∈ seen)) by (apply Hseen; now left).
  rewrite andb_false_r. f_equal.
  rewrite (proj2 (Z.eqb_neq i 0)) by assumption.
  apply IH.
  - split; [assumption|]. intros q Hq. apply Hall. now right.
  - intros j Hj. specialize (Hseen j ltac:(now right)).
    assert (j <> i). { intros ->. apply Hni. now apply list_elem_of_In. }
    set_solver.
Qed.

Lemma ids_of_firstn_skipn n l : ids_of l = ids_of (firstn n l) ++ ids_of (skipn n l).
Proof. now rewrite <- ids_of_app, firstn_skipn. Qed.

Lemma clean_firstn existing_ids n l : clean existing_ids l -> clean existing_ids (firstn n l).
Proof.
  intros [Hnd Hall]. split.
  - rewrite (ids_of_firstn_skipn n l) in Hnd. now apply NoDup_app in Hnd as [? _].
  - intros p Hp. apply Hall. rewrite <- (firstn_skipn n l). apply in_or_app. now left.
Qed.

Lemma clean_skipn existing_ids n l : clean existing_ids l -> clean existing_ids (skipn n l).
Proof.
  intros [Hnd Hall]. split.
  - rewrite (ids_of_firstn_skipn n l) in Hnd. now apply NoDup_app in Hnd as (_ & _ & ?).
  - intros p Hp. apply Hall. rewrite <- (firstn_skipn n l). apply in_or_app. now right.
Qed.

Lemma upload_clean existing_ids new_properties :
  clean existing_ids new_properties ->
  concat (snd (upload db new_properties)) = new_properties.
Proof.
  intros Hclean. rewrite upload_spec. cbn [snd].
  rewrite <- (concat_batches new_properties) at 2. f_equal.
  rewrite <- (List.map_id (batches new_properties)) at 2.
  apply map_ext_in. intros batch Hb.
  apply (build_data_list_clean existing_ids); [|set_solver].
  unfold batches in Hb. apply in_map_iff in Hb as (i & <- & _).
  unfold slice. now apply clean_firstn, clean_skipn.
Qed.

(** The rows [scrape_limited_and_upload] hands to the table: each has
    an id, no id is known, and no id comes twice in the run. *)
Lemma scrape_limited_and_upload_unique fuel max_pages summary sent existing_ids :
  select_ids db = Ok existing_ids ->
  scrape_limited_and_upload config w db listing_type fuel max_pages
    = Some (summary, sent) ->
  NoDup (ids_of (concat sent))
  /\ forall p, In p (concat sent) ->
       exists i, l_id p = Some i /\ i <> 0 /\ i ∉ existing_ids.
Proof.
  intros HK H. unfold scrape_limited_and_upload, get_existing_property_ids in H.
  rewrite HK in H.
  destruct (while_loop _ _ _) as [[new fetched]|] eqn:Eloop; [|discriminate].
  apply limited_upload_loop_clean in Eloop.
  destruct new as [|p new].
  - inversion H; subst. cbn. split; [constructor|contradiction].
  - inversion H as [H']. clear H.
    pose proof (upload_clean existing_ids (p :: new) Eloop) as Hc.
    rewrite H' in Hc. cbn [snd] in Hc. rewrite Hc. exact Eloop.
Qed.

End DedupFacts.

(** ** The runs *)

Section RunFacts.
Import Str Re Float Utils Models Parser SupabaseClient DaftScraper Examples.

Lemma scrape_and_upload_terminates config w db listing_type :
  exists r,
    scrape_and_upload config w db listing_type
      (S (Z.to_nat (page_cap config))) = Some r.
Proof.
  unfold scrape_and_upload.
  destruct (scrape_all_pages_terminates config w) as [[props fetched] ->].
  eauto.
Qed.

(** C6.  Both runs return, given fuel for their page loop.  A run
    that has new records cuts them into batches and hands every batch
    to the table, in order, whichever upserts raise: the rows sent are
    those of all the batches of the run's new records, which are the
    scraped listings with an unknown id for [scrape_and_upload] and
    what the page loop collected for [scrape_limited_and_upload].  The
    summary reports success, and its count adds up what the upserts
    that did not raise stored ([stored] counts 0 for one that
    raises). *)
Theorem failed_batch_is_skipped config w db listing_type max_pages :
  (exists r,
     scrape_and_upload config w db listing_type
       (S (Z.to_nat (page_cap config))) = Some r)
  /\ (exists r,
        scrape_limited_and_upload config w db listing_type
          (S (Z.to_nat max_pages)) max_pages = Some r)
  /\ (forall fuel scraped_properties fetched existing_ids,
        scrape_all_pages config w fuel = Some (scraped_properties, fetched) ->
        get_existing_property_ids db = Ok existing_ids ->
        let new_properties :=
          new_listings existing_ids
            (transform_all listing_type scraped_properties) in
        new_properties <> [] ->
        scrape_and_upload config w db listing_type fuel
        = Some ({| success := true;
                   msg := Uploaded
                            (stored_total db 0 (batches new_properties));
                   count := stored_total db 0 (batches new_properties) |},
                List.map (build_data_list ∅) (batches new_properties)))
  /\ (forall fuel existing_ids new_properties fetched,
        get_existing_property_ids db = Ok existing_ids ->
        while_loop fuel
          (limited_upload_step config w listing_type existing_ids max_pages)
          {| lu_current_page := 1; lu_new_properties := [];
             lu_processed_property_ids := ∅; lu_fetched := [] |}
        = Some (new_properties, fetched) ->
        new_properties <> [] ->
        scrape_limited_and_upload config w db listing_type fuel max_pages
        = Some ({| success := true;
                   msg := Uploaded
                            (stored_total db 0 (batches new_properties));
                   count := stored_total db 0 (batches new_properties) |},
                List.map (build_data_list ∅) (batches new_properties))).
Proof.
  split; [apply scrape_and_upload_terminates|].
  split; [apply scrape_limited_and_upload_terminates|].
  split.
  - intros fuel scraped fetched existing_ids Hscrape Hids new_properties Hne.
    unfold scrape_and_upload. rewrite Hscrape. f_equal.
    unfold upload_scraped.
    destruct scraped as [|sp scraped]; [now contradiction Hne|].
    rewrite Hids. fold new_properties.
    destruct new_properties as [|q new]; [now contradiction Hne|].
    apply upload_spec.
  - intros fuel existing_ids new_properties fetched Hids Hloop Hne.
    unfold scrape_limited_and_upload. rewrite Hids, Hloop. f_equal.
    destruct new_properties as [|q new]; [now contradiction Hne|].
    apply upload_spec.
Qed.

(** Thirteen pages of twenty new listings make three batches, of 100,
    100 and 60; the second upsert raises; all three batches are sent
    and the count is 160. *)
Lemma failed_batch_is_skipped_witness :
  exists new_properties fetched,
    while_loop 14
      (limited_upload_step (config_with 5) million_results_site rent ∅ 13)
      {| lu_current_page := 1; lu_new_properties := [];
         lu_processed_property_ids := ∅; lu_fetched := [] |}
    = Some (new_properties, fetched)
    /\ List.map (@length PropertyListing) (batches new_properties)
       = [100; 100; 60]%nat
    /\ stored_total second_upsert_fails 0 (batches new_properties) = 160
    /\ scrape_limited_and_upload (config_with 5) million_results_site
         second_upsert_fails rent 14 13
       = Some ({| success := true;
                  msg := Uploaded
                           (stored_total second_upsert_fails 0
                              (batches new_properties));
                  count := stored_total second_upsert_fails 0
                             (batches new_properties) |},
               List.map (build_data_list ∅) (batches new_properties)).
Proof.
  eexists. eexists.
  split; [vm_compute; reflexivity|].
  split; [vm_compute; reflexivity|].
  split; [vm_compute; reflexivity|].
  eapply (proj2 (proj2 (proj2 (failed_batch_is_skipped (config_with 5)
                                 million_results_site second_upsert_fails
                                 rent 13)))
            14%nat (∅ : gset Z));
    [reflexivity|vm_compute; reflexivity|discriminate].
Defined.

(** C3.  With the markup count, the page total is at most the
    configured maximum (1 when that is below 1), and a full run asks
    for result pages 1 to n of one pass, n within that bound, after at
    most one abandoned request of page 1.  With the structured
    payload, the limited run asks for pages 1 to n, n within the
    [totalPages] of the first payload (1 when that is below 1), and
    it stops below that only when the records it returns fill its
    budget: the configured maximum plays no part there.  Both runs
    return, given fuel for their bound. *)
Theorem pages_fetched_bounds config w :
  (forall html total_pages,
     get_total_pages config html = Ok total_pages ->
     total_pages <= Z.max 1 (MAX_PAGES_TO_FETCH config))
  /\ (exists r,
        scrape_all_pages config w (S (Z.to_nat (page_cap config))) = Some r)
  /\ (forall fuel props fetched,
        scrape_all_pages config w fuel = Some (props, fetched) ->
        exists n : nat,
          (1 <= n)%nat /\ Z.of_nat n <= Z.max 1 (MAX_PAGES_TO_FETCH config)
          /\ (fetched = List.map (pair true) (pages_upto n)
              \/ fetched
                 = (true, 1) :: List.map (pair false) (pages_upto n)))
  /\ (forall max_properties,
        exists r,
          scrape_limited_pages config w (S (Z.to_nat (upstream_cap w)))
            max_properties = Some r)
  /\ (forall fuel max_properties props fetched,
        scrape_limited_pages config w fuel max_properties
          = Some (props, fetched) ->
        exists n : nat,
          Z.of_nat n <= Z.max 1 (upstream_total_pages w)
          /\ fetched = pages_upto n
          /\ (Z.of_nat n < Z.max 1 (upstream_total_pages w) ->
              max_properties <= Z.of_nat (length props))).
Proof.
  split; [intros html t Ht; exact (get_total_pages_capped config html t Ht)|].
  split; [apply scrape_all_pages_terminates|].
  split; [intros fuel props fetched H;
          exact (scrape_all_pages_fetched config w fuel props fetched H)|].
  split; [intros max_properties; apply scrape_limited_pages_terminates|].
  intros fuel max_properties props fetched H.
  exact (scrape_limited_pages_stops config w fuel max_properties
           props fetched H).
Qed.

(** Of six result pages, a full run with maximum 5 asks for five. *)
Lemma pages_fetched_bounds_witness :
  exists props fetched,
    scrape_all_pages default_config moved_listing_site 6
      = Some (props, fetched)
    /\ fetched = List.map (pair true) [1; 2; 3; 4; 5]
    /\ exists n : nat,
         (1 <= n)%nat /\ Z.of_nat n <= 5
         /\ (fetched = List.map (pair true) (pages_upto n)
             \/ fetched
                = (true, 1) :: List.map (pair false) (pages_upto n)).
Proof.
  eexists. eexists.
  split; [vm_compute; reflexivity|].
  split; [reflexivity|].
  eapply (proj1 (proj2 (proj2
            (pages_fetched_bounds default_config moved_listing_site)))
            6%nat).
  vm_compute. reflexivity.
Defined.

(** Of 50,000 pages announced, the limited run with a budget of 200
    records asks for ten and returns 200 records: it stops below the
    announced total with its budget filled. *)
Example limited_run_stops_on_budget :
  exists props fetched (n : nat),
    scrape_limited_pages default_config million_results_site 11 200
      = Some (props, fetched)
    /\ fetched = pages_upto n
    /\ Z.of_nat n = 10
    /\ Z.max 1 (upstream_total_pages million_results_site) = 50000
    /\ 200 <= Z.of_nat (length props).
Proof.
  eexists. eexists. exists 10%nat.
  split; [vm_compute; reflexivity|].
  repeat split; vm_compute; congruence.
Qed.

(** With maximum 5 and a budget of 200 records, the limited run asks
    an upstream of 50,000 pages for ten of them. *)
Lemma limited_pages_exceed_configured_maximum :
  MAX_PAGES_TO_FETCH default_config = 5
  /\ exists props,
       scrape_limited_pages default_config million_results_site 11 200
         = Some (props, [1; 2; 3; 4; 5; 6; 7; 8; 9; 10])
       /\ length props = 200%nat.
Proof.
  split; [reflexivity|].
  eexists. split; [vm_compute; reflexivity|reflexivity].
Qed.

(** C2.  [scrape_and_upload] hands the table one id twice: of 120
    candidates on six pages, the one at the head of page 1 comes again
    at the head of page 6; no id is known.  The second batch starts
    with id 1, which the first batch holds, and the count is 120. *)
Theorem scrape_and_upload_sends_an_id_twice :
  exists summary sent,
    scrape_and_upload (config_with 6) moved_listing_site empty_table rent 7
      = Some (summary, sent)
    /\ List.map ids_of sent
       = [List.map Z.of_nat (seq 1 100);
          1 :: List.map Z.of_nat (seq 102 19)]
    /\ count summary = 120.
Proof.
  eexists. eexists.
  split; [vm_compute; reflexivity|].
  split; reflexivity.
Qed.

(** On the same input the limited run hands over 119 rows, id 1
    once. *)
Example scrape_limited_and_upload_sends_id_once :
  exists summary sent,
    scrape_limited_and_upload (config_with 6) moved_listing_payloads
      empty_table rent 7 6 = Some (summary, sent)
    /\ List.map ids_of sent
       = [List.map Z.of_nat (seq 1 100); List.map Z.of_nat (seq 102 19)]
    /\ count summary = 119.
Proof.
  eexists. eexists.
  split; [vm_compute; reflexivity|].
  split; reflexivity.
Qed.

End RunFacts.

(** ** Instances *)

Section Instances.
Import Str Re Float Utils Models Parser SupabaseClient DaftScraper Examples.

(** Five pages of twenty, ids 1 to 3 known: 97 rows go to the table,
    none with a known id. *)
Lemma scrape_and_upload_skips_known_witness :
  exists summary sent,
    scrape_and_upload default_config moved_listing_site
      (table_knowing [1; 2; 3]) rent 6 = Some (summary, sent)
    /\ count summary = 97
    /\ forall batch p i,
         In batch sent -> In p batch -> l_id p = Some i ->
         i ∉ (list_to_set [1; 2; 3] : gset Z).
Proof.
  eexists. eexists.
  split; [vm_compute; reflexivity|].
  split; [reflexivity|].
  eapply (scrape_and_upload_skips_known default_config moved_listing_site
            (table_knowing [1; 2; 3]) rent 6);
    [reflexivity|vm_compute; reflexivity].
Defined.

(** Six payloads whose last repeats the first listing: the rows of
    the limited run carry pairwise different ids. *)
Lemma scrape_limited_and_upload_unique_witness :
  exists summary sent,
    scrape_limited_and_upload (config_with 6) moved_listing_payloads
      empty_table rent 7 6 = Some (summary, sent)
    /\ length (concat sent) = 119%nat
    /\ NoDup (ids_of (concat sent))
    /\ forall p, In p (concat sent) ->
         exists i, l_id p = Some i /\ i <> 0 /\ i ∉ (∅ : gset Z).
Proof.
  eexists. eexists.
  split; [vm_compute; reflexivity|].
  split; [reflexivity|].
  eapply (scrape_limited_and_upload_unique (config_with 6)
            moved_listing_payloads empty_table rent 7 6);
    [reflexivity|vm_compute; reflexivity].
Defined.

(** A million results, maximum 5. *)
Lemma get_total_pages_formula_witness :
  lit "1000000" <> []
  /\ forallb is_digit (lit "1000000") = true
  /\ get_total_pages default_config
       {| total_results_elem := Some (lit "of 1000000 total results");
          search_results := [] |}
     = Ok 5.
Proof.
  split; [discriminate|]. split; [reflexivity|].
  apply (get_total_pages_formula default_config
           {| total_results_elem := Some (lit "of 1000000 total results");
              search_results := [] |}
           (lit "1000000"));
    [discriminate|reflexivity|reflexivity].
Defined.

End Instances.

(** ** More on strings and patterns *)

Section StrMore.
Import Str.

Lemma class_lacks (p : char -> bool) c s :
  p c = false -> forallb p s = true -> ~ In c s.
Proof.
  intros Hc Hs Hin. rewrite forallb_forall in Hs.
  rewrite (Hs c Hin) in Hc. discriminate.
Qed.

Lemma lower_fixed s :
  forallb (fun c => negb (is_upper c)) s = true -> lower s = s.
Proof.
  induction s as [|c s IH]; [reflexivity|]. cbn.
  intros H. apply andb_true_iff in H as [Hc Hs].
  unfold lower_char. apply negb_true_iff in Hc. rewrite Hc.
  f_equal. now apply IH.
Qed.

Lemma lower_idempotent s : lower (lower s) = lower s.
Proof.
  apply lower_fixed. unfold lower. rewrite forallb_forall.
  intros c Hc. apply in_map_iff in Hc as (a & <- & _).
  unfold lower_char, is_upper. char_cases.
Qed.

Lemma is_digit_lower c : is_digit (lower_char c) = is_digit c.
Proof. unfold lower_char, is_upper, is_digit. char_cases. Qed.

(** Removing a one-character string is filtering. *)
Lemma replace_from_char c s :
  replace_from [c] [] 0 s = List.filter (fun a => negb (a =? c)%N) s.
Proof.
  induction s as [|a s IH]; [reflexivity|].
  cbn [replace_from starts_with length Nat.pred List.filter].
  rewrite andb_true_r, (N.eqb_sym c a).
  destruct (a =? c)%N; cbn [negb app]; now rewrite IH.
Qed.

(** Swapping one character for another is mapping. *)
Lemma replace_from_swap c d s :
  replace_from [c] [d] 0 s
  = List.map (fun a => if (a =? c)%N then d else a) s.
Proof.
  induction s as [|a s IH]; [reflexivity|].
  cbn [replace_from starts_with length Nat.pred List.map].
  rewrite andb_true_r, (N.eqb_sym c a).
  destruct (a =? c)%N; cbn [app]; now rewrite IH.
Qed.

Lemma replace_from_skip old new pre : forall s,
  replace_from old new (length pre) (pre ++ s) = replace_from old new 0 s.
Proof.
  induction pre as [|c pre IH]; intros s; [reflexivity|].
  cbn [length app replace_from]. apply IH.
Qed.

Lemma replace_from_absent_str old new s :
  old <> [] -> contains old s = false -> replace_from old new 0 s = s.
Proof.
  intros Hold. induction s as [|c s IH]; [reflexivity|].
  cbn [contains replace_from]. intros H.
  apply orb_false_iff in H as [H1 H2]. rewrite H1. f_equal. now apply IH.
Qed.

(** The first occurrence, at the head. *)
Lemma replace_head old new s :
  old <> [] ->
  replace old new (old ++ s) = new ++ replace old new s.
Proof.
  intros Hold. destruct old as [|c old]; [congruence|].
  unfold replace. cbn [app replace_from].
  change (c :: old ++ s) with ((c :: old) ++ s).
  rewrite starts_with_app. cbn [length Nat.pred].
  now rewrite replace_from_skip.
Qed.

Lemma replace_absent old new s :
  old <> [] -> contains old s = false -> replace old new s = s.
Proof.
  intros Hold H. destruct old as [|c old]; [congruence|].
  unfold replace. now apply replace_from_absent_str.
Qed.

Lemma drop_while_stops p s :
  match s with c :: _ => p c = false | [] => True end ->
  drop_while p s = s.
Proof. destruct s as [|c s]; [reflexivity|]. cbn. now intros ->. Qed.

End StrMore.

Section ReMore.
Import Str Re.

(** Failure: a pattern fails when what follows it fails on every
    suffix of the input. *)
Lemma star_none {A} p (k : str -> option A) : forall s,
  (forall s', suffix s' s -> k s' = None) -> star p k s = None.
Proof.
  induction s as [|c s IH]; intros Hk; cbn [star].
  - apply Hk. reflexivity.
  - rewrite IH.
    2:{ intros s' Hs'. apply Hk. now apply suffix_cons_r. }
    rewrite Hk by reflexivity. now destruct (p c).
Qed.

Lemma run_none {A} r : forall s g (k : str -> groups -> option A),
  (forall s' g', suffix s' s -> k s' g' = None) -> run r s g k = None.
Proof.
  induction r as [|p|r1 IH1 r2 IH2|r1 IH1 r2 IH2|r1 IH1|p|n r1 IH1];
    intros s g k Hk; cbn [run].
  - apply Hk. reflexivity.
  - destruct s as [|c s]; [reflexivity|].
    destruct (p c); [|reflexivity]. apply Hk. apply suffix_cons_r. reflexivity.
  - apply IH1. intros s1 g1 Hs1. apply IH2. intros s2 g2 Hs2.
    apply Hk. now transitivity s1.
  - rewrite IH1 by assumption. now apply IH2.
  - rewrite IH1 by assumption. apply Hk. reflexivity.
  - apply star_none. intros s' Hs'. now apply Hk.
  - apply IH1. intros s' g' Hs'. now apply Hk.
Qed.

Lemma search_none r : forall s,
  (forall t, suffix t s -> match_here r t = None) -> search r s = None.
Proof.
  induction s as [|c s IH]; intros H; cbn [search].
  - now rewrite H by reflexivity.
  - rewrite H by reflexivity. apply IH. intros t Ht. apply H.
    now apply suffix_cons_r.
Qed.

(** A pattern that starts with a character of class [p] finds nothing
    in a string without one. *)
Lemma search_needs_first p r : forall s,
  forallb (fun c => negb (p c)) s = true ->
  search (Seq (Cls p) r) s = None.
Proof.
  induction s as [|c s IH]; [reflexivity|]. cbn [forallb].
  intros H. apply andb_true_iff in H as [Hc Hs].
  cbn [search]. unfold match_here at 1. cbn [run].
  apply negb_true_iff in Hc. rewrite Hc. now apply IH.
Qed.

(** The search passes over a stretch where the pattern cannot start. *)
Lemma search_skip r pre s :
  (forall c t, In c pre -> match_here r (c :: t) = None) ->
  search r (pre ++ s) = search r s.
Proof.
  intros H. induction pre as [|c pre IH]; [reflexivity|].
  cbn [app search]. rewrite H by now left.
  apply IH. intros a t Ha. apply H. now right.
Qed.

Lemma suffix_In {A} (c : A) t s : suffix (c :: t) s -> In c s.
Proof. intros [pre ->]. apply in_or_app. right. now left. Qed.

End ReMore.

(** ** core/utils.py: counts *)

Section CountFacts.
Import Str Re Float Utils.

Lemma search_needs_digit n r : forall s,
  forallb (fun c => negb (is_digit c)) s = true ->
  search (Seq (Grp n (Plus is_digit)) r) s = None.
Proof.
  induction s as [|c s IH]; [reflexivity|]. cbn [forallb].
  intros H. apply andb_true_iff in H as [Hc Hs].
  cbn [search]. unfold match_here at 1, Plus. cbn [run].
  apply negb_true_iff in Hc. rewrite Hc. now apply IH.
Qed.

Lemma lower_no_digit s :
  forallb (fun c => negb (is_digit c)) s = true ->
  forallb (fun c => negb (is_digit c)) (lower s) = true.
Proof.
  unfold lower. rewrite !forallb_forall. intros H c Hc.
  apply in_map_iff in Hc as (a & <- & Ha). rewrite is_digit_lower. auto.
Qed.

(** The single-count patterns on ["N bed"] and ["N bath"]. *)
Lemma beds_single N :
  N <> [] -> forallb is_digit N = true ->
  search beds_single_re (N ++ lit " " ++ lit "bed") = Some [(1%nat, N)].
Proof.
  intros HN HdN. apply search_here. unfold match_here, beds_single_re.
  apply run_Seq_intro, run_Grp_Plus_app; [assumption..|reflexivity|].
  apply run_Seq_intro, run_Star_app; [reflexivity..|].
  rewrite <- (app_nil_r (lit "bed")). now apply run_Lit_app.
Qed.

Lemma bath_match pre N post :
  N <> [] -> forallb is_digit N = true ->
  forallb (fun c => negb (is_digit c)) pre = true ->
  search bath_re (pre ++ N ++ lit " " ++ lit "bath" ++ post)
  = Some [(1%nat, N)].
Proof.
  intros HN HdN Hpre. rewrite search_skip.
  - apply search_here. unfold match_here, bath_re.
    apply run_Seq_intro, run_Grp_Plus_app; [assumption..|reflexivity|].
    apply run_Seq_intro, run_Star_app; [reflexivity..|].
    now apply run_Lit_app.
  - intros c t Hc. rewrite forallb_forall in Hpre.
    specialize (Hpre c Hc). apply negb_true_iff in Hpre.
    unfold match_here, bath_re, Plus. cbn [run]. now rewrite Hpre.
Qed.

(** The range pattern finds nothing in ["N bed"]: after the digits
    and blanks comes neither ["to"] nor a hyphen. *)
Lemma beds_range_none N :
  forallb is_digit N = true ->
  search beds_range_re (N ++ lit " " ++ lit "bed") = None.
Proof.
  intros HdN. apply search_none. intros t Ht.
  unfold match_here, beds_range_re. cbn [run].
  apply run_none. intros s1 g1 Hs1.
  apply star_none. intros s2 Hs2.
  assert (Hs : suffix s2 (N ++ lit " " ++ lit "bed")).
  { transitivity s1; [assumption|]. now transitivity t. }
  destruct s2 as [|c s2]; [reflexivity|].
  apply suffix_In in Hs. rewrite !in_app_iff in Hs.
  assert (Hc : (116 =? c)%N = false /\ (hyphen =? c)%N = false).
  { destruct Hs as [Hs|[Hs|Hs]].
    - rewrite forallb_forall in HdN. specialize (HdN c Hs).
      unfold is_digit, hyphen in *. char_cases.
    - cbn in Hs. destruct Hs as [<-|[]]. now vm_compute.
    - cbn in Hs. destruct Hs as [<-|[<-|[<-|[]]]]; now vm_compute. }
  destruct Hc as [Ht' Hh]. cbv beta. cbn [run].
  rewrite run_Lit_mismatch.
  2:{ change (starts_with (lit "to") (c :: s2))
        with ((116 =? c)%N && starts_with (lit "o") s2).
      now rewrite Ht'. }
  unfold Chr. cbn [run]. now rewrite Hh.
Qed.

(** ["N Bed"] is N bedrooms, and ["... N Bath ..."], with no digit
    before N, is N bathrooms. *)
Theorem single_counts (N pre post : str) :
  N <> [] -> forallb is_digit N = true ->
  forallb (fun c => negb (is_digit c)) pre = true ->
  parse_beds (PyStr (N ++ lit " Bed"))
    = Ok (Some {| min := digits_val N; max := digits_val N;
                  is_studio := false |})
  /\ parse_bathrooms (PyStr (pre ++ N ++ lit " Bath" ++ post))
     = Ok (Some (digits_val N)).
Proof.
  intros HN HdN Hpre. split.
  - unfold parse_beds.
    destruct (N ++ lit " Bed") as [|c0 s0] eqn:Es.
    { destruct N; [congruence|discriminate]. }
    rewrite <- Es.
    assert (El : lower (N ++ lit " Bed") = N ++ lit " " ++ lit "bed").
    { rewrite lower_app, (lower_digits N) by assumption. reflexivity. }
    rewrite El.
    rewrite (contains_missing_char 115%N (lit "studio")).
    2:{ cbn. tauto. }
    2:{ rewrite !in_app_iff. intros [H|[H|H]].
        - revert H. now apply digits_lack.
        - revert H. now apply not_in_lit.
        - revert H. now apply not_in_lit. }
    rewrite beds_range_none by assumption. cbn [except_ValueError_pass bind].
    rewrite beds_single by assumption.
    cbn [group_text group Nat.eqb bind].
    rewrite py_int_digits by assumption. reflexivity.
  - unfold parse_bathrooms.
    destruct (pre ++ N ++ lit " Bath" ++ post) as [|c0 s0] eqn:Es.
    { apply app_eq_nil in Es as [_ Es]. destruct N; [congruence|discriminate]. }
    rewrite <- Es.
    assert (El : lower (pre ++ N ++ lit " Bath" ++ post)
                 = lower pre ++ N ++ lit " " ++ lit "bath" ++ lower post).
    { rewrite !lower_app, (lower_digits N) by assumption. reflexivity. }
    rewrite El, bath_match; [|assumption..|now apply lower_no_digit].
    cbn [group_text group Nat.eqb bind].
    rewrite py_int_digits by assumption. reflexivity.
Qed.

Lemma py_int_nonneg s z : py_int s = Ok z -> 0 <= z.
Proof.
  unfold py_int, isdigit. destruct s as [|c s]; [discriminate|].
  destruct (forallb is_digit (c :: s)) eqn:E; [|discriminate].
  intros [= <-]. now apply digits_val_nonneg.
Qed.

Lemma bind_Ok {A B} (c : result A) (f : A -> result B) b :
  bind c f = Ok b -> exists a, c = Ok a /\ f a = Ok b.
Proof. destruct c as [a|e]; [eauto|discriminate]. Qed.

Lemma except_ValueError_pass_Some {A} (body : result (option A)) a :
  except_ValueError_pass body = Ok (Some a) -> body = Ok (Some a).
Proof. destruct body as [o|[]]; cbn; congruence. Qed.

(** Whatever the input, a bedroom result has [0 <= min <= max], a
    studio is one to one bedroom, and a bathroom count is not
    negative. *)
Theorem parsed_counts_are_ordered (v : pyval) :
  (forall r, parse_beds v = Ok (Some r) ->
     0 <= min r <= max r
     /\ (is_studio r = true -> min r = 1 /\ max r = 1))
  /\ (forall n, parse_bathrooms v = Ok (Some n) -> 0 <= n).
Proof.
  split.
  - intros r. destruct v as [|[|c s]| |]; cbn [parse_beds]; try discriminate.
    destruct (contains _ _); [intros [= <-]; cbn; lia|].
    intros H. apply bind_Ok in H as ([r1|] & H1 & H).
    + inversion H; subst. apply except_ValueError_pass_Some in H1.
      destruct (search beds_range_re _) as [m|]; [|discriminate].
      apply bind_Ok in H1 as (t1 & _ & H1).
      apply bind_Ok in H1 as (z1 & E1 & H1).
      apply bind_Ok in H1 as (t2 & _ & H1).
      apply bind_Ok in H1 as (z2 & E2 & H1).
      inversion H1; subst. cbn.
      apply py_int_nonneg in E1, E2. split; [lia|discriminate].
    + apply except_ValueError_pass_Some in H.
      destruct (search beds_single_re _) as [m|]; [|discriminate].
      apply bind_Ok in H as (t & _ & H).
      apply bind_Ok in H as (z & E & H).
      inversion H; subst. cbn.
      apply py_int_nonneg in E. split; [lia|discriminate].
  - intros n. destruct v as [|[|c s]| |]; cbn [parse_bathrooms];
      try discriminate.
    intros H. apply except_ValueError_pass_Some in H.
    destruct (search bath_re _) as [m|]; [|discriminate].
    apply bind_Ok in H as (t & _ & H).
    apply bind_Ok in H as (z & E & H).
    inversion H; subst. now apply py_int_nonneg in E.
Qed.

(** Without a digit there is no count: no bathrooms, and no bedrooms
    unless the string says studio. *)
Theorem counts_need_digits (s : str) :
  forallb (fun c => negb (is_digit c)) s = true ->
  parse_bathrooms (PyStr s) = Ok None
  /\ (contains (lit "studio") (lower s) = false ->
      parse_beds (PyStr s) = Ok None).
Proof.
  intros Hs. apply lower_no_digit in Hs.
  destruct s as [|c s]; [split; reflexivity|]. split.
  - unfold parse_bathrooms, bath_re. now rewrite search_needs_digit.
  - intros Hstudio. unfold parse_beds, beds_range_re, beds_single_re.
    rewrite Hstudio. now rewrite !search_needs_digit.
Qed.

End CountFacts.

(** ** core/utils.py: prices *)

Section PriceFacts.
Import Str Re Float Utils Models DaftScraper.

(** A string that says "price on application" or "contact agent", in
    any case and with any text around, is a price on application,
    whatever amount the text also holds. *)
Theorem price_on_application (pre mid post : str) :
  lower mid = lit "price on application" \/ lower mid = lit "contact agent" ->
  parse_price (PyStr (pre ++ mid ++ post))
    = Ok {| value := None; type := on_application |}.
Proof.
  intros Hmid. unfold parse_price.
  destruct (pre ++ mid ++ post) as [|c s] eqn:E.
  { apply app_eq_nil in E as [_ E]. apply app_eq_nil in E as [-> _].
    destruct Hmid; discriminate. }
  rewrite <- E, !lower_app.
  destruct Hmid as [-> | ->]; rewrite contains_app;
    [reflexivity|now rewrite orb_true_r].
Qed.

(** Digits and thousands separators. *)
Abbreviation amount_char := (fun c : char => is_digit c || (c =? comma)%N).

Lemma amount_not_space c : amount_char c = true -> is_space c = false.
Proof. unfold is_digit, is_space, comma. char_cases. Qed.

Lemma amount_not_upper X :
  forallb amount_char X = true ->
  forallb (fun c => negb (is_upper c)) X = true.
Proof.
  rewrite !forallb_forall. intros H c Hc. specialize (H c Hc).
  unfold is_digit, is_upper, comma in *. char_cases.
Qed.

Lemma amount_digits X :
  forallb amount_char X = true ->
  replace (lit ",") [] X = List.filter is_digit X.
Proof.
  intros H. unfold replace. cbn [lit List.map list_ascii_of_string].
  change (N_of_ascii ",") with comma.
  rewrite replace_from_char. apply filter_ext_in.
  intros c Hc. rewrite forallb_forall in H. specialize (H c Hc).
  unfold is_digit, comma in *. char_cases.
Qed.

Lemma filter_digits X : forallb is_digit (List.filter is_digit X) = true.
Proof.
  rewrite forallb_forall. intros c Hc. now apply filter_In in Hc.
Qed.

Lemma stops_amount (p : char -> bool) X rest :
  X <> [] -> forallb amount_char X = true ->
  (forall c, amount_char c = true -> p c = false) -> stops p (X ++ rest).
Proof.
  intros HX HdX Hp. destruct X as [|c X]; [congruence|].
  cbn in *. apply andb_true_iff in HdX as [Hc _]. auto.
Qed.

(** The price pattern on ["€X per month"] and on ["€X"]. *)
Lemma price_re_monthly X :
  X <> [] -> forallb amount_char X = true ->
  search price_re (euro :: X ++ lit " " ++ lit "per" ++ lit " " ++ lit "month")
  = Some [(2%nat, lit "month"); (1%nat, X)].
Proof.
  intros HX HdX. apply search_here. unfold match_here, price_re.
  apply run_Seq_intro, run_Opt_take, run_Seq_intro, run_Chr_app.
  apply (run_Star_app _ []);
    [reflexivity|apply stops_amount; auto using amount_not_space|].
  apply run_Seq_intro, run_Grp_intro, run_Seq_intro, run_Plus_app;
    [assumption..|reflexivity|].
  apply run_Opt_skip; [reflexivity|]. cbv beta. rewrite capture_app.
  apply run_Seq_intro, run_Star_app; [reflexivity..|].
  apply run_Opt_take, run_Seq_intro, run_Opt_take, run_Seq_intro, run_Lit_app.
  apply run_Star_app; [reflexivity..|].
  reflexivity.
Qed.

Lemma price_re_plain X :
  X <> [] -> forallb amount_char X = true ->
  search price_re (euro :: X ++ []) = Some [(1%nat, X)].
Proof.
  intros HX HdX. apply search_here. unfold match_here, price_re.
  apply run_Seq_intro, run_Opt_take, run_Seq_intro, run_Chr_app.
  apply (run_Star_app _ []);
    [reflexivity|apply stops_amount; auto using amount_not_space|].
  apply run_Seq_intro, run_Grp_intro, run_Seq_intro, run_Plus_app;
    [assumption..|reflexivity|].
  apply run_Opt_skip; [reflexivity|]. cbv beta. rewrite capture_app.
  apply run_Seq_intro, (run_Star_app _ []); [reflexivity..|].
  reflexivity.
Qed.

Lemma amount_text_lacks c X (words : str) :
  forallb amount_char X = true -> amount_char c = false ->
  forallb (fun a => negb (N.eqb a c)) (euro :: words) = true ->
  ~ In c (euro :: X ++ words).
Proof.
  intros HdX Hc Hlit [H|H].
  - subst c. cbn [forallb] in Hlit. rewrite N.eqb_refl in Hlit. discriminate.
  - rewrite in_app_iff in H. destruct H as [H|H].
    + revert H. now apply class_lacks with (p := amount_char).
    + revert H. apply not_in_lit. cbn in Hlit |- *.
      apply andb_true_iff in Hlit as [_ Hlit]. exact Hlit.
Qed.

(** A monthly price and a price with no period keep their amount:
    ["€X per month"] and ["€X"], X made of digits and thousands
    separators, are the number X without the separators.  The listing
    made of the first has the period [month], that of the second has
    none. *)
Theorem price_amount_is_kept (X : str) :
  forallb amount_char X = true -> List.filter is_digit X <> [] ->
  let amount := of_Z (digits_val (List.filter is_digit X)) in
  parse_price (PyStr (euro :: X ++ lit " per month"))
    = Ok {| value := Some amount; type := numeric |}
  /\ parse_price (PyStr (euro :: X))
     = Ok {| value := Some amount; type := numeric |}
  /\ price_period_of (euro :: X ++ lit " per month") = Some (lit "month")
  /\ price_period_of (euro :: X) = None.
Proof.
  intros HdX HD amount.
  assert (HX : X <> []) by (intros ->; now apply HD).
  pose proof (lower_fixed X (amount_not_upper X HdX)) as HlX.
  assert (Elm : lower (euro :: X ++ lit " per month")
                = euro :: X ++ lit " " ++ lit "per" ++ lit " " ++ lit "month").
  { change (euro :: X ++ lit " per month")
      with ([euro] ++ X ++ lit " per month").
    rewrite !lower_app, HlX. reflexivity. }
  assert (Elp : lower (euro :: X) = euro :: X ++ []).
  { change (euro :: X) with ([euro] ++ X).
    rewrite lower_app, HlX, app_nil_r. reflexivity. }
  assert (Hlacks : forall c (words : str),
            amount_char c = false ->
            forallb (fun a => negb (N.eqb a c)) (euro :: words) = true ->
            ~ In c (euro :: X ++ words)).
  { intros c words. now apply amount_text_lacks. }
  split; [|split; [|split]].
  - unfold parse_price. rewrite Elm.
    rewrite (contains_missing_char 105%N (lit "price on application"));
      [|cbn; tauto|now apply Hlacks].
    rewrite (contains_missing_char 99%N (lit "contact agent"));
      [|cbn; tauto|now apply Hlacks].
    cbn [orb]. unfold price_from_match.
    rewrite price_re_monthly by assumption.
    cbn [group Nat.eqb]. subst amount.
    destruct X as [|c X'] eqn:EX; [congruence|]. rewrite <- EX in *.
    rewrite amount_digits by assumption.
    rewrite py_float_digits by (assumption || apply filter_digits).
    reflexivity.
  - unfold parse_price. rewrite Elp.
    rewrite (contains_missing_char 105%N (lit "price on application"));
      [|cbn; tauto|now apply Hlacks].
    rewrite (contains_missing_char 99%N (lit "contact agent"));
      [|cbn; tauto|now apply Hlacks].
    cbn [orb]. unfold price_from_match.
    rewrite price_re_plain by assumption.
    cbn [group Nat.eqb]. subst amount.
    destruct X as [|c X'] eqn:EX; [congruence|]. rewrite <- EX in *.
    rewrite amount_digits by assumption.
    rewrite py_float_digits by (assumption || apply filter_digits).
    cbn [bind contains starts_with N.eqb]. rewrite N.eqb_refl. reflexivity.
  - unfold price_period_of. rewrite Elm.
    rewrite (contains_missing_char 119%N (lit "week"));
      [|cbn; tauto|now apply Hlacks].
    rewrite (contains_missing_char 119%N (lit "pw"));
      [|cbn; tauto|now apply Hlacks].
    cbn [orb].
    replace (euro :: X ++ lit " " ++ lit "per" ++ lit " " ++ lit "month")
      with ((euro :: X ++ lit " per ") ++ lit "month" ++ []).
    2:{ cbn [app]. rewrite <- app_assoc. reflexivity. }
    rewrite contains_app. reflexivity.
  - unfold price_period_of. rewrite Elp.
    rewrite (contains_missing_char 119%N (lit "week"));
      [|cbn; tauto|now apply Hlacks].
    rewrite (contains_missing_char 119%N (lit "pw"));
      [|cbn; tauto|now apply Hlacks].
    rewrite (contains_missing_char 109%N (lit "month"));
      [|cbn; tauto|now apply Hlacks].
    rewrite (contains_missing_char 109%N (lit "pm"));
      [|cbn; tauto|now apply Hlacks].
    reflexivity.
Qed.

End PriceFacts.

(** ** core/utils.py: coordinates and energy ratings *)

Section LinkFacts.
Import Str Re Float Utils Parser.

(** The map-link pattern on ["...q=loc:LAT+LNG..."]. *)
Lemma loc_match pre LAT LNG post :
  ~ In 113%N pre ->
  LAT <> [] -> LNG <> [] ->
  forallb coord_char LAT = true -> forallb coord_char LNG = true ->
  stops coord_char post ->
  search loc_re (pre ++ lit "q=loc:" ++ LAT ++ plus_sign :: LNG ++ post)
  = Some [(2%nat, LNG); (1%nat, LAT)].
Proof.
  intros Hpre HLAT HLNG HdLAT HdLNG Hpost. rewrite search_skip.
  - apply search_here. unfold match_here, loc_re.
    apply run_Seq_intro, run_Lit_app.
    apply run_Seq_intro, run_Grp_Plus_app; [assumption..|reflexivity|].
    apply run_Seq_intro, run_Chr_app.
    now apply run_Grp_Plus_app.
  - intros c t Hc. unfold match_here, loc_re. cbn [run Lit lit List.map
      list_ascii_of_string]. unfold Chr. cbn [run].
    destruct (N.eqb_spec (N_of_ascii "q") c) as [E|E]; [|reflexivity].
    subst c. exfalso. apply Hpre. exact Hc.
Qed.

(** A link that holds ["q=loc:LAT+LNG"] gives the two numbers, read as
    [float] reads them; when either is no number, it gives nothing,
    and does not raise. *)
Theorem map_link_coordinates (pre LAT LNG post : str) :
  ~ In 113%N pre ->
  LAT <> [] -> LNG <> [] ->
  forallb coord_char LAT = true -> forallb coord_char LNG = true ->
  stops coord_char post ->
  extract_lat_lng
    (Some (pre ++ lit "q=loc:" ++ LAT ++ plus_sign :: LNG ++ post))
  = match py_float LAT, py_float LNG with
    | Ok lat, Ok lng => Ok (Some (lat, lng))
    | _, _ => Ok None
    end.
Proof.
  intros Hpre HLAT HLNG HdLAT HdLNG Hpost. unfold extract_lat_lng.
  destruct (pre ++ lit "q=loc:" ++ LAT ++ plus_sign :: LNG ++ post)
    as [|c0 s0] eqn:Es.
  { apply app_eq_nil in Es as [_ Es]. discriminate. }
  rewrite <- Es, loc_match by assumption.
  cbn [group_text group Nat.eqb bind].
  destruct (py_float_cases LAT) as [[lat ->]| ->]; cbn [bind];
    [|reflexivity].
  destruct (py_float_cases LNG) as [[lng ->]| ->]; reflexivity.
Qed.

End LinkFacts.

Section BerFacts.
Import Str Re Float Utils.

Lemma drop_while_app p (a b : str) :
  forallb p a = true -> drop_while p (a ++ b) = drop_while p b.
Proof.
  induction a as [|c a IH]; [reflexivity|]. cbn.
  intros H. apply andb_true_iff in H as [-> Ha]. now apply IH.
Qed.

Lemma replace_from_pass old new a s :
  match old with c :: _ => ~ In c a | [] => False end ->
  replace_from old new 0 (a ++ s) = a ++ replace_from old new 0 s.
Proof.
  destruct old as [|c old]; [intros []|]. intros Ha.
  induction a as [|x a IH]; [reflexivity|].
  cbn [app replace_from starts_with].
  destruct (N.eqb_spec c x) as [->|Hx]; [exfalso; apply Ha; now left|].
  cbn [andb]. f_equal. apply IH. intros H. apply Ha. now right.
Qed.

Lemma replace_pass old new a s :
  match old with c :: _ => ~ In c a | [] => False end ->
  replace old new (a ++ s) = a ++ replace old new s.
Proof.
  destruct old as [|c old]; [intros []|]. intros Ha.
  unfold replace. now apply replace_from_pass.
Qed.

Lemma blank_lacks c pad :
  is_space c = false -> forallb is_space pad = true -> ~ In c pad.
Proof. apply class_lacks. Qed.

(** No ["BER "] where there is no ["BER"], blanks appended or not. *)
Lemma no_label r : forall pad,
  contains (lit "BER") r = false -> forallb is_space pad = true ->
  contains (lit "BER ") (r ++ pad) = false.
Proof.
  induction r as [|c r IH]; intros pad Hr Hpad.
  - cbn [app]. apply (contains_missing_char 66%N); [cbn; tauto|].
    now apply blank_lacks.
  - cbn [contains] in Hr. apply orb_false_iff in Hr as [Hhead Hr].
    cbn [app contains]. rewrite (IH pad Hr Hpad), orb_false_r.
    assert (Hsp : forall x rest, pad = x :: rest -> is_space x = true).
    { intros x rest ->. cbn in Hpad. now apply andb_true_iff in Hpad. }
    change (lit "BER ") with [66; 69; 82; 32]%N.
    change (lit "BER") with [66; 69; 82]%N in Hhead.
    cbn [starts_with] in *.
    destruct (66 =? c)%N; [cbn [andb] in *|reflexivity].
    destruct r as [|c1 r].
    { cbn [app]. destruct pad as [|x pad]; [reflexivity|].
      specialize (Hsp x pad eq_refl).
      destruct (N.eqb_spec 69 x) as [<-|]; [discriminate|reflexivity]. }
    cbn [app]. destruct (69 =? c1)%N; [cbn [andb] in *|reflexivity].
    destruct r as [|c2 r].
    { cbn [app]. destruct pad as [|x pad]; [reflexivity|].
      specialize (Hsp x pad eq_refl).
      destruct (N.eqb_spec 82 x) as [<-|]; [discriminate|reflexivity]. }
    cbn [app]. destruct (82 =? c2)%N; [discriminate|reflexivity].
Qed.

Lemma strip_spaces_padded pad1 r pad2 :
  forallb is_space pad1 = true -> forallb is_space pad2 = true ->
  r <> [] -> forallb (fun c => negb (is_space c)) r = true ->
  strip_spaces (pad1 ++ r ++ pad2) = r.
Proof.
  intros H1 H2 Hr Hns. unfold strip_spaces.
  rewrite drop_while_app by assumption.
  rewrite (drop_while_stops is_space (r ++ pad2)).
  2:{ destruct r as [|c r]; [congruence|]. cbn in *.
      apply andb_true_iff in Hns as [Hc _]. now apply negb_true_iff. }
  rewrite rev_app_distr, drop_while_app.
  2:{ rewrite forallb_forall in *. intros c Hc. apply H2.
      now apply in_rev. }
  rewrite drop_while_stops; [apply rev_involutive|].
  destruct (rev r) as [|c r'] eqn:E; [exact I|].
  rewrite forallb_forall in Hns. apply negb_true_iff, Hns, in_rev.
  rewrite E. now left.
Qed.

(** A rating with no blank in it and no ["BER"] comes out as it is,
    with or without the label ["BER "] before it and blanks around;
    the exemption code comes out as ["Exempt"]. *)
Theorem format_ber_rating (pad1 r pad2 : str) :
  forallb is_space pad1 = true -> forallb is_space pad2 = true ->
  r <> [] -> forallb (fun c => negb (is_space c)) r = true ->
  contains (lit "BER") r = false ->
  let rating := if str_eqb r (lit "SI_666") then lit "Exempt" else r in
  format_ber (Some (pad1 ++ lit "BER " ++ r ++ pad2)) = Some rating
  /\ format_ber (Some (pad1 ++ r ++ pad2)) = Some rating.
Proof.
  intros H1 H2 Hr Hns Hber rating.
  assert (HB : ~ In 66%N pad1) by now apply blank_lacks.
  assert (Hrest : replace (lit "BER ") [] (r ++ pad2) = r ++ pad2).
  { apply replace_absent; [discriminate|now apply no_label]. }
  split.
  - unfold format_ber.
    destruct (pad1 ++ lit "BER " ++ r ++ pad2) as [|c0 s0] eqn:Es.
    { apply app_eq_nil in Es as [_ Es]. discriminate. }
    rewrite <- Es.
    rewrite replace_pass by exact HB.
    rewrite replace_head by discriminate. rewrite Hrest. cbn [app].
    rewrite strip_spaces_padded by assumption. subst rating.
    now destruct (str_eqb r (lit "SI_666")).
  - unfold format_ber.
    destruct (pad1 ++ r ++ pad2) as [|c0 s0] eqn:Es.
    { apply app_eq_nil in Es as [_ Es]. apply app_eq_nil in Es as [Es _].
      congruence. }
    rewrite <- Es.
    rewrite replace_pass by exact HB. rewrite Hrest.
    rewrite strip_spaces_padded by assumption. subst rating.
    now destruct (str_eqb r (lit "SI_666")).
Qed.

End BerFacts.

(** ** core/utils.py: slugs *)

Section SlugFacts.
Import Str Re Float Utils.

Lemma slug_char_lower c : slug_char c = true -> lower_char c = c.
Proof.
  unfold slug_char, is_lower, is_digit, hyphen, lower_char, is_upper.
  char_cases.
Qed.

Lemma slug_char_not_space c : slug_char c = true -> (c =? 32)%N = false.
Proof. unfold slug_char, is_lower, is_digit, hyphen. char_cases. Qed.

Lemma replace_space s :
  replace (lit " ") (lit "-") s
  = List.map (fun a => if (a =? 32)%N then hyphen else a) s.
Proof. unfold replace. cbn [lit List.map list_ascii_of_string].
  apply replace_from_swap. Qed.

(** [slugify] on a string, as a filter over its characters. *)
Lemma slugify_chars s :
  slugify (PyStr s)
  = List.filter slug_char
      (List.map (fun a => if (lower_char a =? 32)%N then hyphen
                          else lower_char a) s).
Proof.
  unfold slugify, lower. now rewrite replace_space, List.map_map.
Qed.

Lemma slugify_app a b :
  slugify (PyStr (a ++ b)) = slugify (PyStr a) ++ slugify (PyStr b).
Proof. now rewrite !slugify_chars, List.map_app, List.filter_app. Qed.

Lemma slugify_slug s : forallb slug_char s = true -> slugify (PyStr s) = s.
Proof.
  intros H. rewrite slugify_chars.
  induction s as [|c s IH]; [reflexivity|]. cbn in H.
  apply andb_true_iff in H as [Hc Hs]. cbn [List.map List.filter].
  rewrite (slug_char_lower c Hc), (slug_char_not_space c Hc), Hc.
  f_equal. now apply IH.
Qed.

Lemma slugify_alphabet v : forallb slug_char (slugify v) = true.
Proof.
  destruct v as [|s| |]; try reflexivity. unfold slugify.
  rewrite forallb_forall. intros c Hc. now apply filter_In in Hc.
Qed.

(** [slugify] maps every value onto the slugs, strings made of
    [a-z], [0-9] and the hyphen, and leaves a slug as it is; so
    applying it twice changes nothing more. *)
Theorem slugify_projects_onto_slugs (v : pyval) (s : str) :
  forallb slug_char (slugify v) = true
  /\ (forallb slug_char s = true <-> slugify (PyStr s) = s)
  /\ slugify (PyStr (slugify v)) = slugify v.
Proof.
  split; [apply slugify_alphabet|]. split.
  - split; [apply slugify_slug|]. intros <-. apply slugify_alphabet.
  - apply slugify_slug, slugify_alphabet.
Qed.

(** *** generate_daft_location_slug *)

Lemma forallb_app_true {A} (p : A -> bool) a b :
  forallb p a = true -> forallb p b = true -> forallb p (a ++ b) = true.
Proof. intros Ha Hb. now rewrite forallb_app, Ha, Hb. Qed.

Lemma strip_spaces_blank s : forallb is_space s = true -> strip_spaces s = [].
Proof.
  intros H. unfold strip_spaces. rewrite (drop_while_all is_space s) by assumption.
  reflexivity.
Qed.

Lemma drop_while_nil p s : drop_while p s = [] -> forallb p s = true.
Proof.
  induction s as [|c s IH]; [reflexivity|]. cbn.
  destruct (p c); [exact IH|discriminate].
Qed.

Lemma drop_while_head p s c l : drop_while p s = c :: l -> p c = false.
Proof.
  induction s as [|a s IH]; [discriminate|]. cbn.
  destruct (p a) eqn:E; [exact IH|]. now intros [= <- _].
Qed.

Lemma strip_spaces_nil s : strip_spaces s = [] -> forallb is_space s = true.
Proof.
  unfold strip_spaces. intros H.
  apply (f_equal (@rev _)) in H. rewrite rev_involutive in H. cbn in H.
  apply drop_while_nil in H.
  destruct (drop_while is_space s) as [|c l] eqn:E;
    [now apply drop_while_nil|].
  apply drop_while_head in E. rewrite forallb_forall in H.
  rewrite (H c) in E; [discriminate|]. apply in_rev.
  rewrite rev_involutive. now left.
Qed.

(** Every location slug is made of [a-z], [0-9] and the hyphen; a
    value that is no string, and a blank string, give the empty
    slug. *)
Theorem location_slug_alphabet (v : pyval) :
  forallb slug_char (generate_daft_location_slug v) = true
  /\ match v with
     | PyStr s =>
         forallb is_space s = true -> generate_daft_location_slug v = []
     | _ => generate_daft_location_slug v = []
     end.
Proof.
  split.
  - destruct v as [|s| |]; try reflexivity.
    unfold generate_daft_location_slug.
    destruct (not_blank s); [|reflexivity].
    assert (Hsingle : forallb slug_char
              match match_to_end dublin_district_re (slugify (PyStr s)) with
              | Some _ => slugify (PyStr s) ++ lit "-dublin"
              | None =>
                  if existsb (str_eqb (slugify (PyStr s))) DUBLIN_AREAS
                  then slugify (PyStr s) ++ lit "-dublin"
                  else slugify (PyStr s)
              end = true).
    { destruct (match_to_end _ _);
        [|destruct (existsb _ _)];
        try apply forallb_app_true; try apply slugify_alphabet; reflexivity. }
    destruct (List.map _ _) as [|p1 [|p2 [|p3 ps]]] eqn:E; try exact Hsingle.
    assert (Hin : forall p, In p [p1; p2] -> forallb slug_char p = true).
    { rewrite <- E. intros p Hp. apply in_map_iff in Hp as (x & <- & _).
      apply slugify_alphabet. }
    apply forallb_app_true; [apply Hin; now left|].
    apply forallb_app_true; [reflexivity|apply Hin; right; now left].
  - destruct v as [|s| |]; try reflexivity.
    intros Hs. unfold generate_daft_location_slug, not_blank.
    now rewrite strip_spaces_blank.
Qed.

Lemma split_no_sep c s : ~ In c s -> split c s = [s].
Proof.
  induction s as [|a s IH]; [reflexivity|]. intros H. cbn [split].
  destruct (N.eqb_spec a c) as [->|Hac]; [exfalso; apply H; now left|].
  rewrite IH; [reflexivity|]. intros Hin. apply H. now right.
Qed.

Lemma split_once c a b :
  ~ In c a -> ~ In c b -> split c (a ++ c :: b) = [a; b].
Proof.
  intros Ha Hb. induction a as [|x a IH].
  - cbn [app split]. rewrite N.eqb_refl. now rewrite split_no_sep.
  - cbn [app split].
    destruct (N.eqb_spec x c) as [->|Hxc]; [exfalso; apply Ha; now left|].
    rewrite IH; [reflexivity|]. intros Hin. apply Ha. now right.
Qed.

(** ["Area, County"] is the two slugs joined by a hyphen. *)
Theorem location_slug_of_two_parts (area county : str) :
  ~ In comma area -> ~ In comma county ->
  strip_spaces area <> [] -> strip_spaces county <> [] ->
  generate_daft_location_slug (PyStr (area ++ comma :: county))
  = slugify (PyStr (strip_spaces area)) ++ lit "-"
    ++ slugify (PyStr (strip_spaces county)).
Proof.
  intros Ha Hc Hna Hnc. unfold generate_daft_location_slug.
  assert (Hblank : not_blank (area ++ comma :: county) = true).
  { unfold not_blank.
    destruct (strip_spaces (area ++ comma :: county)) eqn:E; [|reflexivity].
    apply strip_spaces_nil in E. rewrite forallb_app in E.
    apply andb_true_iff in E as [_ E]. discriminate. }
  rewrite Hblank, split_once by assumption.
  assert (Hnb : forall part, strip_spaces part <> [] -> not_blank part = true).
  { intros part Hp. unfold not_blank.
    now destruct (strip_spaces part). }
  cbn [List.filter]. rewrite !Hnb by assumption. reflexivity.
Qed.

Lemma slugify_lower s : slugify (PyStr s) = slugify (PyStr (lower s)).
Proof. unfold slugify. now rewrite lower_idempotent. Qed.

Lemma not_blank_intro c s :
  In c s -> is_space c = false -> not_blank s = true.
Proof.
  intros Hin Hc. unfold not_blank.
  destruct (strip_spaces s) eqn:E; [|reflexivity].
  apply strip_spaces_nil in E. rewrite forallb_forall in E.
  rewrite (E c Hin) in Hc. discriminate.
Qed.

Lemma lower_lacks c s :
  lower_char c = c -> ~ In c (lower s) -> ~ In c s.
Proof.
  intros Hc Hn Hin. apply Hn. unfold lower. apply in_map_iff.
  exists c. split; assumption.
Qed.

(** A Dublin postal district, ["Dublin N"] in any case, and each of
    the Dublin areas of the table get ["-dublin"] appended. *)
Theorem dublin_locations_get_the_county (d N area : str) :
  (lower d = lit "dublin" -> N <> [] -> forallb is_digit N = true ->
   generate_daft_location_slug (PyStr (d ++ lit " " ++ N))
   = lit "dublin-" ++ N ++ lit "-dublin")
  /\ (In area DUBLIN_AREAS ->
      generate_daft_location_slug (PyStr area) = area ++ lit "-dublin").
Proof.
  split.
  - intros Hd HN HdN. unfold generate_daft_location_slug.
    assert (Hblank : not_blank (d ++ lit " " ++ N) = true).
    { destruct N as [|c N']; [congruence|].
      apply (not_blank_intro c).
      - rewrite !in_app_iff. right. right. now left.
      - cbn in HdN. apply andb_true_iff in HdN as [Hc _].
        now apply digit_not_space. }
    assert (Hcomma : ~ In comma (d ++ lit " " ++ N)).
    { rewrite !in_app_iff. intros [H|[H|H]].
      - revert H. apply lower_lacks; [reflexivity|]. rewrite Hd.
        now apply not_in_lit.
      - revert H. now apply not_in_lit.
      - revert H. now apply digits_lack. }
    rewrite Hblank, split_no_sep by assumption.
    cbn [List.filter]. rewrite Hblank. cbn [List.map].
    assert (Hslug : slugify (PyStr (d ++ lit " " ++ N))
                    = lit "dublin-" ++ N ++ []).
    { rewrite !slugify_app, (slugify_lower d), Hd, (slugify_slug N).
      - rewrite app_nil_r. reflexivity.
      - rewrite forallb_forall in *. intros c Hc.
        unfold slug_char. now rewrite (HdN c Hc), orb_true_r. }
    rewrite Hslug.
    assert (Hmatch : match_to_end dublin_district_re
                       (lit "dublin-" ++ N ++ []) = Some []).
    { unfold match_to_end, dublin_district_re.
      apply run_Seq_intro, run_Lit_app.
      apply run_Plus_app; [assumption..|exact I|reflexivity]. }
    rewrite Hmatch, app_nil_r, <- app_assoc. reflexivity.
  - intros Hin.
    assert (Hall : forallb
              (fun a => str_eqb (generate_daft_location_slug (PyStr a))
                          (a ++ lit "-dublin"))
              DUBLIN_AREAS = true) by (vm_compute; reflexivity).
    rewrite forallb_forall in Hall. specialize (Hall area Hin).
    unfold str_eqb in Hall. now apply bool_decide_eq_true in Hall.
Qed.

End SlugFacts.

(** ** core/parser.py: result cards *)

Section CardFacts.
Import Str Re Float Utils Models Parser DaftScraper.
Variable config : Config.

Lemma contains_nil s : contains [] s = true.
Proof. now destruct s. Qed.

(** The path segments the scraper reads off a card's URL are those
    of the card's link. *)
Lemma url_parts_of_card href :
  contains (DAFT_BASE_URL config) href = false ->
  url_parts config (DAFT_BASE_URL config ++ href)
  = split slash (strip slash href).
Proof.
  intros Hbase. unfold url_parts.
  assert (Hne : DAFT_BASE_URL config <> []).
  { intros E. rewrite E, contains_nil in Hbase. discriminate. }
  pose proof (contains_app (DAFT_BASE_URL config) [] href) as Hin.
  cbn [app] in Hin. rewrite Hin.
  rewrite replace_head by assumption.
  now rewrite replace_absent.
Qed.

(** What the [try] block returns for a card with a link. *)
Lemma parse_property_element_Some c p :
  parse_property_element config c = Ok (Some p) ->
  exists href,
    main_link c = Some (Some href) /\ href <> []
    /\ url p = DAFT_BASE_URL config ++ href
    /\ id p = List.last (split slash (strip slash href)) []
    /\ price_string p = text_or_empty (price_elem c)
    /\ parse_price (PyStr (price_string p))
       = Ok {| value := parsed_price p; type := Models.price_type p |}
    /\ parse_beds (PyStr (beds_string p)) = Ok (parsed_beds p).
Proof.
  unfold parse_property_element.
  destruct (main_link c) as [[[|x href]|]|]; try discriminate.
  intros H. exists (x :: href). split; [reflexivity|]. split; [discriminate|].
  apply bind_Ok in H as (parsed_price_result & Hprice & H).
  destruct (match meta_elem c with
            | Some spans => meta_strings spans ([], [], [])
            | None => ([], [], [])
            end) as [[beds baths] ptype].
  apply bind_Ok in H as (parsed_beds & Hbeds & H).
  apply bind_Ok in H as (lat_lng & _ & H).
  inversion H; subst; clear H.
  cbn [url id price_string parsed_price Models.price_type beds_string
       Models.parsed_beds].
  repeat split; try assumption.
  - now destruct (split slash (strip slash (x :: href))).
  - rewrite Hprice. now destruct parsed_price_result.
Qed.

(** The id the parser gives a card is the id the scraper reads off
    the card's URL, whenever it reads one: both are the last path
    segment of the card's link. *)
Theorem card_id_is_the_url_id
    (c : card) (href : str) (p : ScrapedProperty) :
  main_link c = Some (Some href) ->
  contains (DAFT_BASE_URL config) href = false ->
  _parse_property_element config c = Some p ->
  url p = DAFT_BASE_URL config ++ href
  /\ id p = List.last (split slash (strip slash href)) []
  /\ (forall property_id address_slug,
        _extract_property_info_from_url config (PyStr (url p))
          = (Some property_id, address_slug) ->
        property_id = id p).
Proof.
  intros Hlink Hbase Hp. unfold _parse_property_element in Hp.
  destruct (parse_property_element config c) as [r|e] eqn:E; [|discriminate].
  subst r.
  apply parse_property_element_Some in E
    as (href' & Hlink' & _ & Hurl & Hid & _).
  rewrite Hlink in Hlink'. inversion Hlink'; subst href'.
  split; [assumption|]. split; [assumption|].
  intros property_id address_slug.
  unfold _extract_property_info_from_url, extract_property_info.
  rewrite Hurl, url_parts_of_card by assumption. rewrite Hid.
  destruct (3 <=? length _)%nat; [|discriminate].
  destruct (isdigit _); [|discriminate].
  now intros [= <- _].
Qed.

(** A card yields no record only when it has no link to follow or
    when its price makes the price normalizer raise. *)
Theorem card_is_dropped_for_link_or_price (c : card) :
  _parse_property_element config c = None <->
  match main_link c with
  | Some (Some (_ :: _)) =>
      exists e, parse_price (PyStr (text_or_empty (price_elem c))) = Raise e
  | _ => True
  end.
Proof.
  unfold _parse_property_element, parse_property_element.
  destruct (main_link c) as [[[|x href]|]|]; try tauto.
  destruct (parse_price _) as [parsed_price_result|e]; cbn [bind].
  - destruct (match meta_elem c with
              | Some spans => meta_strings spans ([], [], [])
              | None => ([], [], [])
              end) as [[beds baths] ptype].
    destruct (parse_beds_total (PyStr beds)) as [parsed_beds ->].
    cbn [bind]. unfold _extract_coordinates.
    destruct (card_lat_lng_elem c) as [link|]; cbn [bind].
    + destruct (extract_lat_lng_total link) as [lat_lng ->]. cbn [bind].
      split; [discriminate|]. intros [e He]. discriminate.
    + split; [discriminate|]. intros [e He]. discriminate.
  - split; [eauto|reflexivity].
Qed.

(** The parsed fields of a record are the normalizers' results on its
    raw strings: price value and type come from [parse_price] on the
    price string, the bedrooms from [parse_beds] on the bedroom
    string. *)
Theorem card_record_holds_normalized_fields
    (c : card) (p : ScrapedProperty) :
  _parse_property_element config c = Some p ->
  price_string p = text_or_empty (price_elem c)
  /\ parse_price (PyStr (price_string p))
     = Ok {| value := parsed_price p; type := Models.price_type p |}
  /\ parse_beds (PyStr (beds_string p)) = Ok (parsed_beds p).
Proof.
  intros Hp. unfold _parse_property_element in Hp.
  destruct (parse_property_element config c) as [r|e] eqn:E; [|discriminate].
  subst r.
  apply parse_property_element_Some in E
    as (href & _ & _ & _ & _ & Hps & Hprice & Hbeds).
  auto.
Qed.

End CardFacts.

(** ** core/daft_scraper.py: search URLs *)

Section SearchUrlFacts.
Import Str Re Float Utils Models Parser DaftScraper.
Variable config : Config.

Abbreviation cities :=
  [lit "cork"; lit "galway"; lit "limerick"; lit "waterford"].

(** The slug a location resolves to, by listing type. *)
Lemma location_slug_city location :
  let key := lower location in
  let city := if existsb (str_eqb key) cities then key else lit "dublin" in
  location_slug sale location = city
  /\ location_slug rent location = city ++ lit "-city".
Proof.
  cbv zeta. unfold location_slug, location_mapping, str_eqb.
  generalize (lower location) as key. intros key.
  cbn [dict_get existsb].
  destruct (decide (key = lit "dublin")) as [->|H1];
    [split; vm_compute; reflexivity|].
  destruct (decide (key = lit "dublin-city")) as [->|H2];
    [split; vm_compute; reflexivity|].
  destruct (decide (key = lit "cork")) as [->|H3];
    [split; vm_compute; reflexivity|].
  destruct (decide (key = lit "galway")) as [->|H4];
    [split; vm_compute; reflexivity|].
  destruct (decide (key = lit "limerick")) as [->|H5];
    [split; vm_compute; reflexivity|].
  destruct (decide (key = lit "waterford")) as [->|H6];
    [split; vm_compute; reflexivity|].
  unfold str_eqb. rewrite !bool_decide_eq_false_2 by congruence.
  split; reflexivity.
Qed.

(** Both listing types resolve a location to the same city: one of
    Cork, Galway, Limerick and Waterford when the location names it
    in any case, Dublin otherwise; the rental slug adds ["-city"]. *)
Theorem search_url_city (location : str) :
  let key := lower location in
  let city := if existsb (str_eqb key) cities then key else lit "dublin" in
  build_search_url config sale location
    = DAFT_BASE_URL config ++ lit "/property-for-sale/" ++ city
  /\ build_search_url config rent location
     = DAFT_BASE_URL config ++ lit "/property-for-rent/" ++ city
       ++ lit "-city".
Proof.
  cbv zeta. unfold build_search_url.
  destruct (location_slug_city location) as [-> ->].
  split; reflexivity.
Qed.

Lemma url_path_lacks_colon listing_type location :
  ~ In 58%N (base_path listing_type ++ lit "/"
             ++ location_slug listing_type location).
Proof.
  destruct (location_slug_city location) as [Hs Hr]. cbv zeta in *.
  assert (Hcity : ~ In 58%N
            (if existsb (str_eqb (lower location)) cities
             then lower location else lit "dublin")).
  { destruct (existsb _ _) eqn:E; [|now apply not_in_lit].
    apply existsb_exists in E as (city & Hin & Heq).
    unfold str_eqb in Heq. apply bool_decide_eq_true in Heq. rewrite Heq.
    cbn in Hin. destruct Hin as [<-|[<-|[<-|[<-|[]]]]];
      now apply not_in_lit. }
  destruct listing_type; rewrite ?Hs, ?Hr, !in_app_iff.
  - intros [H|[H|[H|H]]]; revert H;
      solve [now apply not_in_lit | exact Hcity].
  - intros [H|[H|H]]; revert H;
      solve [now apply not_in_lit | exact Hcity].
Qed.

(** With a base URL that holds a colon, the path the limited runs
    hand to the fetcher is the path [build_search_url] put after the
    base URL, so the fetcher's URL, base URL plus path, is the search
    URL again. *)
Theorem search_path_round_trip
    (listing_type : listing_type) (location : str) :
  In 58%N (DAFT_BASE_URL config) ->
  search_path config (build_search_url config listing_type location)
    = base_path listing_type ++ lit "/"
      ++ location_slug listing_type location
  /\ DAFT_BASE_URL config
     ++ search_path config (build_search_url config listing_type location)
     = build_search_url config listing_type location.
Proof.
  intros Hcolon.
  assert (Hpath : search_path config
                    (build_search_url config listing_type location)
                  = base_path listing_type ++ lit "/"
                    ++ location_slug listing_type location).
  { unfold search_path, build_search_url.
    rewrite replace_head by (intros E; rewrite E in Hcolon; exact Hcolon).
    apply replace_absent.
    - intros E. rewrite E in Hcolon. exact Hcolon.
    - apply (contains_missing_char 58%N); [assumption|].
      apply url_path_lacks_colon. }
  split; [exact Hpath|]. rewrite Hpath. reflexivity.
Qed.

End SearchUrlFacts.

(** ** core/daft_scraper.py: the interactive run *)

Section InteractiveFacts.
Import Str Re Float Utils Models Parser SupabaseClient DaftScraper.

Lemma ask_pages_range pages : forall keys max_pages rest,
  ask_pages pages keys = Chosen max_pages rest ->
  (0 < max_pages -> max_pages <= pages) /\ suffix rest keys.
Proof.
  induction keys as [|k keys IH]; intros max_pages rest; [discriminate|].
  cbn [ask_pages]. destruct k as [text|]; [|discriminate].
  assert (Hnext : ask_pages pages keys = Chosen max_pages rest ->
                  (0 < max_pages -> max_pages <= pages)
                  /\ suffix rest (Line text :: keys)).
  { intros H. destruct (IH _ _ H) as [Hr Hs].
    split; [assumption|now apply suffix_cons_r]. }
  assert (Hhere : forall n, (0 < n -> n <= pages) ->
                  Chosen n keys = Chosen max_pages rest ->
                  (0 < max_pages -> max_pages <= pages)
                  /\ suffix rest (Line text :: keys)).
  { intros n Hn [= <- <-]. split; [assumption|].
    apply suffix_cons_r. reflexivity. }
  destruct (str_eqb _ (lit "all")); [apply Hhere; lia|].
  destruct (str_eqb _ (lit "0")); [apply Hhere; lia|].
  destruct (int_of_text _) as [n|e]; [|exact Hnext].
  destruct (Z.leb_spec 0 n); cbn [andb]; [|exact Hnext].
  destruct (Z.leb_spec n pages); [|exact Hnext].
  apply Hhere. lia.
Qed.

Lemma suffix_head {A} (x : A) l keys : suffix (x :: l) keys -> In x keys.
Proof. intros [pre ->]. apply in_or_app. right. now left. Qed.

(** The interactive run starts at most one limited run for sale and
    then at most one for rent, each for at least one page and for no
    more pages than the count of that listing type makes,
    [ceil(count / 20)]; and it starts none before a line that says
    ["y"] or ["yes"] was entered. *)
Theorem interactive_scrape_stays_in_range
    (fetch : str -> Z -> option count_payload)
    (run : listing_type -> Z -> summary)
    (location : str) (keys : list key)
    (result : interactive_result) (runs : list (listing_type * Z)) :
  interactive_scrape fetch run location keys = (result, runs) ->
  sublist (List.map fst runs) [sale; rent]
  /\ Forall (fun r =>
               1 <= snd r
               <= (c_count (get_property_count fetch (fst r) location) + 19)
                  / 20) runs
  /\ (runs <> [] ->
      exists text,
        In (Line text) keys
        /\ (lower (strip_spaces text) = lit "y"
            \/ lower (strip_spaces text) = lit "yes")).
Proof.
  unfold interactive_scrape, stopped.
  assert (Hnone : forall r : interactive_result,
            (r, @nil (listing_type * Z)) = (result, runs) ->
            sublist (List.map fst runs) [sale; rent]
            /\ Forall (fun r =>
                  1 <= snd r
                  <= (c_count (get_property_count fetch (fst r) location) + 19)
                     / 20) runs
            /\ (runs <> [] ->
                exists text,
                  In (Line text) keys
                  /\ (lower (strip_spaces text) = lit "y"
                      \/ lower (strip_spaces text) = lit "yes"))).
  { intros r [= _ <-]. cbn. repeat split.
    - repeat constructor.
    - constructor.
    - congruence. }
  destruct (negb _ || negb _); [apply Hnone|].
  destruct (ask_pages _ keys) as [max_sale_pages keys1| |] eqn:Esale;
    [|apply Hnone..].
  destruct (ask_pages _ keys1) as [max_rent_pages keys2| |] eqn:Erent;
    [|apply Hnone..].
  destruct (_ =? 0); [apply Hnone|].
  destruct keys2 as [|[text|] keys3]; [apply Hnone| |apply Hnone].
  destruct (existsb _ _) eqn:Econfirm; cbn [negb]; [|apply Hnone].
  apply ask_pages_range in Esale as [Hsale Hs1].
  apply ask_pages_range in Erent as [Hrent Hs2].
  intros [= _ <-]. split; [|split].
  - destruct (max_sale_pages >? 0), (max_rent_pages >? 0); cbn;
      repeat constructor.
  - destruct (Z.gtb_spec max_sale_pages 0), (Z.gtb_spec max_rent_pages 0);
      cbn [app]; repeat constructor; cbn [fst snd]; lia.
  - intros _. exists text. split.
    + apply (suffix_head _ keys3). now transitivity keys1.
    + cbn [existsb] in Econfirm. unfold str_eqb in Econfirm.
      rewrite orb_false_r in Econfirm.
      apply orb_true_iff in Econfirm as [E|E];
        apply bool_decide_eq_true in E; auto.
Qed.

End InteractiveFacts.

(** ** core/fetcher.py: every run of the retry loops *)

Section FetcherRuns.
Import Fetcher.
Variable config : Config.
Variable endpoint : Z -> outcome.
Variable main_site : outcome.

Abbreviation retries := (MAX_FETCH_RETRIES config).
Abbreviation pause := (RETRY_DELAY_MS config).

(** Whatever the endpoint answers, a fetch asks it at most
    [MAX_FETCH_RETRIES + 1] times, pauses between two requests and
    never after the last, and each pause is the retry delay or twice
    it.  [fetch_page_html] on page 1 puts the warm-up before. *)
Theorem fetch_makes_bounded_requests
    (url : str) (page_number : Z)
    {json : Type} (json_loads : str -> option json) :
  0 <= retries ->
  (exists pauses,
     (length pauses <= Z.to_nat retries)%nat
     /\ Forall (fun ms => ms = pause \/ ms = pause * 2) pauses
     /\ snd (fetch_page_html config endpoint main_site url page_number)
        = opening (page_number =? 1) main_site
          ++ flat_map (fun ms => [Get url; Delay ms]) pauses ++ [Get url])
  /\ (exists pauses,
        (length pauses <= Z.to_nat retries)%nat
        /\ Forall (fun ms => ms = pause \/ ms = pause * 2) pauses
        /\ snd (fetch_json_api config endpoint main_site json_loads
                  url page_number)
           = flat_map (fun ms => [Get url; Delay ms]) pauses ++ [Get url]).
Proof.
  intros Hmax. unfold fetch_page_html, fetch_json_api.
  rewrite !retry_loop_attempts by assumption.
  split; exists []; (split; [cbn; lia|]); (split; [constructor|]);
    reflexivity.
Qed.

(** A fetch that returns, returns the body of a response it received,
    one whose status is neither 404 nor 403 nor any other 4xx or 5xx;
    [fetch_json_api] returns what the decoder makes of that body. *)
Theorem fetch_returns_body_of_good_response
    (url : str) (page_number : Z)
    {json : Type} (json_loads : str -> option json)
    (text : str) (json_data : json) :
  (fst (fetch_page_html config endpoint main_site url page_number) = Ok text ->
   exists k status_code,
     1 <= k <= retries + 1
     /\ endpoint k = Response status_code text
     /\ status_code <> 404 /\ status_code <> 403
     /\ ~ 400 <= status_code < 600)
  /\ (fst (fetch_json_api config endpoint main_site json_loads url page_number)
        = Ok json_data ->
      exists k status_code body,
        1 <= k <= retries + 1
        /\ endpoint k = Response status_code body
        /\ status_code <> 404 /\ status_code <> 403
        /\ ~ 400 <= status_code < 600
        /\ json_loads body = Some json_data).
Proof.
  unfold fetch_page_html, fetch_json_api.
  destruct (Z.neg_nonneg_cases retries) as [Hneg|Hmax].
  { rewrite attempts_neg by assumption. cbn. split; discriminate. }
  rewrite !retry_loop_attempts by assumption. cbn [fst].
  destruct (endpoint 1) as [status_code body| |] eqn:E.
  - destruct (Z.eqb_spec status_code 404) as [|H404];
      [split; discriminate|].
    destruct (Z.eqb_spec status_code 403) as [|H403];
      [destruct (1 <=? retries); split; discriminate|].
    unfold raise_for_status.
    destruct (Z.leb_spec 400 status_code), (Z.ltb_spec status_code 600);
      cbn [andb];
      try (destruct (1 >? retries); split; discriminate).
    all: split;
      [intros [= ->]; exists 1, status_code;
       repeat split; (assumption || lia)
      |destruct (json_loads body) as [j|] eqn:Ej; [|discriminate];
       intros [= ->]; exists 1, status_code, body;
       repeat split; (assumption || lia)].
  - destruct (1 >? retries); split; discriminate.
  - destruct (1 >? retries); split; discriminate.
Qed.

(** No fetch retries.  With a retry count that is not negative, a
    fetch sends exactly one request to the URL, whatever comes back,
    and never pauses; the warm-up of [fetch_page_html] on page 1 is
    one request to the main page, without its pause. *)
Theorem fetch_sends_one_request
    (url : str) (page_number : Z)
    {json : Type} (json_loads : str -> option json) :
  0 <= retries ->
  snd (fetch_page_html config endpoint main_site url page_number)
    = (if page_number =? 1 then [Get main_page] else []) ++ [Get url]
  /\ snd (fetch_json_api config endpoint main_site json_loads url page_number)
     = [Get url].
Proof.
  intros Hmax. unfold fetch_page_html, fetch_json_api.
  rewrite !retry_loop_attempts, !opening_request by assumption.
  split; reflexivity.
Qed.

(** The exceptions of a fetch, by the retry count.  A
    [RateLimitException] or a [NetworkException] leaves a fetch only
    when no retry is configured; as soon as one is, the same failures
    end in the [ModuleNotFoundError] of the import before the pause.
    A [ScrapingException] needs a 404 or a body the decoder rejects;
    no other exception leaves a fetch. *)
Theorem fetch_exceptions_by_retry_count
    (url : str) (page_number : Z)
    {json : Type} (json_loads : str -> option json) (e : exn) :
  0 <= retries ->
  fst (fetch_page_html config endpoint main_site url page_number) = Raise e
  \/ fst (fetch_json_api config endpoint main_site json_loads url page_number)
     = Raise e ->
  match e with
  | RateLimitException retry_after =>
      retries = 0 /\ retry_after = pause * 2
      /\ exists t, endpoint 1 = Response 403 t
  | NetworkException u timeout =>
      retries = 0 /\ u = url
      /\ (timeout = true <-> endpoint 1 = Timeout)
  | ModuleNotFoundError =>
      1 <= retries
      /\ (endpoint 1 = Timeout \/ endpoint 1 = RequestException
          \/ exists status_code t,
               endpoint 1 = Response status_code t
               /\ 400 <= status_code < 600 /\ status_code <> 404)
  | ScrapingException u status_code =>
      u = url
      /\ ((status_code = Some 404 /\ exists t, endpoint 1 = Response 404 t)
          \/ (status_code = None
              /\ exists s body,
                   endpoint 1 = Response s body /\ json_loads body = None))
  | _ => False
  end.
Proof.
  intros Hmax. unfold fetch_page_html, fetch_json_api.
  rewrite !retry_loop_attempts by assumption. cbn [fst].
  destruct (endpoint 1) as [status_code body| |] eqn:E.
  - destruct (Z.eqb_spec status_code 404) as [->|H404].
    { intros [[= <-]|[= <-]]; (split; [reflexivity|]); left; eauto. }
    destruct (Z.eqb_spec status_code 403) as [->|H403].
    { destruct (Z.leb_spec 1 retries).
      - intros [[= <-]|[= <-]]; (split; [assumption|]);
          right; right; exists 403, body; repeat split; (reflexivity || lia).
      - intros [[= <-]|[= <-]]; (split; [lia|]); eauto. }
    unfold raise_for_status.
    destruct (Z.leb_spec 400 status_code), (Z.ltb_spec status_code 600);
      cbn [andb].
    + destruct (Z.gtb_spec 1 retries).
      * intros [[= <-]|[= <-]]; (split; [lia|]); (split; [reflexivity|]);
          split; discriminate.
      * intros [[= <-]|[= <-]]; (split; [lia|]);
          right; right; exists status_code, body;
          repeat split; (reflexivity || lia).
    + intros [[=]|Hraise]. destruct (json_loads body) eqn:Ej; [discriminate|].
      injection Hraise as <-. split; [reflexivity|]. right. eauto.
    + intros [[=]|Hraise]. destruct (json_loads body) eqn:Ej; [discriminate|].
      injection Hraise as <-. split; [reflexivity|]. right. eauto.
    + intros [[=]|Hraise]. destruct (json_loads body) eqn:Ej; [discriminate|].
      injection Hraise as <-. split; [reflexivity|]. right. eauto.
  - destruct (Z.gtb_spec 1 retries).
    + intros [[= <-]|[= <-]]; (split; [lia|]); (split; [reflexivity|]);
        split; reflexivity.
    + intros [[= <-]|[= <-]]; (split; [lia|]); now left.
  - destruct (Z.gtb_spec 1 retries).
    + intros [[= <-]|[= <-]]; (split; [lia|]); (split; [reflexivity|]);
        split; discriminate.
    + intros [[= <-]|[= <-]]; (split; [lia|]); right; now left.
Qed.

End FetcherRuns.

(** ** core/supabase_client.py: one batch *)

Section BatchFacts.
Import Models SupabaseClient DaftScraper.

Abbreviation usable := (fun i : Z => negb (i =? 0)).

Lemma build_data_list_spec l : forall seen,
  let rows := build_data_list seen l in
  NoDup (List.filter usable (ids_of rows))
  /\ (forall i, In i (List.filter usable (ids_of rows)) -> i ∉ seen)
  /\ sublist rows l
  /\ (forall i, i <> 0 -> In i (ids_of l) -> i ∉ seen -> In i (ids_of rows))
  /\ (forall p, In p l -> l_id p = None \/ l_id p = Some 0 -> In p rows).
Proof.
  induction l as [|p l IH]; intros seen; cbn zeta.
  - cbn. repeat split; try constructor; intros; contradiction.
  - cbn [build_data_list]. destruct (l_id p) as [i|] eqn:Hi.
    + destruct (Z.eqb_spec i 0) as [->|Hi0]; cbn [negb andb].
      * destruct (IH seen) as (Hnd & Hseen & Hsub & Hkeep & Hnone).
        cbn [ids_of flat_map]. rewrite Hi. cbn [app List.filter Z.eqb negb].
        repeat split.
        -- exact Hnd.
        -- exact Hseen.
        -- now constructor.
        -- intros j Hj [Hin|Hin] Hns; [congruence|]. right. now apply Hkeep.
        -- intros q [<-|Hq] Hq'; [now left|]. right. now apply Hnone.
      * destruct (bool_decide (i ∈ seen)) eqn:Ein.
        -- apply bool_decide_eq_true in Ein.
           destruct (IH seen) as (Hnd & Hseen & Hsub & Hkeep & Hnone).
           repeat split.
           ++ exact Hnd.
           ++ exact Hseen.
           ++ now constructor.
           ++ intros j Hj Hin Hns. cbn [ids_of flat_map] in Hin.
              rewrite Hi in Hin. destruct Hin as [<-|Hin]; [contradiction|].
              now apply Hkeep.
           ++ intros q [<-|Hq] Hq'; [|now apply Hnone].
              rewrite Hi in Hq'. destruct Hq' as [|[= ]]; congruence.
        -- apply bool_decide_eq_false in Ein.
           destruct (IH ({[ i ]} ∪ seen)) as (Hnd & Hseen & Hsub & Hkeep & Hnone).
           cbn [ids_of flat_map]. rewrite Hi. cbn [app List.filter].
           rewrite (proj2 (Z.eqb_neq i 0)) by assumption. cbn [negb].
           repeat split.
           ++ apply NoDup_cons. split; [|exact Hnd].
              intros Hin. apply list_elem_of_In in Hin.
              specialize (Hseen i Hin). set_solver.
           ++ intros j [<-|Hj]; [assumption|].
              specialize (Hseen j Hj). set_solver.
           ++ now constructor.
           ++ intros j Hj [<-|Hin] Hns; [now left|].
              destruct (Z.eq_dec i j) as [->|Hij]; [now left|]. right.
              apply Hkeep; [assumption..|set_solver].
           ++ intros q [<-|Hq] Hq'; [now left|]. right. now apply Hnone.
    + destruct (IH seen) as (Hnd & Hseen & Hsub & Hkeep & Hnone).
      cbn [ids_of flat_map]. rewrite Hi. cbn [app].
      repeat split.
      * exact Hnd.
      * exact Hseen.
      * now constructor.
      * intros j Hj Hin Hns. now apply Hkeep.
      * intros q [<-|Hq] Hq'; [now left|]. right. now apply Hnone.
Qed.

(** What one call of [upsert_properties_batch] hands to the table:
    the rows of the batch in their order, but for those whose
    non-zero id an earlier row of the batch carries; so no non-zero id
    goes twice, none is lost, and rows without an id (or with id 0)
    all go. *)
Theorem upsert_batch_sends_each_id_once
    (db : table) (k : nat) (properties rows : list PropertyListing) :
  In rows (snd (upsert_properties_batch db k properties)) ->
  NoDup (List.filter (fun i => negb (i =? 0)) (ids_of rows))
  /\ sublist rows properties
  /\ (forall i, i <> 0 -> In i (ids_of properties) -> In i (ids_of rows))
  /\ (forall p, In p properties ->
        l_id p = None \/ l_id p = Some 0 -> In p rows).
Proof.
  unfold upsert_properties_batch.
  destruct properties as [|p l]; [intros []|].
  destruct (upsert_execute db k _); cbn [snd];
    (intros [<-|[]];
     destruct (build_data_list_spec (p :: l) ∅)
       as (Hnd & _ & Hsub & Hkeep & Hnone);
     repeat split; try assumption;
     intros i Hi Hin; apply Hkeep; [assumption..|set_solver]).
Qed.

End BatchFacts.

(** ** core/daft_scraper.py: the batches of an upload *)

Section BatchesFacts.
Import Models SupabaseClient DaftScraper.

Lemma batch_count (n : nat) :
  length (batch_starts n) = ((n + 99) / 100)%nat.
Proof. unfold batch_starts, batch_size. now rewrite length_map, length_seq. Qed.

(** The upload cuts the new records into batches of 100: the batches
    put end to end are the records, there are [ceil(n / 100)] of them,
    none is empty, and all but the last hold exactly 100. *)
Theorem batches_partition (new_properties : list PropertyListing) :
  concat (batches new_properties) = new_properties
  /\ length (batches new_properties)
     = ((length new_properties + 99) / 100)%nat
  /\ Forall (fun batch => (1 <= length batch <= 100)%nat)
       (batches new_properties)
  /\ (forall k batch,
        nth_error (batches new_properties) k = Some batch ->
        (S k < length (batches new_properties))%nat ->
        length batch = 100%nat).
Proof.
  pose proof (Nat.div_mod_eq (length new_properties + 99) 100) as Hdiv.
  pose proof (Nat.mod_upper_bound (length new_properties + 99) 100) as Hmod.
  split; [apply concat_batches|].
  split; [unfold batches; now rewrite length_map, batch_count|].
  split.
  - unfold batches, batch_starts.
    rewrite List.Forall_map, List.Forall_map, List.Forall_forall.
    intros k Hk. apply in_seq in Hk. unfold slice, batch_size in *.
    change (100 - 1)%nat with 99%nat in Hk.
    rewrite length_firstn, length_skipn. lia.
  - intros k batch Hnth Hk. unfold batches in *.
    rewrite length_map, batch_count in Hk.
    unfold batch_starts in Hnth.
    rewrite List.map_map in Hnth.
    rewrite nth_error_map in Hnth.
    destruct (nth_error (seq 0 _) k) as [j|] eqn:Ej; [|discriminate].
    apply nth_error_In in Ej as Hin. apply in_seq in Hin.
    assert (j = k).
    { apply nth_error_nth with (d := 0%nat) in Ej.
      change (batch_size - 1)%nat with 99%nat in *.
      unfold batch_size in *. rewrite seq_nth in Ej by lia. lia. }
    subst j. inversion Hnth; subst. unfold slice, batch_size in *.
    rewrite length_firstn, length_skipn. lia.
Qed.

End BatchesFacts.

(** ** core/daft_scraper.py: the budgets of the limited runs *)

Section BudgetFacts.
Import Str Re Float Utils Models Parser SupabaseClient DaftScraper.
Variable config : Config.
Variable w : site.

Lemma limited_step_budget max_properties s :
  Z.of_nat (length (lp_all_properties s)) = lp_properties_scraped s ->
  lp_properties_scraped s <= Z.max 0 max_properties ->
  match limited_step config w max_properties s with
  | inl s' =>
      Z.of_nat (length (lp_all_properties s')) = lp_properties_scraped s'
      /\ lp_properties_scraped s' <= Z.max 0 max_properties
  | inr r => Z.of_nat (length (fst r)) <= Z.max 0 max_properties
  end.
Proof.
  intros Hlen Hle. unfold limited_step.
  destruct ((lp_current_page s <=? lp_total_pages s)
            && (lp_properties_scraped s <? max_properties));
    [|cbn; lia].
  destruct (next_data_page w (lp_current_page s)) as [nd|]; [|cbn; auto].
  match goal with
  | |- context [limited_details config w max_properties ?ps [] ?n] =>
      pose proof (limited_details_count config w max_properties ps [] n)
        as H;
      destruct (limited_details config w max_properties ps [] n)
        as [detailed scraped]
  end.
  cbn zeta in H. cbn [fst snd length] in H.
  cbn [lp_all_properties lp_properties_scraped].
  rewrite length_app. lia.
Qed.

(** The limited run returns, and never with more records than its
    budget; with a budget of zero or less it asks for no page at
    all. *)
Theorem scrape_limited_pages_within_budget (max_properties : Z) :
  (exists r,
     scrape_limited_pages config w (S (Z.to_nat (upstream_cap w)))
       max_properties = Some r)
  /\ (forall fuel props fetched,
        scrape_limited_pages config w fuel max_properties
          = Some (props, fetched) ->
        Z.of_nat (length props) <= Z.max 0 max_properties
        /\ (max_properties <= 0 -> props = [] /\ fetched = [])).
Proof.
  split; [apply scrape_limited_pages_terminates|].
  intros fuel props fetched H. split.
  - apply (while_loop_invariant (limited_step config w max_properties)
             (fun s => Z.of_nat (length (lp_all_properties s))
                       = lp_properties_scraped s
                       /\ lp_properties_scraped s <= Z.max 0 max_properties)
             (fun r => Z.of_nat (length (fst r)) <= Z.max 0 max_properties))
      with (3 := H); [|cbn; lia].
    intros s [Hlen Hle]. now apply limited_step_budget.
  - intros Hmax. unfold scrape_limited_pages in H.
    destruct fuel as [|fuel]; [discriminate|].
    cbn [while_loop] in H. unfold limited_step in H at 1.
    cbn [lp_current_page lp_total_pages lp_properties_scraped] in H.
    rewrite (proj2 (Z.ltb_ge 0 max_properties)) in H by lia.
    rewrite andb_false_r in H. now inversion H.
Qed.

(** *** The page loop of [scrape_limited_and_upload] *)

Variable listing_type : Models.listing_type.

Lemma limited_upload_step_pages existing_ids max_pages s :
  (exists n : nat,
     lu_current_page s = Z.of_nat (S n)
     /\ lu_fetched s = pages_upto n
     /\ Z.of_nat n <= Z.max 0 max_pages) ->
  match limited_upload_step config w listing_type existing_ids max_pages s with
  | inl s' =>
      exists n : nat,
        lu_current_page s' = Z.of_nat (S n)
        /\ lu_fetched s' = pages_upto n
        /\ Z.of_nat n <= Z.max 0 max_pages
  | inr r => snd r = pages_upto (Z.to_nat max_pages)
  end.
Proof.
  intros (n & Hpage & Hfetched & Hn). unfold limited_upload_step.
  destruct (Z.leb_spec (lu_current_page s) max_pages) as [Hle|Hgt].
  - destruct (fold_left _ _ _) as [new processed].
    exists (S n). cbn [lu_current_page lu_fetched].
    rewrite Hfetched, pages_upto_S, Hpage. repeat split; lia.
  - cbn [snd]. rewrite Hfetched. f_equal. lia.
Qed.

(** The page-count variant returns after asking for result pages 1
    to [max_pages], every one of them, whatever the upstream reports
    and whatever comes back. *)
Theorem limited_upload_walks_max_pages
    (existing_ids : gset Z) (max_pages : Z) :
  let step :=
    limited_upload_step config w listing_type existing_ids max_pages in
  let start :=
    {| lu_current_page := 1; lu_new_properties := [];
       lu_processed_property_ids := ∅; lu_fetched := [] |} in
  (exists new_properties,
     while_loop (S (Z.to_nat max_pages)) step start
     = Some (new_properties, pages_upto (Z.to_nat max_pages)))
  /\ (forall fuel new_properties fetched,
        while_loop fuel step start = Some (new_properties, fetched) ->
        fetched = pages_upto (Z.to_nat max_pages)).
Proof.
  intros step start.
  assert (Hsafe : forall fuel new_properties fetched,
             while_loop fuel step start = Some (new_properties, fetched) ->
             fetched = pages_upto (Z.to_nat max_pages)).
  { intros fuel new_properties fetched H.
    apply (while_loop_invariant step
             (fun s => exists n : nat,
                         lu_current_page s = Z.of_nat (S n)
                         /\ lu_fetched s = pages_upto n
                         /\ Z.of_nat n <= Z.max 0 max_pages)
             (fun r => snd r = pages_upto (Z.to_nat max_pages)))
      with (3 := H).
    - intros s Hs. now apply limited_upload_step_pages.
    - exists 0%nat. cbn. repeat split; lia. }
  split; [|exact Hsafe].
  destruct (while_loop_terminates step (fun _ => True)
              (fun s => Z.to_nat (max_pages + 1 - lu_current_page s)))
    with (s := start) as [[new_properties fetched] Hr]; [|exact I|].
  - intros s s' _ Hstep. split; [exact I|].
    unfold step, limited_upload_step in Hstep.
    destruct (Z.leb_spec (lu_current_page s) max_pages) as [Hle|Hgt];
      [|discriminate].
    destruct (fold_left _ _ _) as [new processed].
    injection Hstep as <-. cbn [lu_current_page]. lia.
  - cbn [lu_current_page start] in Hr.
    replace (Z.to_nat (max_pages + 1 - 1)) with (Z.to_nat max_pages) in Hr
      by lia.
    exists new_properties. rewrite Hr. f_equal. f_equal.
    exact (Hsafe _ _ _ Hr).
Qed.

End BudgetFacts.

(** ** Samples *)

Section Samples.
Import Str Re Float Utils Models Fetcher Parser SupabaseClient DaftScraper
  Examples.

Lemma single_counts_witness :
  parse_beds (PyStr (lit "3" ++ lit " Bed"))
    = Ok (Some {| min := 3; max := 3; is_studio := false |})
  /\ parse_bathrooms
       (PyStr (lit "Semi-detached, " ++ lit "3" ++ lit " Bath" ++ lit "rooms"))
     = Ok (Some 3).
Proof.
  apply (single_counts (lit "3") (lit "Semi-detached, ") (lit "rooms"));
    [discriminate|reflexivity|reflexivity].
Defined.

Lemma counts_need_digits_witness :
  parse_bathrooms (PyStr (lit "Two Bath")) = Ok None
  /\ parse_beds (PyStr (lit "Two Bath")) = Ok None.
Proof.
  destruct (counts_need_digits (lit "Two Bath")) as [Hbath Hbeds];
    [reflexivity|].
  split; [exact Hbath|apply Hbeds; reflexivity].
Defined.

Lemma price_on_application_witness :
  parse_price
    (PyStr (lit "From " ++ lit "Price On Application" ++ lit " (was 2,000)"))
  = Ok {| value := None; type := on_application |}.
Proof.
  apply (price_on_application (lit "From ") (lit "Price On Application")
           (lit " (was 2,000)")).
  left. reflexivity.
Defined.

Lemma price_amount_is_kept_witness :
  parse_price (PyStr (euro :: lit "1,250,000" ++ lit " per month"))
    = Ok {| value := Some (of_Z 1250000); type := numeric |}
  /\ parse_price (PyStr (euro :: lit "1,250,000"))
     = Ok {| value := Some (of_Z 1250000); type := numeric |}
  /\ price_period_of (euro :: lit "1,250,000" ++ lit " per month")
     = Some (lit "month")
  /\ price_period_of (euro :: lit "1,250,000") = None.
Proof.
  apply (price_amount_is_kept (lit "1,250,000"));
    [reflexivity|discriminate].
Defined.

(** 53.3 and -6.2 come out as the binary64 numbers nearest to them. *)
Lemma map_link_coordinates_witness :
  extract_lat_lng
    (Some (lit "https://www.google.com/maps?" ++ lit "q=loc:" ++ lit "53.3"
           ++ plus_sign :: lit "-6.2" ++ lit "&z=15"))
  = Ok (Some (Fin (3750654064669491 # 70368744177664),
              Fin (-6980579422424269 # 1125899906842624)))
  /\ extract_lat_lng
       (Some (lit "https://www.google.com/maps?" ++ lit "q=loc:" ++ lit "5-3"
              ++ plus_sign :: lit "-6.2" ++ lit "&z=15"))
     = Ok None.
Proof.
  split.
  - etransitivity;
      [apply (map_link_coordinates (lit "https://www.google.com/maps?")
                (lit "53.3") (lit "-6.2") (lit "&z=15"));
       [vm_compute; intuition discriminate|discriminate|discriminate
       |reflexivity|reflexivity|reflexivity]
      |vm_compute; reflexivity].
  - apply (map_link_coordinates (lit "https://www.google.com/maps?")
             (lit "5-3") (lit "-6.2") (lit "&z=15"));
      [vm_compute; intuition discriminate|discriminate|discriminate
      |reflexivity|reflexivity|reflexivity].
Defined.

Lemma format_ber_rating_witness :
  format_ber (Some (lit " " ++ lit "BER " ++ lit "B2" ++ lit "  "))
    = Some (lit "B2")
  /\ format_ber (Some (lit " " ++ lit "B2" ++ lit "  ")) = Some (lit "B2").
Proof.
  apply (format_ber_rating (lit " ") (lit "B2") (lit "  "));
    [reflexivity|reflexivity|discriminate|reflexivity|reflexivity].
Defined.

Lemma location_slug_of_two_parts_witness :
  generate_daft_location_slug (PyStr (lit "Dun Laoghaire" ++ comma :: lit " Co. Dublin"))
  = lit "dun-laoghaire-co-dublin".
Proof.
  apply (location_slug_of_two_parts (lit "Dun Laoghaire") (lit " Co. Dublin"));
    [vm_compute; intuition discriminate|vm_compute; intuition discriminate
    |discriminate|discriminate].
Defined.

Lemma card_id_is_the_url_id_witness :
  exists p,
    _parse_property_element default_config sample_card = Some p
    /\ url p = lit "https://www.daft.ie/for-rent/apartment-main-street/123"
    /\ id p = lit "123"
    /\ _extract_property_info_from_url default_config (PyStr (url p))
       = (Some (id p), Some (lit "apartment-main-street")).
Proof.
  eexists. split; [vm_compute; reflexivity|].
  destruct (card_id_is_the_url_id default_config sample_card
              (lit "/for-rent/apartment-main-street/123") _
              eq_refl eq_refl eq_refl) as (Hurl & Hid & _).
  split; [exact Hurl|]. split; [exact Hid|]. vm_compute; reflexivity.
Defined.

Lemma card_record_holds_normalized_fields_witness :
  exists p,
    _parse_property_element default_config sample_card = Some p
    /\ price_string p = euro :: lit "2,000 per month"
    /\ parse_price (PyStr (price_string p))
       = Ok {| value := parsed_price p; type := Models.price_type p |}
    /\ parse_beds (PyStr (beds_string p)) = Ok (parsed_beds p).
Proof.
  eexists. split; [vm_compute; reflexivity|].
  apply (card_record_holds_normalized_fields default_config sample_card).
  vm_compute; reflexivity.
Defined.

Lemma search_path_round_trip_witness :
  search_path default_config (build_search_url default_config rent (lit "Cork"))
    = lit "/property-for-rent/cork-city"
  /\ DAFT_BASE_URL default_config
     ++ search_path default_config
          (build_search_url default_config rent (lit "Cork"))
     = build_search_url default_config rent (lit "Cork").
Proof.
  apply (search_path_round_trip default_config rent (lit "Cork")).
  vm_compute. tauto.
Defined.

Lemma interactive_scrape_stays_in_range_witness :
  exists result,
    interactive_scrape counts nothing_new (lit "dublin") session
      = (result, [(sale, 2); (rent, 5)])
    /\ sublist [sale; rent] [sale; rent]
    /\ Forall (fun r =>
                 1 <= snd r
                 <= (c_count (get_property_count counts (fst r) (lit "dublin"))
                     + 19) / 20)
         [(sale, 2); (rent, 5)].
Proof.
  eexists. split; [vm_compute; reflexivity|].
  edestruct (interactive_scrape_stays_in_range counts nothing_new
               (lit "dublin") session)
    as (Hsub & Hrange & _); [vm_compute; reflexivity|].
  split; [exact Hsub|exact Hrange].
Defined.

Lemma fetch_makes_bounded_requests_witness :
  exists pauses,
    (length pauses <= 2)%nat
    /\ Forall (fun ms => ms = 2000 \/ ms = 2000 * 2) pauses
    /\ snd (fetch_page_html default_config forbidden_once Timeout
              (lit "https://www.daft.ie/x") 1)
       = opening true Timeout
         ++ flat_map (fun ms => [Get (lit "https://www.daft.ie/x"); Delay ms])
              pauses
         ++ [Get (lit "https://www.daft.ie/x")].
Proof.
  apply (proj1 (fetch_makes_bounded_requests default_config forbidden_once
                  Timeout (lit "https://www.daft.ie/x") 1
                  (fun body : str => Some body) ltac:(vm_compute; discriminate))).
Defined.

Lemma fetch_sends_one_request_witness :
  snd (fetch_page_html default_config timing_out (Response 200 [])
         (lit "https://www.daft.ie/x") 1)
    = [Get main_page; Get (lit "https://www.daft.ie/x")]
  /\ snd (fetch_json_api default_config forbidden_once (Response 200 [])
            (fun body : str => Some body) (lit "https://www.daft.ie/x") 0)
     = [Get (lit "https://www.daft.ie/x")].
Proof.
  split.
  - apply (proj1 (fetch_sends_one_request default_config timing_out
                    (Response 200 []) (lit "https://www.daft.ie/x") 1
                    (fun body : str => Some body)
                    ltac:(vm_compute; discriminate))).
  - apply (proj2 (fetch_sends_one_request default_config forbidden_once
                    (Response 200 []) (lit "https://www.daft.ie/x") 0
                    (fun body : str => Some body)
                    ltac:(vm_compute; discriminate))).
Defined.

(** Timeouts with no retry configured, and with two. *)
Lemma fetch_exceptions_by_retry_count_witness :
  (fst (fetch_page_html no_retries timing_out Timeout
          (lit "https://www.daft.ie/x") 0)
     = Raise (NetworkException (lit "https://www.daft.ie/x") true)
   /\ MAX_FETCH_RETRIES no_retries = 0)
  /\ (fst (fetch_page_html default_config timing_out Timeout
             (lit "https://www.daft.ie/x") 0)
        = Raise ModuleNotFoundError
      /\ 1 <= MAX_FETCH_RETRIES default_config).
Proof.
  split.
  - split; [vm_compute; reflexivity|].
    apply (fetch_exceptions_by_retry_count no_retries timing_out Timeout
             (lit "https://www.daft.ie/x") 0 (fun body : str => Some body)
             (NetworkException (lit "https://www.daft.ie/x") true));
      [vm_compute; discriminate|left; vm_compute; reflexivity].
  - split; [vm_compute; reflexivity|].
    apply (fetch_exceptions_by_retry_count default_config timing_out Timeout
             (lit "https://www.daft.ie/x") 0 (fun body : str => Some body)
             ModuleNotFoundError);
      [vm_compute; discriminate|left; vm_compute; reflexivity].
Defined.

Lemma upsert_batch_sends_each_id_once_witness :
  exists rows,
    snd (upsert_properties_batch empty_table 0 repeated_rows) = [rows]
    /\ ids_of rows = [1; 2]
    /\ NoDup (List.filter (fun i => negb (i =? 0)) (ids_of rows))
    /\ sublist rows repeated_rows.
Proof.
  eexists. split; [vm_compute; reflexivity|]. split; [reflexivity|].
  edestruct (upsert_batch_sends_each_id_once empty_table 0 repeated_rows)
    as (Hnodup & Hsub & _); [left; vm_compute; reflexivity|].
  split; [exact Hnodup|exact Hsub].
Defined.

Lemma card_is_dropped_for_link_or_price_witness :
  _parse_property_element default_config huge_price_card = None.
Proof.
  apply (proj2 (card_is_dropped_for_link_or_price default_config
                  huge_price_card)).
  exists OverflowError. vm_compute. reflexivity.
Defined.

Lemma dublin_locations_get_the_county_witness :
  generate_daft_location_slug (PyStr (lit "DUBLIN" ++ lit " " ++ lit "6"))
    = lit "dublin-6-dublin"
  /\ generate_daft_location_slug (PyStr (lit "rathmines"))
     = lit "rathmines-dublin".
Proof.
  destruct (dublin_locations_get_the_county (lit "DUBLIN") (lit "6")
              (lit "rathmines")) as [Hdistrict Harea].
  split.
  - apply Hdistrict; [reflexivity|discriminate|reflexivity].
  - apply Harea. vm_compute. tauto.
Defined.

Lemma fetch_returns_body_of_good_response_witness :
  fst (fetch_page_html default_config serving Timeout
         (lit "https://www.daft.ie/x") 0) = Ok (lit "<html>")
  /\ exists k status_code,
       1 <= k <= 3
       /\ serving k = Response status_code (lit "<html>")
       /\ status_code <> 404 /\ status_code <> 403
       /\ ~ 400 <= status_code < 600.
Proof.
  split; [vm_compute; reflexivity|].
  apply (proj1 (fetch_returns_body_of_good_response default_config
                  serving Timeout (lit "https://www.daft.ie/x") 0
                  (fun body : str => Some body) (lit "<html>") [])).
  vm_compute; reflexivity.
Defined.

Lemma scrape_limited_pages_within_budget_witness :
  exists props fetched,
    scrape_limited_pages default_config million_results_site 4 50
      = Some (props, fetched)
    /\ length props = 50%nat
    /\ fetched = [1; 2; 3]
    /\ Z.of_nat (length props) <= Z.max 0 50.
Proof.
  eexists. eexists. split; [vm_compute; reflexivity|].
  split; [reflexivity|]. split; [reflexivity|].
  eapply (proj2 (scrape_limited_pages_within_budget default_config
                   million_results_site 50) 4%nat).
  vm_compute; reflexivity.
Defined.

End Samples.
